(** * Aleo SDK orchestration layer: record discovery, key resolution and
      transaction building, as a shallow embedding.

    The development follows the JavaScript sources of the SDK
    ([AleoNetworkClient], [AleoKeyProvider], [NetworkRecordProvider] and
    [ProgramManager]).  Asynchronous methods become computations in a small
    state-and-exception monad [M]: the state carries the outside world (the
    remote ledger, the key server, the providers) and a trace of the calls
    made to it; a JavaScript [throw] becomes the [Throw] result and
    [try]/[catch] becomes [try_]. *)

From Stdlib Require Import ZArith Lia.
From stdpp Require Import base option strings list gmap pretty.

Local Open Scope string_scope.
Local Open Scope Z_scope.

(* ===================================================================== *)
(** * Ledger data as it arrives from the REST API *)
(* ===================================================================== *)

(** A decrypted credits record.  [microcredits] is the u64 amount (a BigInt
    in the source), [nonce] identifies the record instance. *)
Record RecordPlaintext := mkRecordPlaintext {
  owner : string;
  microcredits : Z;
  nonce : string
}.

Record Output := mkOutput {
  output_type : string;
  output_value : string
}.

Record Transition := mkTransition {
  transition_program : string;
  transition_outputs : option (list Output)
}.

Record Execution := mkExecution {
  execution_transitions : option (list Transition)
}.

Record Transaction := mkTransaction {
  transaction_execution : option Execution
}.

Record ConfirmedTransaction := mkConfirmedTransaction {
  confirmed_type : string;
  confirmed_transaction : Transaction
}.

Record Block := mkBlock {
  block_transactions : option (list ConfirmedTransaction)
}.

(** The GET endpoints the scan uses ([fetchData] appends the path to the
    host): ["/latest/height"], ["/blocks?start=..&end=.."] and
    ["/find/transitionID/.."]. *)
Inductive Request :=
| ReqLatestHeight
| ReqBlockRange (start end_ : Z)
| ReqTransitionId (inputOrOutputID : string).

(** What [response.json()] yields. *)
Inductive Json :=
| JNumber (n : Z)
| JString (s : string)
| JBlocks (blocks : list Block)
| JOther.

(** JavaScript values that can be thrown: [new Error(msg)], a bare string
    (as [logAndThrow] does) and the runtime's [TypeError]. *)
Inductive exn :=
| Error (msg : string)
| ThrownString (msg : string)
| TypeError (msg : string).

(** The text `${e}` produces for a caught value. *)
Definition exn_to_string (e : exn) : string :=
  match e with
  | Error msg => "Error: " ++ msg
  | ThrownString msg => msg
  | TypeError msg => "TypeError: " ++ msg
  end.

(** Values stored in the plain objects passed as search parameters. *)
Inductive JsVal :=
| VUndefined
| VNumber (n : Z)
| VString (s : string)
| VBool (b : bool).

(** A JavaScript value of type [T | Error]: several methods hand an [Error]
    object back as their result instead of throwing it. *)
Inductive MaybeError (A : Type) :=
| Val (a : A)
| ErrVal (e : exn).
Arguments Val {A} a.
Arguments ErrVal {A} e.

(** Calls into the external engine, with what matters of their arguments. *)
Inductive EngineCall :=
| EngineExecute (hasProvingKey hasVerifyingKey : bool)
| EngineRun (hasProvingKey hasVerifyingKey : bool)
| EngineTransfer (transferType : string)
                 (amountRecord feeRecord : option (MaybeError RecordPlaintext)).

(** Calls that leave the SDK, recorded in the trace in the order made. *)
Inductive Event :=
| EvFetch (req : Request) (found : bool)
| EvHttpGet (url : string) (ok : bool)
| EvLog (msg : string)
| EvGetProgram (programName : string)
| EvGetProgramImports (programName : string)
| EvFeeKeys (privateFee : bool)
| EvTransferKeys (visibility : string)
| EvFunctionKeys
| EvFindCreditsRecord (microcredits : Z) (nonces : list string)
| EvEngine (c : EngineCall).

(* ===================================================================== *)
(** * The effect monad *)
(* ===================================================================== *)

Module Eff.

Inductive Res (A : Type) :=
| Ok (a : A)
| Throw (e : exn).
Arguments Ok {A} a.
Arguments Throw {A} e.

Record St (W : Type) := mkSt {
  world : W;
  trace : list Event
}.
Arguments mkSt {W} world trace.
Arguments world {W} s.
Arguments trace {W} s.

Definition M (W A : Type) : Type := St W -> Res A * St W.

Section Ops.
Context {W : Type}.

Definition ret {A} (a : A) : M W A := fun s => (Ok a, s).

Definition throw {A} (e : exn) : M W A := fun s => (Throw e, s).

Definition bind {A B} (m : M W A) (f : A -> M W B) : M W B :=
  fun s =>
    match m s with
    | (Ok a, s') => f a s'
    | (Throw e, s') => (Throw e, s')
    end.

(** [try { m } catch (e) { h e }] *)
Definition try_ {A} (m : M W A) (h : exn -> M W A) : M W A :=
  fun s =>
    match m s with
    | (Ok a, s') => (Ok a, s')
    | (Throw e, s') => h e s'
    end.

(** Record an event. *)
Definition emit (ev : Event) : M W unit :=
  fun s => (Ok tt, mkSt (world s) (trace s ++ [ev])).

(** A call to an outside collaborator [op], which sees and changes the
    world only; the call is recorded as [ev r] once it has answered. *)
Definition call {A} (op : W -> Res A * W) (ev : Res A -> Event) : M W A :=
  fun s =>
    let '(r, w') := op (world s) in
    (r, mkSt w' (trace s ++ [ev r])).

Definition is_ok {A} (r : Res A) : bool :=
  match r with Ok _ => true | Throw _ => false end.
End Ops.

(** Loop bodies either fall through to the next iteration or leave the
    enclosing function with a value ([return] inside a loop). *)
Inductive Ctl (S R : Type) :=
| Next (s : S)
| Return (r : R).
Arguments Next {S R} s.
Arguments Return {S R} r.

Section Loops.
Context {W S R : Type}.

(** [for (x of l) body] with the loop-carried state [s]. *)
Fixpoint for_each {A} (l : list A) (body : A -> S -> M W (Ctl S R)) (s : S)
  : M W (Ctl S R) :=
  match l with
  | [] => ret (Next s)
  | x :: l' =>
      bind (body x s) (fun c =>
        match c with
        | Next s' => for_each l' body s'
        | Return r => ret (Return r)
        end)
  end.
End Loops.

End Eff.
Import Eff.

Notation "'do' x <- m ; k" := (bind m (fun x => k))
  (at level 10, x name, m at level 100, k at level 200,
   format "'[v' 'do'  x  <-  m ; '/' k ']'").
Notation "'do_' m ; k" := (bind m (fun _ => k))
  (at level 10, m at level 100, k at level 200,
   format "'[v' 'do_'  m ; '/' k ']'").

(* ===================================================================== *)
(** * AleoNetworkClient: the remote ledger gateway and the record scan *)
(* ===================================================================== *)

Module NetworkClient.

(** The [privateKey] argument: absent, a [PrivateKey] object or its text. *)
Inductive PrivateKeyArg (PrivateKey : Type) :=
| PKUndefined
| PKObject (k : PrivateKey)
| PKString (s : string).
Arguments PKUndefined {PrivateKey}.
Arguments PKObject {PrivateKey} k.
Arguments PKString {PrivateKey} s.

(** The variables of the scan that the loops update: the [records] array
    and [totalRecordValue]. *)
Record ScanState := mkScan {
  records : list RecordPlaintext;
  totalRecordValue : Z
}.

Section Client.
Context {W : Type}.

(** The node behind [this.host]: answers a GET with a JSON body or fails
    (no connection, non-2xx status, unparsable body). *)
Variable gateway : Request -> W -> option Json * W.

(** The cryptographic engine (wasm), opaque to this layer.  [None] stands
    for a thrown exception. *)
Context {PrivateKey ViewKey RecordCiphertext : Type}.
Variable PrivateKey_from_string : string -> option PrivateKey.
Variable to_view_key : PrivateKey -> ViewKey.
Variable RecordCiphertext_fromString : string -> option RecordCiphertext.
Variable isOwner : RecordCiphertext -> ViewKey -> bool.
Variable decrypt : RecordCiphertext -> ViewKey -> option RecordPlaintext.
Variable serialNumberString :
  RecordPlaintext -> PrivateKey -> string -> string -> option string.

Definition fetchData (req : Request) : M W Json :=
  call (fun w =>
          let '(r, w') := gateway req w in
          (match r with
           | Some j => Ok j
           | None => Throw (Error "Error fetching data.")
           end, w'))
       (fun r => EvFetch req (is_ok r)).

Definition getLatestHeight : M W Json :=
  try_ (fetchData ReqLatestHeight)
       (fun _ => throw (Error "Error fetching latest height.")).

Definition getBlockRange (start end_ : Z) : M W Json :=
  try_ (fetchData (ReqBlockRange start end_))
       (fun _ => throw (Error ("Error fetching blocks between " ++ pretty start
                               ++ " and " ++ pretty end_ ++ "."))).

Definition getTransitionId (inputOrOutputID : string) : M W Json :=
  try_ (fetchData (ReqTransitionId inputOrOutputID))
       (fun _ => throw (Error "Error fetching transition ID.")).

(** [blocks.length] and [blocks[i]] on the parsed body: only an array
    has blocks to iterate over. *)
Definition blocks_of (j : Json) : list Block :=
  match j with
  | JBlocks bs => bs
  | _ => []
  end.

Section Scan.
Variable resolvedPrivateKey : PrivateKey.
Variable amounts : option (list Z).
Variable maxMicrocredits : option Z.
Variable nonces : list string.

Let viewKey := to_view_key resolvedPrivateKey.

Definition push (r : RecordPlaintext) (st : ScanState) : ScanState :=
  mkScan (records st ++ [r]) (totalRecordValue st).

(** [if (typeof maxMicrocredits === "number") { totalRecordValue += ...;
    if (totalRecordValue >= BigInt(maxMicrocredits)) return records; }] *)
Definition check_budget (r : RecordPlaintext) (st : ScanState)
  : Ctl ScanState (list RecordPlaintext) :=
  match maxMicrocredits with
  | Some m =>
      let st' := mkScan (records st) (totalRecordValue st + microcredits r) in
      if totalRecordValue st' >=? m then Return (records st') else Next st'
  | None => Next st
  end.

(** [if (!amounts) { records.push(recordPlaintext); ... }] *)
Definition accept_any (r : RecordPlaintext) (st : ScanState)
  : Ctl ScanState (list RecordPlaintext) :=
  match amounts with
  | None => check_budget r (push r st)
  | Some _ => Next st
  end.

(** [if (!(typeof amounts === "undefined") && amounts.length > 0) {
      let amounts_found = 0;
      if (recordPlaintext.microcredits() > amounts[amounts_found]) { ... } }] *)
Definition accept_matching (r : RecordPlaintext) (st : ScanState)
  : Ctl ScanState (list RecordPlaintext) :=
  match amounts with
  | Some l =>
      if (0 <? length l)%nat then
        let amounts_found := 0%nat in
        match l !! amounts_found with
        | Some a =>
            if microcredits r >? a then
              match check_budget r (push r st) with
              | Return recs => Return recs
              | Next st' =>
                  if (length l <=? length (records st'))%nat
                  then Return (records st')
                  else Next st'
              end
            else Next st
        | None => Next st
        end
      else Next st
  | None => Next st
  end.

(** The body of the [catch] around [getTransitionId]: the record is
    not known to be spent. *)
Definition on_unspent (r : RecordPlaintext) (st : ScanState)
  : Ctl ScanState (list RecordPlaintext) :=
  match accept_any r st with
  | Return recs => Return recs
  | Next st' => accept_matching r st'
  end.

(** One output of a transition.  Exceptions of the engine inside the
    outer [try] are swallowed by its empty [catch]. *)
Definition check_output (output : Output) (st : ScanState)
  : M W (Ctl ScanState (list RecordPlaintext)) :=
  if String.eqb (output_type output) "record" then
    match RecordCiphertext_fromString (output_value output) with
    | None => ret (Next st)
    | Some record =>
        if isOwner record viewKey then
          match decrypt record viewKey with
          | None => ret (Next st)
          | Some recordPlaintext =>
              if bool_decide (nonce recordPlaintext ∈ nonces) then ret (Next st)
              else
                match serialNumberString recordPlaintext resolvedPrivateKey
                                         "credits.aleo" "credits" with
                | None => ret (Next st)
                | Some serialNumber =>
                    try_ (do_ getTransitionId serialNumber; ret (Next st))
                         (fun _ => ret (on_unspent recordPlaintext st))
                end
          end
        else ret (Next st)
    end
  else ret (Next st).

Definition check_transition (transition : Transition) (st : ScanState)
  : M W (Ctl ScanState (list RecordPlaintext)) :=
  if negb (String.eqb (transition_program transition) "credits.aleo")
  then ret (Next st)
  else
    match transition_outputs transition with
    | Some outputs => for_each outputs check_output st
    | None => ret (Next st)
    end.

Definition check_transaction (confirmedTransaction : ConfirmedTransaction)
           (st : ScanState) : M W (Ctl ScanState (list RecordPlaintext)) :=
  if String.eqb (confirmed_type confirmedTransaction) "execute" then
    match transaction_execution (confirmed_transaction confirmedTransaction) with
    | Some execution =>
        match execution_transitions execution with
        | Some transitions => for_each transitions check_transition st
        | None => ret (Next st)
        end
    | None => ret (Next st)
    end
  else ret (Next st).

Definition check_block (block : Block) (st : ScanState)
  : M W (Ctl ScanState (list RecordPlaintext)) :=
  match block_transactions block with
  | Some transactions => for_each transactions check_transaction st
  | None => ret (Next st)
  end.

(** The [try] block of one round of the [while] loop: fetch the
    chunk [start, end] and walk its blocks.  [inr] is the [catch]
    branch; only the fetch can throw, since [check_output] swallows
    what the engine throws. *)
Definition scan_chunk (start end_ : Z) (st : ScanState)
  : M W (Ctl ScanState (list RecordPlaintext) + exn) :=
  try_ (do blocks <- getBlockRange start end_;
        do c <- for_each (blocks_of blocks) check_block st;
        ret (inl c))
       (fun error => ret (inr error)).

(** Texts of the [console.warn] calls of the [catch] branch. *)
Definition fetch_warning (start end_ : Z) : string :=
  "Error fetching blocks in range: " ++ pretty start ++ "-" ++ pretty end_.
Definition too_many_failures : string :=
  "10 failures fetching records reached. Returning records fetched so far".

(** [while (end > startHeight) { ... } return records;].  [None] only
    when [fuel] runs out, which [findUnspentRecords] excludes: its fuel
    covers every round the loop can take. *)
Fixpoint scan_loop (fuel : nat) (startHeight end_ failures : Z) (st : ScanState)
  : M W (option (list RecordPlaintext)) :=
  match fuel with
  | O => ret None
  | S fuel' =>
      if end_ >? startHeight then
        let start := if end_ - 50 <? startHeight then startHeight else end_ - 50 in
        do r <- scan_chunk start end_ st;
        match r with
        | inl (Return recs) => ret (Some recs)
        | inl (Next st') => scan_loop fuel' startHeight start failures st'
        | inr error =>
            do_ emit (EvLog (fetch_warning start end_));
            do_ emit (EvLog ("Error: " ++ exn_to_string error));
            let failures := failures + 1 in
            if failures >? 10 then
              do_ emit (EvLog too_many_failures);
              ret (Some (records st))
            else scan_loop fuel' startHeight end_ failures st
        end
      else ret (Some (records st))
  end.

End Scan.

(** Rounds the loop can take: each successful chunk lowers [end] by at
    least one block, and at most eleven fetches fail. *)
Definition scan_fuel (startHeight end_ : Z) : nat :=
  (Z.to_nat (end_ - startHeight) + 12)%nat.

(** [findUnspentRecords(startHeight, endHeight, privateKey, amounts,
    maxMicrocredits, nonces)]; [account] is [this.account]. *)
Definition findUnspentRecords (account : option PrivateKey)
           (startHeight : Z) (endHeight : option Z)
           (privateKey : PrivateKeyArg PrivateKey)
           (amounts : option (list Z)) (maxMicrocredits : option Z)
           (nonces : option (list string))
  : M W (list RecordPlaintext) :=
  let nonces := default [] nonces in
  if startHeight <? 0 then
    throw (Error "Start height must be greater than or equal to 0")
  else
    do resolvedPrivateKey <-
      match privateKey with
      | PKUndefined =>
          match account with
          | None => throw (Error "Private key must be specified in an argument to findOwnedRecords or set in the AleoNetworkClient")
          | Some k => ret k
          end
      | PKObject k => ret k
      | PKString s =>
          match PrivateKey_from_string s with
          | Some k => ret k
          | None => throw (Error "Error parsing private key provided.")
          end
      end;
    do latestHeight <-
      try_ (do blockHeight <- getLatestHeight;
            match blockHeight with
            | JNumber n => ret n
            | _ => throw (Error "Error fetching latest block height.")
            end)
           (fun _ => throw (Error "Error fetching latest block height."));
    let end_ :=
      match endHeight with
      | Some e => if e <=? latestHeight then e else latestHeight
      | None => latestHeight
      end in
    if startHeight >? end_ then
      throw (Error "Start height must be less than or equal to end height.")
    else
      do r <- scan_loop resolvedPrivateKey amounts maxMicrocredits nonces
                        (scan_fuel startHeight end_) startHeight end_ 0
                        (mkScan [] 0);
      match r with
      | Some recs => ret recs
      | None => throw (Error "scan did not terminate")
      end.

End Client.
End NetworkClient.

(* ===================================================================== *)
(** * AleoKeyProvider: proving and verifying keys, cached or fetched *)
(* ===================================================================== *)

Module KeyProvider.

Definition bytes := list Byte.byte.

Definition KEY_STORE : string := "https://testnet3.parameters.aleo.org/".

(** The functions of [credits.aleo] (and the inclusion prover) the SDK
    knows keys for. *)
Inductive CreditsFunction :=
| bond_public | claim_unbond_public | fee_private | fee_public | inclusion
| join | set_validator_state | split | transfer_private
| transfer_private_to_public | transfer_public | transfer_public_to_private
| unbond_delegator_as_validator | unbond_public.

Record CreditsKey := mkCreditsKey {
  locator : string;
  prover : string;
  verifier : string
}.

Definition CREDITS_PROGRAM_KEYS (f : CreditsFunction) : CreditsKey :=
  match f with
  | bond_public =>
      mkCreditsKey "credits.aleo/bond_public"
        (KEY_STORE ++ "bond_public.prover.9c3547d") "bond_public.verifier.10315ae"
  | claim_unbond_public =>
      mkCreditsKey "credits.aleo/claim_unbond_public"
        (KEY_STORE ++ "claim_unbond_public.prover.f8b64aa")
        "claim_unbond_public.verifier.8fd7445"
  | fee_private =>
      mkCreditsKey "credits.aleo/fee_private"
        (KEY_STORE ++ "fee_private.prover.43fab98") "fee_private.verifier.f3dfefc"
  | fee_public =>
      mkCreditsKey "credits.aleo/fee_public"
        (KEY_STORE ++ "fee_public.prover.634f153") "fee_public.verifier.09eeb4f"
  | inclusion =>
      mkCreditsKey "inclusion"
        (KEY_STORE ++ "inclusion.prover.cd85cc5") "inclusion.verifier.e6f3add"
  | join =>
      mkCreditsKey "credits.aleo/join"
        (KEY_STORE ++ "join.prover.1a76fe8") "join.verifier.4f1701b"
  | set_validator_state =>
      mkCreditsKey "credits.aleo/set_validator_state"
        (KEY_STORE ++ "set_validator_state.prover.5ce19be")
        "set_validator_state.verifier.730d95b"
  | split =>
      mkCreditsKey "credits.aleo/split"
        (KEY_STORE ++ "split.prover.e6d12b9") "split.verifier.2f9733d"
  | transfer_private =>
      mkCreditsKey "credits.aleo/transfer_private"
        (KEY_STORE ++ "transfer_private.prover.2b487c0")
        "transfer_private.verifier.3a3cbba"
  | transfer_private_to_public =>
      mkCreditsKey "credits.aleo/transfer_private_to_public"
        (KEY_STORE ++ "transfer_private_to_public.prover.1ff64cb")
        "transfer_private_to_public.verifier.d5b60de"
  | transfer_public =>
      mkCreditsKey "credits.aleo/transfer_public"
        (KEY_STORE ++ "transfer_public.prover.a74565e")
        "transfer_public.verifier.a4c2906"
  | transfer_public_to_private =>
      mkCreditsKey "credits.aleo/transfer_public_to_private"
        (KEY_STORE ++ "transfer_public_to_private.prover.1bcddf9")
        "transfer_public_to_private.verifier.b094554"
  | unbond_delegator_as_validator =>
      mkCreditsKey "credits.aleo/unbond_delegator_as_validator"
        (KEY_STORE ++ "unbond_delegator_as_validator.prover.115a86b")
        "unbond_delegator_as_validator.verifier.9585609"
  | unbond_public =>
      mkCreditsKey "credits.aleo/unbond_public"
        (KEY_STORE ++ "unbond_public.prover.9547c05")
        "unbond_public.verifier.09873cd"
  end.

(** The [case] labels of [getVerifyingKey], in the order of the [switch]. *)
Definition verifier_cases : list CreditsFunction :=
  [ bond_public; claim_unbond_public; fee_private; fee_public; inclusion; join;
    set_validator_state; split; transfer_private; transfer_private_to_public;
    transfer_public; transfer_public_to_private; unbond_delegator_as_validator;
    unbond_public ].

Definition PRIVATE_TRANSFER : gset string :=
  {[ "private"; "transfer_private"; "transferPrivate" ]}.
Definition PRIVATE_TO_PUBLIC_TRANSFER : gset string :=
  {[ "private_to_public"; "privateToPublic"; "transfer_private_to_public";
     "transferPrivateToPublic" ]}.
Definition PUBLIC_TRANSFER : gset string :=
  {[ "public"; "transfer_public"; "transferPublic" ]}.
Definition PUBLIC_TO_PRIVATE_TRANSFER : gset string :=
  {[ "public_to_private"; "publicToPrivate"; "transfer_public_to_private";
     "transferPublicToPrivate" ]}.

(** [set.has(x)] *)
Definition has (s : gset string) (x : string) : bool := bool_decide (x ∈ s).

(** [params[k]] when ["k" in params && typeof params[k] == "string"]. *)
Definition string_field (params : gmap string JsVal) (k : string) : option string :=
  match params !! k with
  | Some (VString s) => Some s
  | _ => None
  end.

(** Truthiness of a variable that is [undefined] or a string. *)
Definition truthy (o : option string) : bool :=
  match o with
  | Some s => negb (String.eqb s "")
  | None => false
  end.

(** The object's fields: [cache] (a [Map] from key id to the two byte
    arrays) and [cacheOption]. *)
Record AleoKeyProvider := mkProvider {
  cache : gmap string (bytes * bytes);
  cacheOption : bool
}.

Section Provider.
Context {W : Type}.

(** The key server: [get(url)] followed by reading the body. *)
Variable http_get : string -> W -> option bytes * W.

(** Key objects of the engine; [None] stands for a thrown exception. *)
Context {ProvingKey VerifyingKey : Type}.
Variable ProvingKey_fromBytes : bytes -> option ProvingKey.
Variable ProvingKey_toBytes : ProvingKey -> bytes.
Variable VerifyingKey_fromBytes : bytes -> option VerifyingKey.
Variable VerifyingKey_fromString : string -> option VerifyingKey.
Variable VerifyingKey_toBytes : VerifyingKey -> bytes.
(** The compiled-in verifying keys, e.g. [VerifyingKey.joinVerifier()]. *)
Variable verifyingKey : CreditsFunction -> VerifyingKey.

Definition get (url : string) : M W bytes :=
  call (fun w =>
          let '(r, w') := http_get url w in
          (match r with
           | Some b => Ok b
           | None => Throw (Error ("could not get URL " ++ url))
           end, w'))
       (fun r => EvHttpGet url (is_ok r)).

Definition fetchBytes (url : string) : M W bytes :=
  try_ (get url)
       (fun error => throw (Error ("Error fetching data." ++ exn_to_string error))).

Definition new_AleoKeyProvider : AleoKeyProvider := mkProvider ∅ false.

Definition useCache (this : AleoKeyProvider) (useCache : bool) : AleoKeyProvider :=
  mkProvider (cache this) useCache.

Definition clearCache (this : AleoKeyProvider) : AleoKeyProvider :=
  mkProvider ∅ (cacheOption this).

Definition cacheKeys (this : AleoKeyProvider) (keyId : string)
           (keys : ProvingKey * VerifyingKey) : AleoKeyProvider :=
  let '(provingKey, verifyingKey) := keys in
  mkProvider (<[keyId := (ProvingKey_toBytes provingKey,
                          VerifyingKey_toBytes verifyingKey)]> (cache this))
             (cacheOption this).

Definition containsKeys (this : AleoKeyProvider) (keyId : string) : bool :=
  bool_decide (is_Some (cache this !! keyId)).

(** [ProvingKey.fromBytes(b)] as a computation. *)
Definition provingKey_of (b : bytes) : M W ProvingKey :=
  match ProvingKey_fromBytes b with
  | Some k => ret k
  | None => throw (Error "invalid proving key bytes")
  end.

Definition verifyingKey_of (b : bytes) : M W VerifyingKey :=
  match VerifyingKey_fromBytes b with
  | Some k => ret k
  | None => throw (Error "invalid verifying key bytes")
  end.

(** [getKeys(keyId)]: the pair rebuilt from the cached bytes, or the
    [Error] object (returned, not thrown) when the id is not cached. *)
Definition getKeys (this : AleoKeyProvider) (keyId : string)
  : M W (MaybeError (ProvingKey * MaybeError VerifyingKey)) :=
  do_ emit (EvLog ("Checking if key exists in cache. KeyId: " ++ keyId));
  match cache this !! keyId with
  | Some (provingKeyBytes, verifyingKeyBytes) =>
      do pk <- provingKey_of provingKeyBytes;
      do vk <- verifyingKey_of verifyingKeyBytes;
      ret (Val (pk, Val vk))
  | None => ret (ErrVal (Error "Key not found in cache."))
  end.

(** [getVerifyingKey(verifierUri)]: the compiled-in key for a known
    verifier name; otherwise the body as text, then as bytes, and at
    last an [Error] object as the result. *)
Definition getVerifyingKey (verifierUri : string) : M W (MaybeError VerifyingKey) :=
  match find (fun f => String.eqb verifierUri (verifier (CREDITS_PROGRAM_KEYS f)))
             verifier_cases with
  | Some f => ret (Val (verifyingKey f))
  | None =>
      try_ (do response <- get verifierUri;
            match VerifyingKey_fromString (String.string_of_list_byte response) with
            | Some k => ret (Val k)
            | None => throw (Error "invalid verifying key string")
            end)
           (fun _ =>
              try_ (do b <- fetchBytes verifierUri;
                    do k <- verifyingKey_of b;
                    ret (Val k))
                   (fun inner =>
                      ret (ErrVal (Error ("Invalid verifying key. Error: "
                                          ++ exn_to_string inner)))))
  end.

(** [verifyingKey.toBytes()]: an [Error] object has no such method. *)
Definition toBytes_of (vk : MaybeError VerifyingKey) : M W bytes :=
  match vk with
  | Val k => ret (VerifyingKey_toBytes k)
  | ErrVal _ => throw (TypeError "verifyingKey.toBytes is not a function")
  end.

(** [fetchKeys(proverUrl, verifierUrl, cacheKey)].  The provider object
    is returned with the result; it changes only on the last step of the
    cache-miss path, so a thrown exception leaves it as it was. *)
Definition fetchKeys (this : AleoKeyProvider) (proverUrl verifierUrl : string)
           (cacheKey : option string)
  : M W ((ProvingKey * MaybeError VerifyingKey) * AleoKeyProvider) :=
  try_
    (if cacheOption this then
       let cacheKey := if truthy cacheKey then default "" cacheKey else proverUrl in
       match cache this !! cacheKey with
       | Some value =>
           do pk <- provingKey_of value.1;
           do vk <- verifyingKey_of value.2;
           ret ((pk, Val vk), this)
       | None =>
           do_ emit (EvLog ("Fetching proving keys from url " ++ proverUrl));
           do b <- fetchBytes proverUrl;
           do provingKey <- provingKey_of b;
           do_ emit (EvLog ("Fetching verifying keys " ++ verifierUrl));
           do verifyingKey <- getVerifyingKey verifierUrl;
           do vb <- toBytes_of verifyingKey;
           ret ((provingKey, verifyingKey),
                mkProvider (<[cacheKey := (ProvingKey_toBytes provingKey, vb)]>
                              (cache this))
                           (cacheOption this))
       end
     else
       do b <- fetchBytes proverUrl;
       do provingKey <- provingKey_of b;
       do verifyingKey <- getVerifyingKey verifierUrl;
       ret ((provingKey, verifyingKey), this))
    (fun error =>
       throw (Error ("Error: " ++ exn_to_string error
                     ++ " fetching fee proving and verifying keys from "
                     ++ proverUrl ++ " and " ++ verifierUrl ++ "."))).

Definition invalid_parameters : exn :=
  Error "Invalid parameters provided, must provide either a cacheKey and/or a proverUrl and a verifierUrl".

(** [functionKeys(params)] *)
Definition functionKeys (this : AleoKeyProvider) (params : option (gmap string JsVal))
  : M W (MaybeError (ProvingKey * MaybeError VerifyingKey) * AleoKeyProvider) :=
  let invalid := throw invalid_parameters in
  match params with
  | Some params =>
      let proverUrl := string_field params "proverUri" in
      let verifierUrl := string_field params "verifierUri" in
      let cacheKey := string_field params "cacheKey" in
      if truthy proverUrl && truthy verifierUrl then
        do r <- fetchKeys this (default "" proverUrl) (default "" verifierUrl) cacheKey;
        ret (Val r.1, r.2)
      else if truthy cacheKey then
        do r <- getKeys this (default "" cacheKey);
        ret (r, this)
      else invalid
  | None => invalid
  end.

(** [transferKeys(visibility)] *)
Definition transferKeys (this : AleoKeyProvider) (visibility : string)
  : M W ((ProvingKey * MaybeError VerifyingKey) * AleoKeyProvider) :=
  let keys f :=
    fetchKeys this (prover (CREDITS_PROGRAM_KEYS f)) (verifier (CREDITS_PROGRAM_KEYS f))
              (Some (locator (CREDITS_PROGRAM_KEYS f))) in
  if has PRIVATE_TRANSFER visibility then keys transfer_private
  else if has PRIVATE_TO_PUBLIC_TRANSFER visibility then keys transfer_private_to_public
  else if has PUBLIC_TRANSFER visibility then keys transfer_public
  else if has PUBLIC_TO_PRIVATE_TRANSFER visibility then keys transfer_public_to_private
  else throw (Error "Invalid visibility type").

End Provider.
End KeyProvider.

(** [logAndThrow(message)]: [console.error(message); throw message;] *)
Definition logAndThrow {W A} (message : string) : M W A :=
  do_ emit (EvLog message);
  throw (ThrownString message).

(* ===================================================================== *)
(** * NetworkRecordProvider: default height ranges over the record scan *)
(* ===================================================================== *)

Module RecordProvider.

(** The [searchParameters] object as [findCreditsRecords] reads it.
    [sp_startHeight] is [Some n] when the object has a ["startHeight"]
    property ([BlockHeightSearch] stores a number there); [sp_endHeight]
    is the value under ["endHeight"], [VUndefined] when there is none. *)
Record RecordSearchParams := mkSearch {
  sp_startHeight : option Z;
  sp_endHeight : JsVal
}.

(** [new BlockHeightSearch(startHeight, endHeight)] *)
Definition BlockHeightSearch (startHeight endHeight : Z) : RecordSearchParams :=
  mkSearch (Some startHeight) (VNumber endHeight).

Section Provider.
Context {W : Type}.
Variable gateway : Request -> W -> option Json * W.
Context {PrivateKey ViewKey RecordCiphertext : Type}.
Variable PrivateKey_from_string : string -> option PrivateKey.
Variable to_view_key : PrivateKey -> ViewKey.
Variable RecordCiphertext_fromString : string -> option RecordCiphertext.
Variable isOwner : RecordCiphertext -> ViewKey -> bool.
Variable decrypt : RecordCiphertext -> ViewKey -> option RecordPlaintext.
Variable serialNumberString :
  RecordPlaintext -> PrivateKey -> string -> string -> option string.

(** [this.account.privateKey()] and the account set on
    [this.networkClient], if any. *)
Variable account_privateKey : PrivateKey.
Variable client_account : option PrivateKey.

Definition is_number (v : JsVal) : bool :=
  match v with VNumber _ => true | _ => false end.

(** [findCreditsRecords(microcredits, unspent, nonces, searchParameters)].
    A latest-height body that is not a number compares as [NaN] and is
    handed on as a non-number [endHeight]. *)
Definition findCreditsRecords (microcredits : list Z) (unspent : bool)
           (nonces : list string) (searchParameters : option RecordSearchParams)
  : M W (list RecordPlaintext) :=
  let startHeight := 0 in
  let endHeight := 0 in
  let startHeight :=
    match searchParameters with
    | Some sp =>
        match sp_startHeight sp with
        | Some s => if is_number (sp_endHeight sp) then s else startHeight
        | None => startHeight
        end
    | None => startHeight
    end in
  let endHeight :=
    match searchParameters with
    | Some sp =>
        match sp_endHeight sp with
        | VNumber e => e
        | _ => endHeight
        end
    | None => endHeight
    end in
  do endHeight <-
    (if endHeight =? 0 then
       do end_ <- NetworkClient.getLatestHeight gateway;
       ret (match end_ with JNumber n => Some n | _ => None end)
     else ret (Some endHeight));
  if match endHeight with Some e => startHeight >=? e | None => false end then
    logAndThrow "Start height must be less than end height"
  else
    NetworkClient.findUnspentRecords gateway PrivateKey_from_string to_view_key
      RecordCiphertext_fromString isOwner decrypt serialNumberString
      client_account startHeight endHeight
      (NetworkClient.PKObject account_privateKey)
      (Some microcredits) None (Some nonces).

(** [findCreditsRecord(microcredits, unspent, nonces, searchParameters)] *)
Definition findCreditsRecord (microcredits : Z) (unspent : bool)
           (nonces : list string) (searchParameters : option RecordSearchParams)
  : M W (MaybeError RecordPlaintext) :=
  do records <- findCreditsRecords [microcredits] unspent nonces searchParameters;
  match records with
  | r :: _ => ret (Val r)
  | [] =>
      do_ emit (EvLog "Record not found with error:");
      ret (ErrVal (Error "Record not found"))
  end.

End Provider.
End RecordProvider.

(* ===================================================================== *)
(** * ProgramManager: the transaction-build orchestrator *)
(* ===================================================================== *)

Module ProgramManager.
Import RecordProvider.

Definition PRIVATE_TRANSFER_TYPES : gset string :=
  {[ "transfer_private"; "private"; "transferPrivate";
     "transfer_private_to_public"; "privateToPublic"; "transferPrivateToPublic" ]}.

Definition VALID_TRANSFER_TYPES : gset string :=
  {[ "transfer_private"; "private"; "transferPrivate";
     "transfer_private_to_public"; "privateToPublic"; "transferPrivateToPublic";
     "transfer_public"; "public"; "transferPublic";
     "transfer_public_to_private"; "publicToPrivate"; "transferPublicToPrivate" ]}.

(** [requiresAmountRecord(transferType)] *)
Definition requiresAmountRecord (transferType : string) : bool :=
  KeyProvider.has PRIVATE_TRANSFER_TYPES transferType.

(** [validateTransferType(transferType)] *)
Definition validateTransferType {W} (transferType : string) : M W string :=
  if KeyProvider.has VALID_TRANSFER_TYPES transferType then ret transferType
  else logAndThrow ("Invalid transfer type '" ++ transferType
    ++ "'. Valid transfer types are 'private', 'privateToPublic', 'public', and 'publicToPrivate'.").

(** An optional record argument: absent, a [RecordPlaintext] object or
    its text. *)
Inductive RecordArg :=
| RecUndefined
| RecObject (r : RecordPlaintext)
| RecString (s : string).

(** The [FunctionKeyProvider] interface, as far as the orchestrator calls
    it.  A method answers with a pair, with an [Error] object, or throws. *)
Class FunctionKeyProvider (W ProvingKey VerifyingKey : Type) := {
  kp_feePrivateKeys : W -> Res (MaybeError (ProvingKey * VerifyingKey)) * W;
  kp_feePublicKeys : W -> Res (MaybeError (ProvingKey * VerifyingKey)) * W;
  kp_functionKeys : option (gmap string JsVal) ->
                    W -> Res (MaybeError (ProvingKey * VerifyingKey)) * W;
  kp_transferKeys : string -> W -> Res (MaybeError (ProvingKey * VerifyingKey)) * W
}.

(** The [RecordProvider] interface. *)
Class RecordProvider (W : Type) := {
  rp_findCreditsRecord : Z -> bool -> list string -> option RecordSearchParams ->
                         W -> Res (MaybeError RecordPlaintext) * W
}.

Section Manager.
Context {W ProvingKey VerifyingKey PrivateKey Imports OfflineQuery Tx Response : Type}.
Context {keyProvider : FunctionKeyProvider W ProvingKey VerifyingKey}.

(** [this.recordProvider] (possibly unset), [this.account] and
    [this.host]. *)
Variable recordProvider : option (RecordProvider W).
Variable account : option PrivateKey.
Variable host : string.

(** [this.networkClient] *)
Variable getProgram : string -> W -> Res string * W.
Variable getProgramImports : string -> W -> Res Imports * W.

(** The engine: [RecordPlaintext.fromString],
    [Program.fromString(p).getImports().length] ([None]: thrown) and the
    transaction builders of the wasm [ProgramManager]. *)
Variable RecordPlaintext_fromString : string -> option RecordPlaintext.
Variable Program_imports_length : string -> option nat.

Record ExecuteArgs := mkExecuteArgs {
  ea_privateKey : PrivateKey;
  ea_program : string;
  ea_functionName : string;
  ea_inputs : list string;
  ea_fee : Z;
  ea_feeRecord : option (MaybeError RecordPlaintext);
  ea_host : string;
  ea_imports : option Imports;
  ea_provingKey : option ProvingKey;
  ea_verifyingKey : option VerifyingKey;
  ea_feeProvingKey : ProvingKey;
  ea_feeVerifyingKey : VerifyingKey;
  ea_offlineQuery : option OfflineQuery
}.

Record RunArgs := mkRunArgs {
  ra_privateKey : PrivateKey;
  ra_program : string;
  ra_function_name : string;
  ra_inputs : list string;
  ra_proveExecution : bool;
  ra_cache : bool;
  ra_imports : option Imports;
  ra_provingKey : option ProvingKey;
  ra_verifyingKey : option VerifyingKey;
  ra_host : string;
  ra_offlineQuery : option OfflineQuery
}.

Record TransferArgs := mkTransferArgs {
  ta_privateKey : PrivateKey;
  ta_amount : Z;
  ta_recipient : string;
  ta_transferType : string;
  ta_amountRecord : option (MaybeError RecordPlaintext);
  ta_fee : Z;
  ta_feeRecord : option (MaybeError RecordPlaintext);
  ta_host : string;
  ta_transferProvingKey : ProvingKey;
  ta_transferVerifyingKey : VerifyingKey;
  ta_feeProvingKey : ProvingKey;
  ta_feeVerifyingKey : VerifyingKey;
  ta_offlineQuery : option OfflineQuery
}.

Variable engine_buildExecutionTransaction : ExecuteArgs -> W -> Res Tx * W.
Variable engine_executeFunctionOffline : RunArgs -> W -> Res Response * W.
Variable engine_buildTransferTransaction : TransferArgs -> W -> Res Tx * W.

Record ExecuteOptions := mkExecuteOptions {
  programName : string;
  functionName : string;
  fee : Z;
  privateFee : bool;
  inputs : list string;
  recordSearchParams : option RecordSearchParams;
  keySearchParams : option (gmap string JsVal);
  privateKey : option PrivateKey;
  offlineQuery : option OfflineQuery;
  feeRecord : RecordArg;
  provingKey : option ProvingKey;
  verifyingKey : option VerifyingKey;
  program : option string;
  imports : option Imports
}.

Definition no_private_key : exn :=
  ThrownString "No private key provided and no private key set in the ProgramManager".

(** [let k = privateKey; if (typeof privateKey === "undefined" &&
    typeof this.account !== "undefined") k = this.account.privateKey();
    if (typeof k === "undefined") throw (...)] *)
Definition resolve_private_key (privateKey : option PrivateKey) : M W PrivateKey :=
  match privateKey with
  | Some k => ret k
  | None =>
      match account with
      | Some k => ret k
      | None => throw no_private_key
      end
  end.

Definition fee_record_message (e : exn) : string :=
  "Error finding fee record. Record finder response: '" ++ exn_to_string e
  ++ "'. Please ensure you're connected to a valid Aleo network and a record with enough balance exists.".

Definition fee_keys_message (e : exn) : string :=
  "Error finding fee keys. Key finder response: '" ++ exn_to_string e
  ++ "'. Please ensure your key provider is configured correctly.".

Definition keys_not_found_message (e : exn) : string :=
  "Function keys not found. Key finder response: '" ++ exn_to_string e
  ++ "'. The function keys will be synthesized".

(** [getCreditsRecord(amount, nonces, record, params)]: the explicit
    record when it is one (or parses as one), else the provider's. *)
Definition getCreditsRecord (amount : Z) (nonces : list string) (record : RecordArg)
           (params : option RecordSearchParams) : M W (MaybeError RecordPlaintext) :=
  try_
    (match record with
     | RecObject r => ret (Val r)
     | RecString s =>
         match RecordPlaintext_fromString s with
         | Some r => ret (Val r)
         | None => throw (Error "invalid record string")
         end
     | RecUndefined => throw (Error "invalid record string")
     end)
    (fun _ =>
       try_
         (match recordProvider with
          | Some rp =>
              call (rp_findCreditsRecord amount true nonces params)
                   (fun _ => EvFindCreditsRecord amount nonces)
          | None =>
              throw (TypeError "Cannot read properties of undefined (reading 'findCreditsRecord')")
          end)
         (fun e => logAndThrow (fee_record_message e))).

(** [const [a, b] = keys;] destructures an array; an [Error] object is
    not iterable. *)
Definition destructure {A} (keys : MaybeError A) : M W A :=
  match keys with
  | Val p => ret p
  | ErrVal _ => throw (TypeError "keys is not iterable")
  end.

Definition feeKeys_of (privateFee : bool)
  : M W (MaybeError (ProvingKey * VerifyingKey)) :=
  if privateFee
  then call kp_feePrivateKeys (fun _ => EvFeeKeys true)
  else call kp_feePublicKeys (fun _ => EvFeeKeys false).

(** The block that [buildExecutionTransaction] (l. 2090-2098) and [run]
    (l. 2185-2193) share word for word:
    [if (!provingKey || !verifyingKey) {
       try { [provingKey, verifyingKey] =
               await this.keyProvider.functionKeys(keySearchParams); }
       catch (e) { console.log(`Function keys not found. ...`); } }]
    It yields the two variables as they stand afterwards. *)
Definition resolve_function_keys (provingKey : option ProvingKey)
           (verifyingKey : option VerifyingKey)
           (keySearchParams : option (gmap string JsVal))
  : M W (option ProvingKey * option VerifyingKey) :=
  if negb (bool_decide (is_Some provingKey)) || negb (bool_decide (is_Some verifyingKey))
  then
    try_ (do r <- call (kp_functionKeys keySearchParams) (fun _ => EvFunctionKeys);
          do p <- destructure r;
          ret (Some p.1, Some p.2))
         (fun e =>
            do_ emit (EvLog (keys_not_found_message e));
            ret (provingKey, verifyingKey))
  else ret (provingKey, verifyingKey).

(** [buildExecutionTransaction(options)] *)
Definition buildExecutionTransaction (options : ExecuteOptions) : M W Tx :=
  let feeRecord := feeRecord options in
  let provingKey := provingKey options in
  let verifyingKey := verifyingKey options in
  let imports := imports options in
  do program <-
    match program options with
    | None =>
        try_ (call (getProgram (programName options))
                   (fun _ => EvGetProgram (programName options)))
             (fun e => logAndThrow
                ("Error finding " ++ programName options ++ ". Network response: '"
                 ++ exn_to_string e
                 ++ "'. Please ensure you're connected to a valid Aleo network the program is deployed to the network."))
    | Some p => ret p
    end;
  do executionPrivateKey <- resolve_private_key (privateKey options);
  do feeRecord <-
    try_ (if privateFee options
          then do r <- getCreditsRecord (fee options) [] feeRecord
                                        (recordSearchParams options);
               ret (Some r)
          else ret None)
         (fun e => logAndThrow (fee_record_message e));
  do feeKeys <-
    try_ (feeKeys_of (privateFee options))
         (fun e => logAndThrow (fee_keys_message e));
  do feeKeys <- destructure feeKeys;
  let '(feeProvingKey, feeVerifyingKey) := feeKeys in
  do keys <- resolve_function_keys provingKey verifyingKey (keySearchParams options);
  let '(provingKey, verifyingKey) := keys in
  do numberOfImports <-
    match Program_imports_length program with
    | Some n => ret n
    | None => throw (Error "invalid program")
    end;
  do imports <-
    (if (0 <? numberOfImports)%nat && negb (bool_decide (is_Some imports)) then
       try_ (do i <- call (getProgramImports (programName options))
                          (fun _ => EvGetProgramImports (programName options));
             ret (Some i))
            (fun e => logAndThrow
               ("Error finding program imports. Network response: '"
                ++ exn_to_string e
                ++ "'. Please ensure you're connected to a valid Aleo network and the program is deployed to the network."))
     else ret imports);
  call (engine_buildExecutionTransaction
          (mkExecuteArgs executionPrivateKey program (functionName options)
             (inputs options) (fee options) feeRecord host imports
             provingKey verifyingKey feeProvingKey feeVerifyingKey
             (offlineQuery options)))
       (fun _ => EvEngine (EngineExecute (bool_decide (is_Some provingKey))
                                         (bool_decide (is_Some verifyingKey)))).

(** [run(program, function_name, inputs, proveExecution, imports,
    keySearchParams, provingKey, verifyingKey, privateKey, offlineQuery)] *)
Definition run (program function_name : string) (inputs : list string)
           (proveExecution : bool) (imports : option Imports)
           (keySearchParams : option (gmap string JsVal))
           (provingKey : option ProvingKey) (verifyingKey : option VerifyingKey)
           (privateKey : option PrivateKey) (offlineQuery : option OfflineQuery)
  : M W Response :=
  do executionPrivateKey <- resolve_private_key privateKey;
  do keys <- resolve_function_keys provingKey verifyingKey keySearchParams;
  let '(provingKey, verifyingKey) := keys in
  do_ emit (EvLog "Running program offline");
  do_ emit (EvLog "Proving key: ");
  do_ emit (EvLog "Verifying key: ");
  call (engine_executeFunctionOffline
          (mkRunArgs executionPrivateKey program function_name inputs
             proveExecution false imports provingKey verifyingKey host offlineQuery))
       (fun _ => EvEngine (EngineRun (bool_decide (is_Some provingKey))
                                     (bool_decide (is_Some verifyingKey)))).

(** [buildTransferTransaction(amount, recipient, transferType, fee,
    privateFee, recordSearchParams, amountRecord, feeRecord, privateKey,
    offlineQuery)] *)
Definition buildTransferTransaction (amount : Z) (recipient transferType : string)
           (fee : Z) (privateFee : bool)
           (recordSearchParams : option RecordSearchParams)
           (amountRecord feeRecord : RecordArg)
           (privateKey : option PrivateKey) (offlineQuery : option OfflineQuery)
  : M W Tx :=
  do transferType <- validateTransferType transferType;
  do executionPrivateKey <- resolve_private_key privateKey;
  do keys <-
    try_ (do feeKeys <- feeKeys_of privateFee;
          do transferKeys <- call (kp_transferKeys transferType)
                                  (fun _ => EvTransferKeys transferType);
          ret (feeKeys, transferKeys))
         (fun e => logAndThrow (fee_keys_message e));
  do feeKeys <- destructure keys.1;
  do transferKeys <- destructure keys.2;
  let '(feeProvingKey, feeVerifyingKey) := feeKeys in
  let '(transferProvingKey, transferVerifyingKey) := transferKeys in
  do found <-
    try_ (do a <-
            (if requiresAmountRecord transferType then
               do amountRecord <- getCreditsRecord fee [] amountRecord
                                                   recordSearchParams;
               match amountRecord with
               | Val r => ret (Some amountRecord, [nonce r])
               | ErrVal _ => throw (TypeError "amountRecord.nonce is not a function")
               end
             else ret (None, []));
          let '(amountRecord, nonces) := a in
          do feeRecord <-
            (if privateFee
             then do r <- getCreditsRecord fee nonces feeRecord recordSearchParams;
                  ret (Some r)
             else ret None);
          ret (amountRecord, feeRecord))
         (fun e => logAndThrow (fee_record_message e));
  let '(amountRecord, feeRecord) := found in
  call (engine_buildTransferTransaction
          (mkTransferArgs executionPrivateKey amount recipient transferType
             amountRecord fee feeRecord host transferProvingKey
             transferVerifyingKey feeProvingKey feeVerifyingKey offlineQuery))
       (fun _ => EvEngine (EngineTransfer transferType amountRecord feeRecord)).

End Manager.
End ProgramManager.

(* ===================================================================== *)
(** * Vocabulary of the statements about the record scan *)
(* ===================================================================== *)

Module ScanSpec.
Import NetworkClient.

Definition sum_microcredits (recs : list RecordPlaintext) : Z :=
  foldr (fun r acc => microcredits r + acc) 0 recs.

(** The key the scan works with: the argument, else the client's account. *)
Definition resolved_key {PrivateKey} (PrivateKey_from_string : string -> option PrivateKey)
           (account : option PrivateKey) (privateKey : PrivateKeyArg PrivateKey)
  : option PrivateKey :=
  match privateKey with
  | PKUndefined => account
  | PKObject k => Some k
  | PKString s => PrivateKey_from_string s
  end.

(** Every non-empty prefix of [recs] of length at most [n] sums to less
    than the budget [m]. *)
Definition below_budget (m : Z) (n : nat) (recs : list RecordPlaintext) : Prop :=
  forall k, (0 < k <= n)%nat -> sum_microcredits (take k recs) < m.

Section Spec.
Context {W PrivateKey : Type}.
Variable gateway : Request -> W -> option Json * W.
Variable serialNumberString :
  RecordPlaintext -> PrivateKey -> string -> string -> option string.
Variable resolvedPrivateKey : PrivateKey.
Variable maxMicrocredits : option Z.
Variable nonces : list string.
(** The trace when the call began. *)
Variable t0 : list Event.

(** Among the events [evs], a spent-oracle lookup of the serial number
    of [r] came back "not found": the node, in the state [w] it was in,
    had no transition id for it. *)
Definition lookup_failed (evs : list Event) (r : RecordPlaintext) : Prop :=
  exists sn,
    serialNumberString r resolvedPrivateKey "credits.aleo" "credits" = Some sn
    /\ EvFetch (ReqTransitionId sn) false ∈ evs
    /\ exists w, (gateway (ReqTransitionId sn) w).1 = None.

Definition accepted_ok (recs : list RecordPlaintext) (s : St W) : Prop :=
  (forall r, r ∈ recs -> nonce r ∉ nonces)
  /\ exists evs, trace s = (t0 ++ evs)%list /\ forall r, r ∈ recs -> lookup_failed evs r.

(** What holds of the scan variables between two steps of the scan. *)
Definition scan_inv (st : ScanState) (s : St W) : Prop :=
  accepted_ok (records st) s
  /\ forall m, maxMicrocredits = Some m ->
       totalRecordValue st = sum_microcredits (records st)
       /\ below_budget m (length (records st)) (records st).

(** What holds of a returned list. *)
Definition scan_post (recs : list RecordPlaintext) (s : St W) : Prop :=
  accepted_ok recs s
  /\ forall m, maxMicrocredits = Some m -> below_budget m (length recs - 1) recs.

(** Outcome of a loop body that keeps [I], returns under [Q] and does
    not throw. *)
Definition holds {S R} (I : S -> St W -> Prop) (Q : R -> St W -> Prop)
           (res : Res (Ctl S R) * St W) : Prop :=
  match res with
  | (Ok (Next s), s') => I s s'
  | (Ok (Return r), s') => Q r s'
  | (Throw _, _) => False
  end.
End Spec.

End ScanSpec.

(* ===================================================================== *)
(** * A small ledger to run the definitions on *)
(* ===================================================================== *)

Module Fixture.
Import NetworkClient.

(** A node over a fixed chain: [spent] lists the serial numbers that have
    a transition id; the next [failing] block-range requests fail. *)
Record TestWorld := mkWorld {
  chain : list Block;
  spent : list string;
  failing : nat
}.

Definition test_gateway (req : Request) (w : TestWorld) : option Json * TestWorld :=
  match req with
  | ReqLatestHeight => (Some (JNumber (Z.of_nat (length (chain w)))), w)
  | ReqBlockRange s e =>
      match failing w with
      | S n => (None, mkWorld (chain w) (spent w) n)
      | O => (Some (JBlocks (take (Z.to_nat (e - s)) (drop (Z.to_nat s) (chain w)))), w)
      end
  | ReqTransitionId sn =>
      (if bool_decide (sn ∈ spent w) then Some (JString "at1transition") else None, w)
  end.

Definition rec90 := mkRecordPlaintext "alice" 90 "n90".
Definition rec150 := mkRecordPlaintext "alice" 150 "n150".
Definition rec200 := mkRecordPlaintext "alice" 200 "n200".
Definition rec500 := mkRecordPlaintext "bob" 500 "n500".

(** Toy engine: a ciphertext is looked up by its text, keys are names. *)
Definition ciphertexts : list (string * RecordPlaintext) :=
  [("ct90", rec90); ("ct150", rec150); ("ct200", rec200); ("ct500", rec500)].

Definition test_fromString (v : string) : option RecordPlaintext :=
  snd <$> find (fun p => String.eqb v p.1) ciphertexts.
Definition test_key_from_string (s : string) : option string :=
  if String.eqb s "" then None else Some s.
Definition test_to_view_key (k : string) : string := k.
Definition test_isOwner (r : RecordPlaintext) (vk : string) : bool :=
  String.eqb (owner r) vk.
Definition test_decrypt (r : RecordPlaintext) (vk : string) : option RecordPlaintext :=
  Some r.
Definition test_serial (r : RecordPlaintext) (k program name : string) : option string :=
  Some ("sn_" ++ nonce r).

Definition record_output (ct : string) : Output := mkOutput "record" ct.
Definition credits_tx (outs : list Output) : ConfirmedTransaction :=
  mkConfirmedTransaction "execute"
    (mkTransaction (Some (mkExecution (Some [mkTransition "credits.aleo" (Some outs)])))).

(** Heights 0..2; alice's 90 record is spent. *)
Definition test_chain : list Block :=
  [ mkBlock None;
    mkBlock (Some [credits_tx [record_output "ct90"; record_output "ct150";
                               record_output "ct500"]]);
    mkBlock (Some [credits_tx [mkOutput "public" "1u64"; record_output "ct200"]]) ].

Definition test_world (failures : nat) : St TestWorld :=
  mkSt (mkWorld test_chain ["sn_n90"] failures) [].

Definition test_find (startHeight : Z) (endHeight : option Z)
           (amounts : option (list Z)) (maxMicrocredits : option Z)
           (nonces : option (list string))
  : M TestWorld (list RecordPlaintext) :=
  findUnspentRecords test_gateway test_key_from_string test_to_view_key
    test_fromString test_isOwner test_decrypt test_serial
    None startHeight endHeight (PKString "alice") amounts maxMicrocredits nonces.

(** A [NetworkRecordProvider] for alice over the test ledger. *)
Definition test_findCreditsRecords (microcredits : list Z) (nonces : list string)
           (searchParameters : option RecordProvider.RecordSearchParams)
  : M TestWorld (list RecordPlaintext) :=
  RecordProvider.findCreditsRecords test_gateway test_key_from_string test_to_view_key
    test_fromString test_isOwner test_decrypt test_serial
    "alice" None microcredits true nonces searchParameters.
End Fixture.

(* ===================================================================== *)
(** * Vocabulary of the statements about the orchestrator *)
(* ===================================================================== *)

Module ManagerSpec.
Import ProgramManager.

(** Number of record-provider lookups among the events. *)
Fixpoint lookups (evs : list Event) : nat :=
  match evs with
  | [] => 0%nat
  | EvFindCreditsRecord _ _ :: evs' => S (lookups evs')
  | _ :: evs' => lookups evs'
  end.


(** The explicit record argument is absent or does not parse. *)
Definition no_explicit_record (RecordPlaintext_fromString : string -> option RecordPlaintext)
           (record : RecordArg) : Prop :=
  match record with
  | RecObject _ => False
  | RecString s => RecordPlaintext_fromString s = None
  | RecUndefined => True
  end.

(** The signing key: the argument, else the manager's account. *)
Definition resolved_private_key {PrivateKey} (account privateKey : option PrivateKey)
  : option PrivateKey :=
  match privateKey with
  | Some k => Some k
  | None => account
  end.

(** An event that shows no lookup for the amount side: a record lookup is
    the fee-side one (target [fee], nothing excluded), and the engine is
    handed no amount record. *)
Definition amount_side_quiet (fee : Z) (ev : Event) : Prop :=
  match ev with
  | EvFindCreditsRecord microcredits nonces => microcredits = fee /\ nonces = []
  | EvEngine (EngineTransfer _ amountRecord _) => amountRecord = None
  | _ => True
  end.

(** The amount record the engine was handed, for each engine call among
    the events. *)
Definition engine_amount_records (evs : list Event)
  : list (option (MaybeError RecordPlaintext)) :=
  omap (fun ev => match ev with
                  | EvEngine (EngineTransfer _ amountRecord _) => Some amountRecord
                  | _ => None
                  end) evs.
End ManagerSpec.

(* ===================================================================== *)
(** * A key server and providers to run the definitions on *)
(* ===================================================================== *)

Module KeyFixture.
Import KeyProvider.

(** The key server: the bodies it serves, by URL. *)
Definition KeyServer := list (string * bytes).

Definition key_http_get (url : string) (w : KeyServer) : option bytes * KeyServer :=
  (snd <$> find (fun p => String.eqb url p.1) w, w).

(** Toy keys: a key is its non-empty byte string. *)
Definition key_fromBytes (b : bytes) : option bytes :=
  match b with
  | [] => None
  | _ => Some b
  end.
Definition key_toBytes (k : bytes) : bytes := k.
Definition key_fromString (s : string) : option bytes :=
  key_fromBytes (String.list_byte_of_string s).
Definition builtin_verifier (f : CreditsFunction) : bytes :=
  String.list_byte_of_string (verifier (CREDITS_PROGRAM_KEYS f)).

Definition hello_prover : bytes := String.list_byte_of_string "hello-prover".
Definition hello_verifier : bytes := String.list_byte_of_string "hello-verifier".
Definition join_prover : bytes := String.list_byte_of_string "join-prover".

Definition test_server : St KeyServer :=
  mkSt [ ("https://keys.example/hello.prover", hello_prover);
         ("https://keys.example/hello.verifier", hello_verifier) ] [].

Definition search_params (fields : list (string * JsVal)) : option (gmap string JsVal) :=
  Some (list_to_map fields).

Definition test_cacheKeys :=
  cacheKeys (ProvingKey:=bytes) (VerifyingKey:=bytes) key_toBytes key_toBytes.

Definition test_functionKeys :=
  functionKeys key_http_get key_fromBytes key_toBytes key_fromBytes key_fromString
               key_toBytes builtin_verifier.

Definition test_transferKeys :=
  transferKeys key_http_get key_fromBytes key_toBytes key_fromBytes key_fromString
               key_toBytes builtin_verifier.

Definition test_fetchKeys :=
  fetchKeys key_http_get key_fromBytes key_toBytes key_fromBytes key_fromString
            key_toBytes builtin_verifier.

(** A provider with caching on and the join keys cached. *)
Definition provider_with_join : AleoKeyProvider :=
  test_cacheKeys (useCache new_AleoKeyProvider true) "credits.aleo/join"
                 (join_prover, builtin_verifier join).
End KeyFixture.

Module ManagerFixture.
Import ProgramManager.

(** Toy keys are names. *)
Definition test_keys (name : string) : MaybeError (string * string) :=
  Val (name ++ ".prover", name ++ ".verifier").

(** A key provider whose [functionKeys] throws.  The world of these
    collaborators is the number of calls made to them so far. *)
Definition throwing_keyProvider : FunctionKeyProvider nat string string :=
  {| kp_feePrivateKeys w := (Ok (test_keys "fee_private"), S w);
     kp_feePublicKeys w := (Ok (test_keys "fee_public"), S w);
     kp_functionKeys _ w := (Throw (Error "Invalid parameters provided"), S w);
     kp_transferKeys t w := (Ok (test_keys t), S w) |}.

(** A key provider whose [functionKeys] hands back an [Error] object, as
    [AleoKeyProvider.getKeys] does for an id that is not cached. *)
Definition missing_keyProvider : FunctionKeyProvider nat string string :=
  {| kp_feePrivateKeys w := (Ok (test_keys "fee_private"), S w);
     kp_feePublicKeys w := (Ok (test_keys "fee_public"), S w);
     kp_functionKeys _ w := (Ok (ErrVal (Error "Key not found in cache.")), S w);
     kp_transferKeys t w := (Ok (test_keys t), S w) |}.

(** A record provider over alice's two unspent records: the first whose
    nonce is not excluded. *)
Definition test_recordProvider : RecordProvider nat :=
  {| rp_findCreditsRecord amount unspent nonces params w :=
       (Ok match find (fun r => negb (bool_decide (nonce r ∈ nonces)))
                      [Fixture.rec150; Fixture.rec200] with
           | Some r => Val r
           | None => ErrVal (Error "Record not found")
           end, S w) |}.

Definition test_getProgram (name : string) (w : nat) : Res string * nat :=
  (Ok "program hello_hello.aleo;", S w).
Definition test_getProgramImports (name : string) (w : nat) : Res (list string) * nat :=
  (Ok [], S w).
Definition test_imports_length (program : string) : option nat := Some 0%nat.

Definition test_engine_execute
           (args : ExecuteArgs (ProvingKey:=string) (VerifyingKey:=string)
                               (PrivateKey:=string) (Imports:=list string)
                               (OfflineQuery:=unit))
           (w : nat) : Res string * nat :=
  (Ok "execute-transaction", S w).
Definition test_engine_run
           (args : RunArgs (ProvingKey:=string) (VerifyingKey:=string)
                           (PrivateKey:=string) (Imports:=list string)
                           (OfflineQuery:=unit))
           (w : nat) : Res string * nat :=
  (Ok "execution-response", S w).
Definition test_engine_transfer
           (args : TransferArgs (ProvingKey:=string) (VerifyingKey:=string)
                                (PrivateKey:=string) (OfflineQuery:=unit))
           (w : nat) : Res string * nat :=
  (Ok "transfer-transaction", S w).

Definition start : St nat := mkSt 0%nat [].

Definition test_transfer (amount : Z) (transferType : string) (fee : Z)
           (privateFee : bool) (amountRecord feeRecord : RecordArg) : M nat string :=
  buildTransferTransaction (keyProvider:=throwing_keyProvider)
    (Some test_recordProvider) (Some "alice-key") "https://api.example"
    Fixture.test_fromString test_engine_transfer
    amount "aleo1recipient" transferType fee privateFee None amountRecord feeRecord
    None None.

Definition hello_options
  : ExecuteOptions (ProvingKey:=string) (VerifyingKey:=string) (PrivateKey:=string)
                   (Imports:=list string) (OfflineQuery:=unit) :=
  mkExecuteOptions "hello_hello.aleo" "hello" 20 false ["5u32"; "5u32"] None
    (KeyFixture.search_params [("cacheKey", VString "hello_hello:hello")])
    None None RecUndefined None None None None.

Definition test_execute (kp : FunctionKeyProvider nat string string)
  : M nat string :=
  buildExecutionTransaction (keyProvider:=kp)
    (Some test_recordProvider) (Some "alice-key") "https://api.example"
    test_getProgram test_getProgramImports Fixture.test_fromString
    test_imports_length test_engine_execute hello_options.

Definition test_run (kp : FunctionKeyProvider nat string string) : M nat string :=
  run (keyProvider:=kp) (Some "alice-key") "https://api.example" test_engine_run
      "program hello_hello.aleo;" "hello" ["5u32"; "5u32"] false None
      (KeyFixture.search_params [("cacheKey", VString "hello_hello:hello")])
      None None None None.
End ManagerFixture.

(* ===================================================================== *)
(** * AleoKeyProvider: cache maintenance and the credits key getters *)
(* ===================================================================== *)

Module CreditsKeys.
Import KeyProvider.

(** [deleteKeys(keyId)]: [Map.prototype.delete] answers whether the key
    was there. *)
Definition deleteKeys (this : AleoKeyProvider) (keyId : string)
  : bool * AleoKeyProvider :=
  (bool_decide (is_Some (cache this !! keyId)),
   mkProvider (delete keyId (cache this)) (cacheOption this)).

Section Provider.
Context {W : Type}.
Variable http_get : string -> W -> option bytes * W.
Context {ProvingKey VerifyingKey : Type}.
Variable ProvingKey_fromBytes : bytes -> option ProvingKey.
Variable ProvingKey_toBytes : ProvingKey -> bytes.
Variable VerifyingKey_fromBytes : bytes -> option VerifyingKey.
Variable VerifyingKey_fromString : string -> option VerifyingKey.
Variable VerifyingKey_toBytes : VerifyingKey -> bytes.
Variable verifyingKey : CreditsFunction -> VerifyingKey.

Abbreviation fetchKeys' :=
  (fetchKeys http_get ProvingKey_fromBytes ProvingKey_toBytes VerifyingKey_fromBytes
             VerifyingKey_fromString VerifyingKey_toBytes verifyingKey).

Definition bondPublicKeys (this : AleoKeyProvider) :=
  fetchKeys' this (prover (CREDITS_PROGRAM_KEYS bond_public))
             (verifier (CREDITS_PROGRAM_KEYS bond_public))
             (Some (locator (CREDITS_PROGRAM_KEYS bond_public))).

Definition claimUnbondPublicKeys (this : AleoKeyProvider) :=
  fetchKeys' this (prover (CREDITS_PROGRAM_KEYS claim_unbond_public))
             (verifier (CREDITS_PROGRAM_KEYS claim_unbond_public))
             (Some (locator (CREDITS_PROGRAM_KEYS claim_unbond_public))).

Definition joinKeys (this : AleoKeyProvider) :=
  fetchKeys' this (prover (CREDITS_PROGRAM_KEYS join))
             (verifier (CREDITS_PROGRAM_KEYS join))
             (Some (locator (CREDITS_PROGRAM_KEYS join))).

Definition splitKeys (this : AleoKeyProvider) :=
  fetchKeys' this (prover (CREDITS_PROGRAM_KEYS split))
             (verifier (CREDITS_PROGRAM_KEYS split))
             (Some (locator (CREDITS_PROGRAM_KEYS split))).

Definition feePrivateKeys (this : AleoKeyProvider) :=
  fetchKeys' this (prover (CREDITS_PROGRAM_KEYS fee_private))
             (verifier (CREDITS_PROGRAM_KEYS fee_private))
             (Some (locator (CREDITS_PROGRAM_KEYS fee_private))).

Definition feePublicKeys (this : AleoKeyProvider) :=
  fetchKeys' this (prover (CREDITS_PROGRAM_KEYS fee_public))
             (verifier (CREDITS_PROGRAM_KEYS fee_public))
             (Some (locator (CREDITS_PROGRAM_KEYS fee_public))).

Definition unBondPublicKeys (this : AleoKeyProvider) :=
  fetchKeys' this (prover (CREDITS_PROGRAM_KEYS unbond_public))
             (verifier (CREDITS_PROGRAM_KEYS unbond_public))
             (Some (locator (CREDITS_PROGRAM_KEYS unbond_public))).

End Provider.
End CreditsKeys.

Module CreditsKeysSpec.
Import KeyProvider CreditsKeys.

(** The URLs requested over HTTP among the events, in order. *)
Definition http_urls (evs : list Event) : list string :=
  omap (fun ev => match ev with EvHttpGet url _ => Some url | _ => None end) evs.

Section Provider.
Context {W ProvingKey VerifyingKey : Type}.
Variable http_get : string -> W -> option bytes * W.
Variable ProvingKey_fromBytes : bytes -> option ProvingKey.
Variable ProvingKey_toBytes : ProvingKey -> bytes.
Variable VerifyingKey_fromBytes : bytes -> option VerifyingKey.
Variable VerifyingKey_fromString : string -> option VerifyingKey.
Variable VerifyingKey_toBytes : VerifyingKey -> bytes.
Variable verifyingKey : CreditsFunction -> VerifyingKey.

(** The seven getters of the class that take no argument, each with its
    credits function. *)
Definition getters
  : list (CreditsFunction
          * (AleoKeyProvider
             -> M W ((ProvingKey * MaybeError VerifyingKey) * AleoKeyProvider))) :=
  [ (bond_public,
     bondPublicKeys http_get ProvingKey_fromBytes ProvingKey_toBytes
       VerifyingKey_fromBytes VerifyingKey_fromString VerifyingKey_toBytes verifyingKey);
    (claim_unbond_public,
     claimUnbondPublicKeys http_get ProvingKey_fromBytes ProvingKey_toBytes
       VerifyingKey_fromBytes VerifyingKey_fromString VerifyingKey_toBytes verifyingKey);
    (join,
     joinKeys http_get ProvingKey_fromBytes ProvingKey_toBytes
       VerifyingKey_fromBytes VerifyingKey_fromString VerifyingKey_toBytes verifyingKey);
    (split,
     splitKeys http_get ProvingKey_fromBytes ProvingKey_toBytes
       VerifyingKey_fromBytes VerifyingKey_fromString VerifyingKey_toBytes verifyingKey);
    (fee_private,
     feePrivateKeys http_get ProvingKey_fromBytes ProvingKey_toBytes
       VerifyingKey_fromBytes VerifyingKey_fromString VerifyingKey_toBytes verifyingKey);
    (fee_public,
     feePublicKeys http_get ProvingKey_fromBytes ProvingKey_toBytes
       VerifyingKey_fromBytes VerifyingKey_fromString VerifyingKey_toBytes verifyingKey);
    (unbond_public,
     unBondPublicKeys http_get ProvingKey_fromBytes ProvingKey_toBytes
       VerifyingKey_fromBytes VerifyingKey_fromString VerifyingKey_toBytes verifyingKey) ].

End Provider.
End CreditsKeysSpec.

Module CreditsKeysFixture.
Import KeyProvider CreditsKeys.

(** A key server with a fixed content; the world counts the requests. *)
Definition static_http_get (url : string) (w : nat) : option bytes * nat :=
  (if String.eqb url "https://keys.example/hello.prover"
   then Some KeyFixture.hello_prover
   else None, S w).

Definition static_fetchKeys :=
  fetchKeys static_http_get KeyFixture.key_fromBytes KeyFixture.key_toBytes
            KeyFixture.key_fromBytes KeyFixture.key_fromString
            KeyFixture.key_toBytes KeyFixture.builtin_verifier.

Definition test_joinKeys :=
  joinKeys KeyFixture.key_http_get KeyFixture.key_fromBytes KeyFixture.key_toBytes
           KeyFixture.key_fromBytes KeyFixture.key_fromString
           KeyFixture.key_toBytes KeyFixture.builtin_verifier.

(** The provider [fetchKeys] leaves behind once it has cached the hello
    keys under their prover URL. *)
Definition provider_with_hello : AleoKeyProvider :=
  KeyFixture.test_cacheKeys (useCache new_AleoKeyProvider true)
    "https://keys.example/hello.prover"
    (KeyFixture.hello_prover, KeyFixture.hello_verifier).
End CreditsKeysFixture.

(* ===================================================================== *)
(** * OfflineKeyProvider: keys inserted by hand, served without a network *)
(* ===================================================================== *)

Module OfflineKeys.
Import KeyProvider.

(** [new OfflineSearchParams(cacheKey, verifyCreditsKeys = false)] *)
Record OfflineSearchParams := mkOfflineSearchParams {
  os_cacheKey : string;
  os_verifyCreditsKeys : bool
}.

Definition new_OfflineSearchParams (cacheKey : string) (verifyCreditsKeys : option bool)
  : OfflineSearchParams :=
  mkOfflineSearchParams cacheKey (default false verifyCreditsKeys).

(** The static constructors, one for each entry of [CREDITS_PROGRAM_KEYS]. *)
Definition bondPublicKeyParams :=
  new_OfflineSearchParams (locator (CREDITS_PROGRAM_KEYS bond_public)) (Some true).
Definition claimUnbondPublicKeyParams :=
  new_OfflineSearchParams (locator (CREDITS_PROGRAM_KEYS claim_unbond_public)) (Some true).
Definition feePrivateKeyParams :=
  new_OfflineSearchParams (locator (CREDITS_PROGRAM_KEYS fee_private)) (Some true).
Definition feePublicKeyParams :=
  new_OfflineSearchParams (locator (CREDITS_PROGRAM_KEYS fee_public)) (Some true).
Definition inclusionKeyParams :=
  new_OfflineSearchParams (locator (CREDITS_PROGRAM_KEYS inclusion)) (Some true).
Definition joinKeyParams :=
  new_OfflineSearchParams (locator (CREDITS_PROGRAM_KEYS join)) (Some true).
Definition setValidatorStateKeyParams :=
  new_OfflineSearchParams (locator (CREDITS_PROGRAM_KEYS set_validator_state)) (Some true).
Definition splitKeyParams :=
  new_OfflineSearchParams (locator (CREDITS_PROGRAM_KEYS split)) (Some true).
Definition transferPrivateKeyParams :=
  new_OfflineSearchParams (locator (CREDITS_PROGRAM_KEYS transfer_private)) (Some true).
Definition transferPrivateToPublicKeyParams :=
  new_OfflineSearchParams (locator (CREDITS_PROGRAM_KEYS transfer_private_to_public))
                          (Some true).
Definition transferPublicKeyParams :=
  new_OfflineSearchParams (locator (CREDITS_PROGRAM_KEYS transfer_public)) (Some true).
Definition transferPublicToPrivateKeyParams :=
  new_OfflineSearchParams (locator (CREDITS_PROGRAM_KEYS transfer_public_to_private))
                          (Some true).
Definition unbondDelegatorAsValidatorKeyParams :=
  new_OfflineSearchParams (locator (CREDITS_PROGRAM_KEYS unbond_delegator_as_validator))
                          (Some true).
Definition unbondPublicKeyParams :=
  new_OfflineSearchParams (locator (CREDITS_PROGRAM_KEYS unbond_public)) (Some true).

(** The static constructor that belongs to a credits function. *)
Definition keyParams (f : CreditsFunction) : OfflineSearchParams :=
  match f with
  | bond_public => bondPublicKeyParams
  | claim_unbond_public => claimUnbondPublicKeyParams
  | fee_private => feePrivateKeyParams
  | fee_public => feePublicKeyParams
  | inclusion => inclusionKeyParams
  | join => joinKeyParams
  | set_validator_state => setValidatorStateKeyParams
  | split => splitKeyParams
  | transfer_private => transferPrivateKeyParams
  | transfer_private_to_public => transferPrivateToPublicKeyParams
  | transfer_public => transferPublicKeyParams
  | transfer_public_to_private => transferPublicToPrivateKeyParams
  | unbond_delegator_as_validator => unbondDelegatorAsValidatorKeyParams
  | unbond_public => unbondPublicKeyParams
  end.

(** A promise as its holder sees it once the executor has run: pending
    ([None]), fulfilled or rejected.  The first call of [resolve] or
    [reject] settles it; later calls do nothing. *)
Definition Promise (A : Type) : Type := option (Res A).

Definition resolve {A} (a : A) (p : Promise A) : Promise A :=
  match p with
  | None => Some (Ok a)
  | Some _ => p
  end.

Definition reject {A} (e : exn) (p : Promise A) : Promise A :=
  match p with
  | None => Some (Throw e)
  | Some _ => p
  end.

(** [new Promise(executor)]: the executor runs at once; an exception that
    escapes it rejects the promise if it is still pending. *)
Definition new_Promise {A} (executor : Promise A -> option exn * Promise A) : Promise A :=
  let '(thrown, p) := executor None in
  match thrown with
  | None => p
  | Some e => reject e p
  end.

(** The object's only field: [cache], a [Map] from key id to the two byte
    arrays. *)
Record OfflineKeyProvider := mkOfflineKeyProvider {
  cache : gmap string (bytes * bytes)
}.

Definition new_OfflineKeyProvider : OfflineKeyProvider := mkOfflineKeyProvider ∅.

(** The [case] labels of [verifyCreditsKeys], in the order of the
    [switch]. *)
Definition locator_cases : list CreditsFunction :=
  [ bond_public; claim_unbond_public; fee_private; fee_public; inclusion; join;
    set_validator_state; split; transfer_private; transfer_private_to_public;
    transfer_public; transfer_public_to_private; unbond_delegator_as_validator;
    unbond_public ].

Section Provider.
Context {ProvingKey VerifyingKey : Type}.
Variable ProvingKey_fromBytes : bytes -> option ProvingKey.
Variable ProvingKey_toBytes : ProvingKey -> bytes.
Variable VerifyingKey_fromBytes : bytes -> option VerifyingKey.
Variable VerifyingKey_toBytes : VerifyingKey -> bytes.
(** The checksum tests of the engine, e.g. [provingKey.isJoinProver()] and
    [verifyingKey.isJoinVerifier()], and its compiled-in verifying keys,
    e.g. [VerifyingKey.joinVerifier()]. *)
Variable isProver : CreditsFunction -> ProvingKey -> bool.
Variable isVerifier : CreditsFunction -> VerifyingKey -> bool.
Variable verifyingKey : CreditsFunction -> VerifyingKey.

(** [cacheKeys(keyId, keys)] *)
Definition cacheKeys (this : OfflineKeyProvider) (keyId : string)
           (keys : ProvingKey * VerifyingKey) : OfflineKeyProvider :=
  let '(provingKey, verifyingKey) := keys in
  mkOfflineKeyProvider
    (<[keyId := (ProvingKey_toBytes provingKey, VerifyingKey_toBytes verifyingKey)]>
       (cache this)).

(** [verifyCreditsKeys(locator, provingKey, verifyingKey)] *)
Definition verifyCreditsKeys (locator : string) (provingKey : ProvingKey)
           (verifyingKey : VerifyingKey) : bool :=
  match find (fun f => String.eqb locator (KeyProvider.locator (CREDITS_PROGRAM_KEYS f)))
             locator_cases with
  | Some f => isProver f provingKey && isVerifier f verifyingKey
  | None => false
  end.

(** [functionKeys(params)] *)
Definition functionKeys (this : OfflineKeyProvider) (params : option OfflineSearchParams)
  : Promise (ProvingKey * VerifyingKey) :=
  new_Promise (fun p =>
    match params with
    | None =>
        (None, reject (Error "No search parameters provided, cannot retrieve keys") p)
    | Some params =>
        let keyId := os_cacheKey params in
        let verify := os_verifyCreditsKeys params in
        match cache this !! keyId with
        | Some (provingKeyBytes, verifyingKeyBytes) =>
            match ProvingKey_fromBytes provingKeyBytes with
            | None => (Some (Error "invalid proving key bytes"), p)
            | Some provingKey =>
                match VerifyingKey_fromBytes verifyingKeyBytes with
                | None => (Some (Error "invalid verifying key bytes"), p)
                | Some verifyingKey =>
                    let p :=
                      if verify then
                        let keysMatchExpected :=
                          verifyCreditsKeys keyId provingKey verifyingKey in
                        if negb keysMatchExpected
                        then reject (Error ("Cached keys do not match expected keys for "
                                            ++ keyId)) p
                        else p
                      else p in
                    (None, resolve (provingKey, verifyingKey) p)
                end
            end
        | None => (None, reject (Error ("Keys not found in cache for " ++ keyId)) p)
        end
    end).

Definition bondPublicKeys this := functionKeys this (Some bondPublicKeyParams).
Definition claimUnbondPublicKeys this := functionKeys this (Some claimUnbondPublicKeyParams).
Definition feePrivateKeys this := functionKeys this (Some feePrivateKeyParams).
Definition feePublicKeys this := functionKeys this (Some feePublicKeyParams).
Definition joinKeys this := functionKeys this (Some joinKeyParams).
Definition splitKeys this := functionKeys this (Some splitKeyParams).
Definition unBondPublicKeys this := functionKeys this (Some unbondPublicKeyParams).

(** [transferKeys(visibility)], as [await] sees it: the promise of
    [functionKeys], or the exception thrown for an unknown visibility. *)
Definition transferKeys (this : OfflineKeyProvider) (visibility : string)
  : Promise (ProvingKey * VerifyingKey) :=
  if has PRIVATE_TRANSFER visibility
  then functionKeys this (Some transferPrivateKeyParams)
  else if has PRIVATE_TO_PUBLIC_TRANSFER visibility
  then functionKeys this (Some transferPrivateToPublicKeyParams)
  else if has PUBLIC_TRANSFER visibility
  then functionKeys this (Some transferPublicKeyParams)
  else if has PUBLIC_TO_PRIVATE_TRANSFER visibility
  then functionKeys this (Some transferPublicToPrivateKeyParams)
  else Some (Throw (Error "Invalid visibility type")).

(** The thirteen [insert...Keys(provingKey)] methods share one body: the
    prover is checked against the function's checksum and stored under the
    function's locator with the compiled-in verifying key. *)
Definition insert_credits_keys (f : CreditsFunction) (name : string)
           (this : OfflineKeyProvider) (provingKey : ProvingKey)
  : Res OfflineKeyProvider :=
  if isProver f provingKey then
    Ok (mkOfflineKeyProvider
          (<[locator (CREDITS_PROGRAM_KEYS f)
             := (ProvingKey_toBytes provingKey, VerifyingKey_toBytes (verifyingKey f))]>
             (cache this)))
  else Throw (Error ("Attempted to insert invalid proving keys for " ++ name)).

Definition insertBondPublicKeys := insert_credits_keys bond_public "bond_public".
Definition insertClaimUnbondPublicKeys :=
  insert_credits_keys claim_unbond_public "claim_unbond_public".
Definition insertFeePrivateKeys := insert_credits_keys fee_private "fee_private".
Definition insertFeePublicKeys := insert_credits_keys fee_public "fee_public".
Definition insertJoinKeys := insert_credits_keys join "join".
Definition insertSetValidatorStateKeys :=
  insert_credits_keys set_validator_state "set_validator_state".
Definition insertSplitKeys := insert_credits_keys split "split".
Definition insertTransferPrivateKeys :=
  insert_credits_keys transfer_private "transfer_private".
Definition insertTransferPrivateToPublicKeys :=
  insert_credits_keys transfer_private_to_public "transfer_private_to_public".
Definition insertTransferPublicKeys := insert_credits_keys transfer_public "transfer_public".
Definition insertTransferPublicToPrivateKeys :=
  insert_credits_keys transfer_public_to_private "transfer_public_to_private".
Definition insertUnbondDelegatorAsValidatorKeys :=
  insert_credits_keys unbond_delegator_as_validator "unbond_delegator_as_validator".
Definition insertUnbondPublicKeys := insert_credits_keys unbond_public "unbond_public".

End Provider.
End OfflineKeys.

Module OfflineSpec.
Import KeyProvider OfflineKeys.

Section Provider.
Context {ProvingKey VerifyingKey : Type}.
Variable ProvingKey_toBytes : ProvingKey -> bytes.
Variable VerifyingKey_toBytes : VerifyingKey -> bytes.
Variable isProver : CreditsFunction -> ProvingKey -> bool.
Variable verifyingKey : CreditsFunction -> VerifyingKey.

(** The thirteen insert methods of the class, each with its function. *)
Definition insert_methods
  : list (CreditsFunction * (OfflineKeyProvider -> ProvingKey -> Res OfflineKeyProvider)) :=
  [ (bond_public, insertBondPublicKeys ProvingKey_toBytes VerifyingKey_toBytes
                                       isProver verifyingKey);
    (claim_unbond_public,
     insertClaimUnbondPublicKeys ProvingKey_toBytes VerifyingKey_toBytes
                                 isProver verifyingKey);
    (fee_private, insertFeePrivateKeys ProvingKey_toBytes VerifyingKey_toBytes
                                       isProver verifyingKey);
    (fee_public, insertFeePublicKeys ProvingKey_toBytes VerifyingKey_toBytes
                                     isProver verifyingKey);
    (join, insertJoinKeys ProvingKey_toBytes VerifyingKey_toBytes isProver verifyingKey);
    (set_validator_state,
     insertSetValidatorStateKeys ProvingKey_toBytes VerifyingKey_toBytes
                                 isProver verifyingKey);
    (split, insertSplitKeys ProvingKey_toBytes VerifyingKey_toBytes isProver verifyingKey);
    (transfer_private,
     insertTransferPrivateKeys ProvingKey_toBytes VerifyingKey_toBytes
                               isProver verifyingKey);
    (transfer_private_to_public,
     insertTransferPrivateToPublicKeys ProvingKey_toBytes VerifyingKey_toBytes
                                       isProver verifyingKey);
    (transfer_public,
     insertTransferPublicKeys ProvingKey_toBytes VerifyingKey_toBytes
                              isProver verifyingKey);
    (transfer_public_to_private,
     insertTransferPublicToPrivateKeys ProvingKey_toBytes VerifyingKey_toBytes
                                       isProver verifyingKey);
    (unbond_delegator_as_validator,
     insertUnbondDelegatorAsValidatorKeys ProvingKey_toBytes VerifyingKey_toBytes
                                          isProver verifyingKey);
    (unbond_public, insertUnbondPublicKeys ProvingKey_toBytes VerifyingKey_toBytes
                                           isProver verifyingKey) ].

End Provider.
End OfflineSpec.

Module OfflineFixture.
Import KeyProvider OfflineKeys.

(** Toy engine: a key is its bytes; the prover of a function is the text
    of its prover URL, its verifier the text of its verifier name. *)
Definition toy_prover (f : CreditsFunction) : bytes :=
  String.list_byte_of_string (prover (CREDITS_PROGRAM_KEYS f)).
Definition toy_isProver (f : CreditsFunction) (k : bytes) : bool :=
  String.eqb (String.string_of_list_byte k) (prover (CREDITS_PROGRAM_KEYS f)).
Definition toy_isVerifier (f : CreditsFunction) (k : bytes) : bool :=
  String.eqb (String.string_of_list_byte k) (verifier (CREDITS_PROGRAM_KEYS f)).

Definition test_insert (f : CreditsFunction) (name : string) :=
  insert_credits_keys KeyFixture.key_toBytes KeyFixture.key_toBytes toy_isProver
                      KeyFixture.builtin_verifier f name.
Definition test_functionKeys :=
  functionKeys KeyFixture.key_fromBytes KeyFixture.key_fromBytes toy_isProver
               toy_isVerifier.
Definition test_transferKeys :=
  transferKeys KeyFixture.key_fromBytes KeyFixture.key_fromBytes toy_isProver
               toy_isVerifier.
Definition test_cacheKeys :=
  cacheKeys (ProvingKey:=bytes) (VerifyingKey:=bytes)
            KeyFixture.key_toBytes KeyFixture.key_toBytes.

(** A cache that holds a foreign pair under the locator of [join]. *)
Definition poisoned : OfflineKeyProvider :=
  test_cacheKeys new_OfflineKeyProvider "credits.aleo/join"
                 (KeyFixture.hello_prover, KeyFixture.hello_verifier).
End OfflineFixture.

(* ===================================================================== *)
(** * Vocabulary of the statements about the requests of the scan *)
(* ===================================================================== *)

Module ScanRequestsSpec.


End ScanRequestsSpec.

Module RecordSearchFixture.
(** A [NetworkRecordProvider] for alice over the test ledger, asked for
    one record. *)
Definition test_findCreditsRecord (microcredits : Z) (nonces : list string)
           (searchParameters : option RecordProvider.RecordSearchParams)
  : M Fixture.TestWorld (MaybeError RecordPlaintext) :=
  RecordProvider.findCreditsRecord Fixture.test_gateway Fixture.test_key_from_string
    Fixture.test_to_view_key Fixture.test_fromString Fixture.test_isOwner
    Fixture.test_decrypt Fixture.test_serial
    "alice" None microcredits true nonces searchParameters.
End RecordSearchFixture.

(* ===================================================================== *)
(** * AleoNetworkClient: program and transaction queries *)
(* ===================================================================== *)

Module NetworkQueries.

(** The [message] property of a caught value; a thrown string has none. *)
Definition exn_message (e : exn) : string :=
  match e with
  | Error msg => msg
  | TypeError msg => msg
  | ThrownString _ => "undefined"
  end.

(** What a POST comes to: no [ok] response ([post] throws, with the
    status in the message), a response whose body is no JSON ([json()]
    throws), or a JSON body. *)
Inductive PostAnswer :=
| PostFailed (message : string)
| PostBadBody (message : string)
| PostOk (body : Json).

(** A program argument: a [Program] object or a string (an id or source
    code); likewise a transaction argument. *)
Inductive ProgramArg (Program : Type) :=
| ProgObject (p : Program)
| ProgString (s : string).
Arguments ProgObject {Program} p.
Arguments ProgString {Program} s.

Inductive TransactionArg (Transaction : Type) :=
| TxObject (t : Transaction)
| TxString (s : string).
Arguments TxObject {Transaction} t.
Arguments TxString {Transaction} s.

(** [String.prototype.replace(pattern, replacement)] with a one-character
    string pattern and the empty replacement: the first occurrence goes. *)
Fixpoint remove_first (c : Ascii.ascii) (s : string) : string :=
  match s with
  | EmptyString => EmptyString
  | String c' s' => if Ascii.eqb c c' then s' else String c' (remove_first c s')
  end.

Definition double_quote : Ascii.ascii := Ascii.ascii_of_nat 34.

Section Client.
Context {W Program Transaction : Type}.

(** The node: a GET that comes back [ok] with a JSON body, or not; and
    a POST. *)
Variable node_get : string -> W -> option Json * W.
Variable node_post : string -> string -> W -> PostAnswer * W.

(** The engine: [Program.fromString], [program.getImports()],
    [program.toString()] and [transaction.toString()]. *)
Variable Program_fromString : string -> option Program.
Variable getImports : Program -> list string.
Variable Program_toString : Program -> string.
Variable Transaction_toString : Transaction -> string.

(** [this.host]; the constructor and [setHost] store [host + "/testnet3"]. *)
Variable host : string.

(** [get(this.host + url)] followed by [response.json()].  Whatever is
    thrown inside the [try] (a failed request, a status that is not [ok],
    a body that is no JSON) is replaced by the error of the [catch]. *)
Definition fetchData (url : string) : M W Json :=
  try_ (call (fun w =>
                let '(r, w') := node_get (host ++ url) w in
                (match r with
                 | Some j => Ok j
                 | None => Throw (Error ("could not get URL " ++ host ++ url))
                 end, w'))
             (fun r => EvHttpGet (host ++ url) (is_ok r)))
       (fun _ => throw (Error "Error fetching data.")).

Definition getBlock (height : Z) : M W Json :=
  try_ (fetchData ("/block/" ++ pretty height))
       (fun _ => throw (Error "Error fetching block.")).

Definition getLatestBlock : M W Json :=
  try_ (fetchData "/latest/block") (fun _ => throw (Error "Error fetching latest block.")).

Definition getLatestCommittee : M W Json :=
  try_ (fetchData "/committee/latest")
       (fun _ => throw (Error "Error fetching latest block.")).

Definition getProgram (programId : string) : M W Json :=
  try_ (fetchData ("/program/" ++ programId))
       (fun _ => throw (Error "Error fetching program")).

Definition getProgramMappingNames (programId : string) : M W Json :=
  try_ (fetchData ("/program/" ++ programId ++ "/mappings"))
       (fun _ => throw (Error "Error fetching program mappings - ensure the program exists on chain before trying again")).

Definition getProgramMappingValue (programId mappingName key : string) : M W Json :=
  try_ (fetchData ("/program/" ++ programId ++ "/mapping/" ++ mappingName ++ "/" ++ key))
       (fun _ => throw (Error "Error fetching mapping value - ensure the mapping exists and the key is correct")).

Definition getStateRoot : M W Json :=
  try_ (fetchData "/latest/stateRoot")
       (fun _ => throw (Error "Error fetching Aleo state root")).

Definition getTransaction (id : string) : M W Json :=
  try_ (fetchData ("/transaction/" ++ id))
       (fun _ => throw (Error "Error fetching transaction.")).

Definition getTransactions (height : Z) : M W Json :=
  try_ (fetchData ("/block/" ++ pretty height ++ "/transactions"))
       (fun _ => throw (Error "Error fetching transactions.")).

Definition getTransactionsInMempool : M W Json :=
  try_ (fetchData "/memoryPool/transactions")
       (fun _ => throw (Error "Error fetching transactions from mempool.")).

(** [getDeploymentTransactionIDForProgram(program)]: only a string has a
    [replace] method. *)
Definition getDeploymentTransactionIDForProgram (program : ProgramArg Program)
  : M W string :=
  let program := match program with
                 | ProgObject p => Program_toString p
                 | ProgString s => s
                 end in
  try_ (do id <- fetchData ("/find/transactionID/deployment/" ++ program);
        match id with
        | JString id => ret (remove_first double_quote id)
        | _ => throw (TypeError "id.replace is not a function")
        end)
       (fun _ => throw (Error "Error fetching deployment transaction for program.")).

Definition getDeploymentTransactionForProgram (program : ProgramArg Program) : M W Json :=
  try_ (do transaction_id <- getDeploymentTransactionIDForProgram program;
        getTransaction transaction_id)
       (fun _ => throw (Error "Error fetching deployment transaction for program.")).

(** [Program.fromString(x)] on a value that came from the node. *)
Definition program_of_json (j : Json) : option Program :=
  match j with
  | JString s => Program_fromString s
  | _ => None
  end.

Definition getProgramObject (inputProgram : string) : M W Program :=
  match Program_fromString inputProgram with
  | Some p => ret p
  | None =>
      try_ (do source <- getProgram inputProgram;
            match program_of_json source with
            | Some p => ret p
            | None => throw (Error "invalid program")
            end)
           (fun _ => throw (Error (inputProgram
                                   ++ " is neither a program name or a valid program")))
  end.

(** [inputProgram instanceof Program ? inputProgram
                                     : await this.getProgramObject(inputProgram)] *)
Definition resolve_program (inputProgram : ProgramArg Program) : M W Program :=
  match inputProgram with
  | ProgObject p => ret p
  | ProgString s => getProgramObject s
  end.

(** The body of the [for] loop of [getProgramImports], for one entry of
    the import list; [recur] is the method itself.  The [imports] object
    is a map from program id to what [getProgram] answered; the inner
    [for ... in] copies the entries of [nestedImports] whose key [imports]
    lacks. *)
Definition import_step (recur : ProgramArg Program -> M W (option (gmap string Json)))
           (import_id : string) (imports : gmap string Json)
  : M W (Ctl (gmap string Json) (option (gmap string Json))) :=
  if bool_decide (is_Some (imports !! import_id))
  then ret (Next imports)
  else
    do programSource <- getProgram import_id;
    do nestedImports <- recur (ProgString import_id);
    match nestedImports with
    | Some nestedImports =>
        ret (Next (<[import_id := programSource]> (imports ∪ nestedImports)))
    | None => ret (Return None)
    end.

(** [getProgramImports(inputProgram)].  The method calls itself for each
    import; [None] is the answer of a call that has not returned after
    [fuel] levels of calls. *)
Fixpoint getProgramImports (fuel : nat) (inputProgram : ProgramArg Program)
  : M W (option (gmap string Json)) :=
  match fuel with
  | O => ret None
  | S fuel' =>
      try_
        (do program <- resolve_program inputProgram;
         let importList := getImports program in
         do r <- for_each importList (import_step (getProgramImports fuel')) ∅;
         match r with
         | Next imports => ret (Some imports)
         | Return unfinished => ret unfinished
         end)
        (fun error =>
           logAndThrow ("Error fetching program imports: " ++ exn_to_string error))
  end.

Definition getProgramImportNames (inputProgram : ProgramArg Program)
  : M W (list string) :=
  try_ (do program <- resolve_program inputProgram;
        ret (getImports program))
       (fun error =>
          throw (Error ("Error fetching program imports with error: "
                        ++ exn_to_string error))).

(** [post(url, options)], then [response.json()] in a [try] of its own.
    A POST changes the world; the trace keeps the GET requests only. *)
Definition submitTransaction (transaction : TransactionArg Transaction) : M W Json :=
  let transaction_string := match transaction with
                            | TxObject t => Transaction_toString t
                            | TxString s => s
                            end in
  try_
    (do response <-
       (fun s =>
          let '(r, w') := node_post (host ++ "/transaction/broadcast") transaction_string
                                    (world s) in
          (match r with
           | PostFailed message => Throw (Error message)
           | _ => Ok r
           end, mkSt w' (trace s)));
     try_ (match response with
           | PostOk body => ret body
           | PostBadBody message => throw (Error message)
           | PostFailed message => throw (Error message)
           end)
          (fun error =>
             throw (Error ("Error posting transaction. Aleo network response: "
                           ++ exn_message error))))
    (fun error =>
       throw (Error ("Error posting transaction: No response received: "
                     ++ exn_message error))).

End Client.
End NetworkQueries.

Module ImportsSpec.
Import NetworkQueries.

(** The state a GET of [host ++ url] leaves behind. *)
Definition after_get {W} (node_get : string -> W -> option Json * W) (host url : string)
           (σ : St W) : St W :=
  mkSt (node_get (host ++ url) (world σ)).2
       (trace σ ++ [EvHttpGet (host ++ url)
                              (bool_decide (is_Some (node_get (host ++ url) (world σ)).1))]).

Section Spec.
Context {Program : Type}.
Variable Program_fromString : string -> option Program.
Variable getImports : Program -> list string.
Variable host : string.
(** What a node whose answers do not change serves under each URL. *)
Variable answer : string -> option Json.

Definition source_of (id : string) : option Json :=
  answer (host ++ "/program/" ++ id).

(** The program a string stands for: itself if it parses as a program,
    else what the node serves under it as an id, if that parses. *)
Definition program_at (s : string) : option Program :=
  match Program_fromString s with
  | Some p => Some p
  | None => source_of s ≫= program_of_json Program_fromString
  end.

Definition resolved (inputProgram : ProgramArg Program) (p : Program) : Prop :=
  match inputProgram with
  | ProgObject q => q = p
  | ProgString s => program_at s = Some p
  end.

(** Every entry holds what the node serves for its id, and the map holds
    an entry for each import of each of its programs. *)
Definition closed (imports : gmap string Json) : Prop :=
  forall id j,
    imports !! id = Some j ->
    source_of id = Some j
    /\ exists p, program_at id = Some p
                 /\ forall id', id' ∈ getImports p -> is_Some (imports !! id').

(** The imports of [p] nest at most [n] levels deep: none of them stands
    for a program ([n = 0]), or those that do nest at most [n - 1] deep. *)
Fixpoint depth_le (n : nat) (p : Program) : Prop :=
  match n with
  | O => forall id, id ∈ getImports p -> program_at id = None
  | S m => forall id p', id ∈ getImports p -> program_at id = Some p' -> depth_le m p'
  end.
End Spec.
End ImportsSpec.

Module ImportsFixture.
Import NetworkQueries.

(** Toy programs: a program is the list of its imports.  [a.aleo]
    imports [b.aleo], which imports nothing; [loop.aleo] imports
    itself. *)
Definition source_a : string := "program a.aleo; import b.aleo;".
Definition source_b : string := "program b.aleo;".
Definition source_loop : string := "program loop.aleo; import loop.aleo;".

Definition test_Program_fromString (s : string) : option (list string) :=
  if String.eqb s source_a then Some ["b.aleo"]
  else if String.eqb s source_b then Some []
  else if String.eqb s source_loop then Some ["loop.aleo"]
  else None.

Definition test_host : string := "https://api.example/testnet3".

Definition test_answer (url : string) : option Json :=
  if String.eqb url (test_host ++ "/program/a.aleo") then Some (JString source_a)
  else if String.eqb url (test_host ++ "/program/b.aleo") then Some (JString source_b)
  else if String.eqb url (test_host ++ "/program/loop.aleo") then Some (JString source_loop)
  else None.

(** A node whose answers do not change; the world counts the requests. *)
Definition test_node_get (url : string) (w : nat) : option Json * nat :=
  (test_answer url, S w).

Definition test_getProgramImports (fuel : nat) (id : string)
  : M nat (option (gmap string Json)) :=
  getProgramImports test_node_get test_Program_fromString (fun p => p) test_host
                    fuel (ProgString id).
End ImportsFixture.

(* ===================================================================== *)
(** * ProgramManager: deployment, staking and the public transfer *)
(* ===================================================================== *)

Module Deployment.
Import RecordProvider ProgramManager.

Section Manager.
Context {W ProvingKey VerifyingKey PrivateKey Imports OfflineQuery Tx : Type}.
Context {keyProvider : FunctionKeyProvider W ProvingKey VerifyingKey}.

Variable recordProvider : option (RecordProvider W).
Variable account : option PrivateKey.
Variable host : string.

(** [this.networkClient].  [deploy] tests the type of what [getProgram]
    answered, so the answer is kept as the JSON value it is. *)
Variable getProgram : string -> W -> Res Json * W.
Variable getProgramImports : string -> W -> Res Imports * W.
Variable submitTransaction : Tx -> W -> Res Json * W.

(** The engine: [RecordPlaintext.fromString], [Program.fromString(p).id()]
    (the id, or the value [fromString] throws) and the builders of the
    wasm [ProgramManager]. *)
Variable RecordPlaintext_fromString : string -> option RecordPlaintext.
Variable Program_id : string -> Res string.

Record DeployArgs := mkDeployArgs {
  da_privateKey : PrivateKey;
  da_program : string;
  da_fee : Z;
  da_feeRecord : option (MaybeError RecordPlaintext);
  da_host : string;
  da_imports : Imports;
  da_feeProvingKey : ProvingKey;
  da_feeVerifyingKey : VerifyingKey
}.

Variable engine_buildDeploymentTransaction : DeployArgs -> W -> Res Tx * W.
Variable engine_buildTransferTransaction :
  TransferArgs (ProvingKey:=ProvingKey) (VerifyingKey:=VerifyingKey)
               (PrivateKey:=PrivateKey) (OfflineQuery:=OfflineQuery) -> W -> Res Tx * W.

(** A call to a collaborator for which the trace has no event: it sees
    and changes the world only. *)
Definition call_unrecorded {A} (op : W -> Res A * W) : M W A :=
  fun s =>
    let '(r, w') := op (world s) in
    (r, mkSt w' (trace s)).

Definition already_exists_message (id : string) : string :=
  "Program " ++ id ++ " already exists on the network, please rename your program".

Definition does_not_exist_message (id : string) : string :=
  "Program " ++ id ++ " does not exist on the network, deploying...".

(** [deploy(program, fee, privateFee, recordSearchParams, feeRecord,
    privateKey)] *)
Definition deploy (program : string) (fee : Z) (privateFee : bool)
           (recordSearchParams : option RecordSearchParams) (feeRecord : RecordArg)
           (privateKey : option PrivateKey) : M W Json :=
  do_ try_
        (do id <- (match Program_id program with
                   | Ok id => ret id
                   | Throw e => throw e
                   end);
         do programSource <-
           try_ (do source <- call (getProgram id) (fun _ => EvGetProgram id);
                 ret (Some source))
                (fun _ =>
                   do_ emit (EvLog (does_not_exist_message id));
                   ret None);
         match programSource with
         | Some (JString _) => throw (ThrownString (already_exists_message id))
         | _ => ret tt
         end)
        (fun e => logAndThrow ("Error validating program: " ++ exn_to_string e));
  do deploymentPrivateKey <- resolve_private_key account privateKey;
  do feeRecord <-
    try_ (if privateFee
          then do r <- getCreditsRecord recordProvider RecordPlaintext_fromString
                                        fee [] feeRecord recordSearchParams;
               ret (Some r)
          else ret None)
         (fun e => logAndThrow (fee_record_message e));
  do feeKeys <-
    try_ (feeKeys_of privateFee)
         (fun e => logAndThrow (fee_keys_message e));
  do feeKeys <- destructure feeKeys;
  let '(feeProvingKey, feeVerifyingKey) := feeKeys in
  do imports <-
    try_ (call (getProgramImports program) (fun _ => EvGetProgramImports program))
         (fun e => logAndThrow
            ("Error finding program imports. Network response: '"
             ++ exn_to_string e
             ++ "'. Please ensure you're connected to a valid Aleo network and the program is deployed to the network."));
  do tx <- call_unrecorded
             (engine_buildDeploymentTransaction
                (mkDeployArgs deploymentPrivateKey program fee feeRecord host imports
                              feeProvingKey feeVerifyingKey));
  call_unrecorded (submitTransaction tx).

(** [buildTransferPublicTransaction(amount, recipient, fee, privateKey,
    offlineQuery)] *)
Definition buildTransferPublicTransaction (amount : Z) (recipient : string) (fee : Z)
           (privateKey : option PrivateKey) (offlineQuery : option OfflineQuery)
  : M W Tx :=
  buildTransferTransaction recordProvider account host RecordPlaintext_fromString
    engine_buildTransferTransaction
    amount recipient "public" fee false None RecUndefined RecUndefined
    privateKey offlineQuery.

End Manager.
End Deployment.

Module Staking.
Import RecordProvider KeyProvider ProgramManager.

(** [new AleoKeyProviderParams({ proverUri, verifierUri, cacheKey })] *)
Definition new_AleoKeyProviderParams (proverUri verifierUri cacheKey : string)
  : gmap string JsVal :=
  list_to_map [ ("proverUri", VString proverUri); ("verifierUri", VString verifierUri);
                ("cacheKey", VString cacheKey) ].

Section Manager.
Context {W ProvingKey VerifyingKey PrivateKey Imports OfflineQuery Tx : Type}.
Context {keyProvider : FunctionKeyProvider W ProvingKey VerifyingKey}.
Variable recordProvider : option (RecordProvider W).
Variable account : option PrivateKey.
Variable host : string.
Variable getProgram : string -> W -> Res string * W.
Variable getProgramImports : string -> W -> Res Imports * W.
Variable RecordPlaintext_fromString : string -> option RecordPlaintext.
Variable Program_imports_length : string -> option nat.
Variable engine_buildExecutionTransaction :
  ExecuteArgs (ProvingKey:=ProvingKey) (VerifyingKey:=VerifyingKey)
              (PrivateKey:=PrivateKey) (Imports:=Imports)
              (OfflineQuery:=OfflineQuery) -> W -> Res Tx * W.

(** The [options] argument of the staking builders: an [ExecuteOptions]
    object any of whose properties may be missing ([{}] by default). *)
Record PartialExecuteOptions := mkPartialExecuteOptions {
  po_programName : option string;
  po_functionName : option string;
  po_fee : option Z;
  po_privateFee : option bool;
  po_inputs : option (list string);
  po_recordSearchParams : option RecordSearchParams;
  po_keySearchParams : option (gmap string JsVal);
  po_privateKey : option PrivateKey;
  po_offlineQuery : option OfflineQuery;
  po_feeRecord : RecordArg;
  po_provingKey : option ProvingKey;
  po_verifyingKey : option VerifyingKey;
  po_program : option string;
  po_imports : option Imports
}.

(** [buildClaimUnbondPublicTransaction(options = {})].  The destructuring
    gives each listed property its default when it is undefined (for the
    fee, [options.fee || 2] is evaluated then, and is 2); [program] is
    bound there too, so it is not among [additionalOptions], and it is
    not put into [executeOptions]. *)
Definition buildClaimUnbondPublicTransaction (options : PartialExecuteOptions) : M W Tx :=
  let programName := default "credits.aleo" (po_programName options) in
  let functionName := default "claim_unbond_public" (po_functionName options) in
  let fee := default 2 (po_fee options) in
  let privateFee := default false (po_privateFee options) in
  let inputs := default [] (po_inputs options) in
  let keySearchParams :=
    default (new_AleoKeyProviderParams
               (prover (CREDITS_PROGRAM_KEYS claim_unbond_public))
               (verifier (CREDITS_PROGRAM_KEYS claim_unbond_public))
               "credits.aleo/claim_unbond_public")
            (po_keySearchParams options) in
  let executeOptions :=
    mkExecuteOptions programName functionName fee privateFee inputs
      (po_recordSearchParams options) (Some keySearchParams) (po_privateKey options)
      (po_offlineQuery options) (po_feeRecord options) (po_provingKey options)
      (po_verifyingKey options) None (po_imports options) in
  buildExecutionTransaction recordProvider account host getProgram getProgramImports
    RecordPlaintext_fromString Program_imports_length engine_buildExecutionTransaction
    executeOptions.

End Manager.
End Staking.

Module ContactSpec.
Import ProgramManager ManagerSpec Deployment.

(** Every event a computation adds to the trace satisfies [P], whatever
    state it starts from and however it ends. *)
Definition emits {W A} (P : Event -> Prop) (m : M W A) : Prop :=
  forall σ, exists evs,
    trace (m σ).2 = (trace σ ++ evs)%list /\ Forall P evs.

(** The calls [buildExecutionTransaction] may make for given options: the
    program is fetched only when none is given, the imports only when
    none are given, a fee record is looked up only for a private fee
    without a usable explicit record, the fee keys are those of the fee's
    kind, and the function keys are asked for only when one is missing. *)
Definition execution_contact {ProvingKey VerifyingKey PrivateKey Imports OfflineQuery}
           (RecordPlaintext_fromString : string -> option RecordPlaintext)
           (options : ExecuteOptions (ProvingKey:=ProvingKey) (VerifyingKey:=VerifyingKey)
                                     (PrivateKey:=PrivateKey) (Imports:=Imports)
                                     (OfflineQuery:=OfflineQuery))
           (ev : Event) : Prop :=
  match ev with
  | EvLog _ => True
  | EvGetProgram name => program options = None /\ name = programName options
  | EvGetProgramImports name => imports options = None /\ name = programName options
  | EvFindCreditsRecord amount nonces =>
      privateFee options = true
      /\ no_explicit_record RecordPlaintext_fromString (feeRecord options)
      /\ amount = fee options /\ nonces = []
  | EvFeeKeys private => private = privateFee options
  | EvFunctionKeys => provingKey options = None \/ verifyingKey options = None
  | EvEngine (EngineExecute _ _) => True
  | _ => False
  end.

(** The calls of a public transfer. *)
Definition public_transfer_contact (ev : Event) : Prop :=
  match ev with
  | EvLog _ => True
  | EvFeeKeys private => private = false
  | EvTransferKeys visibility => visibility = "public"
  | EvEngine c => c = EngineTransfer "public" None None
  | _ => False
  end.

(** The events of the check against the node: the lookup, and the note
    logged when it threw. *)
Definition validation_events (id : string) (r : Res Json) : list Event :=
  EvGetProgram id :: match r with
                     | Throw _ => [EvLog (does_not_exist_message id)]
                     | Ok _ => []
                     end.

End ContactSpec.

Module DeployFixture.
Import ProgramManager Deployment.

Definition hello_source : string := "program hello_hello.aleo;".

Definition test_Program_id (program : string) : Res string :=
  if String.eqb program hello_source then Ok "hello_hello.aleo"
  else Throw (Error "Failed to parse program").

(** A node that serves the program, and one that does not know it. *)
Definition node_with_program (id : string) (w : nat) : Res Json * nat :=
  (Ok (JString hello_source), S w).
Definition node_without_program (id : string) (w : nat) : Res Json * nat :=
  (Throw (Error "Error fetching program"), S w).

Definition test_submit (tx : string) (w : nat) : Res Json * nat :=
  (Ok (JString ("at1" ++ tx)), S w).

Definition test_engine_deploy
           (args : DeployArgs (ProvingKey:=string) (VerifyingKey:=string)
                              (PrivateKey:=string) (Imports:=list string))
           (w : nat) : Res string * nat :=
  (Ok "deployment", S w).

Definition test_deploy (getProgram : string -> nat -> Res Json * nat)
           (program : string) : M nat Json :=
  deploy (keyProvider:=ManagerFixture.throwing_keyProvider)
    (Some ManagerFixture.test_recordProvider) (Some "alice-key") "https://api.example"
    getProgram ManagerFixture.test_getProgramImports test_submit
    Fixture.test_fromString test_Program_id test_engine_deploy
    program 3000000 false None RecUndefined None.

(** A record provider that finds nothing, as [NetworkRecordProvider]
    answers then. *)
Definition empty_recordProvider : RecordProvider nat :=
  {| rp_findCreditsRecord amount unspent nonces params w :=
       (Ok (ErrVal (Error "Record not found")), S w) |}.

Definition test_transfer_without_records (transferType : string) : M nat string :=
  buildTransferTransaction (keyProvider:=ManagerFixture.throwing_keyProvider)
    (Some empty_recordProvider) (Some "alice-key") "https://api.example"
    Fixture.test_fromString ManagerFixture.test_engine_transfer
    1000 "aleo1recipient" transferType 500 false None RecUndefined RecUndefined
    None None.
End DeployFixture.

(* ===================================================================== *)
(** * The synchronous XMLHttpRequest of the Node.js polyfill *)
(* ===================================================================== *)

Module XMLHttpRequest.
Import KeyProvider.

Definition UNSENT : Z := 0.
Definition OPENED : Z := 1.
Definition HEADERS_RECEIVED : Z := 2.
Definition LOADING : Z := 3.
Definition DONE : Z := 4.

(** The fields of the object; [None] is JavaScript's [null]. *)
Record XMLHttpRequest := mkXMLHttpRequest {
  responseType : string;
  withCredentials : bool;
  timeout : Z;
  readyState : Z;
  response : option string;
  responseText : string;
  responseURL : string;
  responseXML : option string;
  status : Z;
  statusText : string;
  upload : option string;
  _url : option string;
  _mime : string
}.

(** [_reset()] *)
Definition _reset (this : XMLHttpRequest) : XMLHttpRequest :=
  {| readyState := UNSENT;
     response := None;
     responseText := "";
     responseType := "";
     responseURL := "";
     responseXML := None;
     status := 0;
     statusText := "";
     timeout := 0;
     upload := None;
     withCredentials := false;
     _url := None;
     _mime := _mime this |}.

(** [constructor()]: the fields are unset before [_reset] runs. *)
Definition new_XMLHttpRequest : XMLHttpRequest :=
  let this := _reset (mkXMLHttpRequest "" false 0 0 None "" "" None 0 "" None None "") in
  {| readyState := readyState this; response := response this;
     responseText := responseText this; responseType := responseType this;
     responseURL := responseURL this; responseXML := responseXML this;
     status := status this; statusText := statusText this; timeout := timeout this;
     upload := upload this; withCredentials := withCredentials this;
     _url := _url this; _mime := "text/xml" |}.

(** [_success()] *)
Definition _success (this : XMLHttpRequest) : XMLHttpRequest :=
  {| readyState := DONE; status := 200; statusText := "OK";
     response := response this; responseText := responseText this;
     responseType := responseType this; responseURL := responseURL this;
     responseXML := responseXML this; timeout := timeout this; upload := upload this;
     withCredentials := withCredentials this; _url := _url this;
     _mime := _mime this |}.

(** [overrideMimeType(mime)] *)
Definition overrideMimeType (this : XMLHttpRequest) (mime : string) : XMLHttpRequest :=
  {| _mime := mime;
     readyState := readyState this; status := status this;
     statusText := statusText this; response := response this;
     responseText := responseText this; responseType := responseType this;
     responseURL := responseURL this; responseXML := responseXML this;
     timeout := timeout this; upload := upload this;
     withCredentials := withCredentials this; _url := _url this |}.

Section Requests.
Context {W : Type}.

(** [$request("GET", url, { headers: { "Content-Type": mime } })] of the
    synchronous request library, up to [response.body.buffer], and
    [new TextDecoder("iso-8859-5", { fatal: true }).decode(buffer)]
    ([None]: it throws). *)
Variable request : string -> string -> W -> Res bytes * W.
Variable decode : bytes -> option string.

(** [abort()], [getResponseHeader()], [getAllResponseHeaders()],
    [setRequestHeader()] and the setters of the event handlers. *)
Definition not_implemented {A} : M W A := throw (Error "Not implemented").

(** [open(method, url, async = true, username, password)].  The checks
    come before the first assignment, so a call that throws leaves the
    object as it was. *)
Definition open (this : XMLHttpRequest) (method url : string) (async : option bool)
  : M W XMLHttpRequest :=
  if default true async
  then throw (Error "Async XMLHttpRequest is not implemented yet")
  else if negb (String.eqb method "GET")
  then throw (Error "Non-GET requests are not implemented yet")
  else
    let this := _reset this in
    ret {| _url := Some url;
           readyState := readyState this; status := status this;
           statusText := statusText this; response := response this;
           responseText := responseText this; responseType := responseType this;
           responseURL := responseURL this; responseXML := responseXML this;
           timeout := timeout this; upload := upload this;
           withCredentials := withCredentials this; _mime := _mime this |}.

(** [send(body = null)].  [!this._url] holds for [null] and for the empty
    string.  The assignments follow the last call that can throw. *)
Definition send (this : XMLHttpRequest) (body : option string) : M W XMLHttpRequest :=
  if bool_decide (is_Some body)
  then throw (Error "XMLHttpRequest send body is not implemented yet")
  else
    match _url this with
    | None | Some "" => throw (Error "You must call open before you call send")
    | Some url =>
        do buffer <- call (request url (_mime this)) (fun r => EvHttpGet url (is_ok r));
        do responseText <-
          match decode buffer with
          | Some text => ret text
          | None => throw (TypeError "The encoded data was not valid.")
          end;
        ret (_success
               {| response := Some responseText; responseText := responseText;
                  _url := None;
                  readyState := readyState this; status := status this;
                  statusText := statusText this; responseType := responseType this;
                  responseURL := responseURL this; responseXML := responseXML this;
                  timeout := timeout this; upload := upload this;
                  withCredentials := withCredentials this; _mime := _mime this |})
    end.
End Requests.
End XMLHttpRequest.

Module XhrSpec.
Import KeyProvider XMLHttpRequest.

(** The methods a caller can invoke on the object. *)
Inductive MethodCall :=
| CallOpen (method url : string) (async : option bool)
| CallSend (body : option string)
| CallOverrideMimeType (mime : string)
| CallNotImplemented.

Section Sessions.
Context {W : Type}.
Variable request : string -> string -> W -> Res bytes * W.
Variable decode : bytes -> option string.

(** One call by a caller that catches what it throws. *)
Definition invoke (c : MethodCall) (this : XMLHttpRequest) : M W XMLHttpRequest :=
  match c with
  | CallOpen method url async =>
      try_ (open this method url async) (fun _ => ret this)
  | CallSend body =>
      try_ (send request decode this body) (fun _ => ret this)
  | CallOverrideMimeType mime => ret (overrideMimeType this mime)
  | CallNotImplemented =>
      try_ (do_ not_implemented (A:=unit); ret this) (fun _ => ret this)
  end.

Fixpoint session (calls : list MethodCall) (this : XMLHttpRequest)
  : M W XMLHttpRequest :=
  match calls with
  | [] => ret this
  | c :: calls' =>
      do this' <- invoke c this;
      session calls' this'
  end.
End Sessions.

(** The two states the object is seen in: cleared, or holding a
    response. *)
Definition cleared (this : XMLHttpRequest) : Prop :=
  readyState this = UNSENT /\ status this = 0 /\ statusText this = ""
  /\ response this = None /\ responseText this = "".

Definition holds_response (this : XMLHttpRequest) : Prop :=
  readyState this = DONE /\ status this = 200 /\ statusText this = "OK"
  /\ response this = Some (responseText this) /\ _url this = None.
End XhrSpec.

Module XhrFixture.
Import KeyProvider XMLHttpRequest.

(** A server of one file; the world counts the requests. *)
Definition test_request (url mime : string) (w : nat) : Res bytes * nat :=
  (if String.eqb url "file:///aleo.wasm"
   then Ok (String.list_byte_of_string "wasm")
   else Throw (Error "ENOENT"), S w).

Definition test_decode (buffer : bytes) : option string :=
  Some (String.string_of_list_byte buffer).

Definition opened : XMLHttpRequest :=
  match open (W:=nat) new_XMLHttpRequest "GET" "file:///aleo.wasm" (Some false)
             (mkSt 0%nat []) with
  | (Ok this, _) => this
  | (Throw _, _) => new_XMLHttpRequest
  end.
End XhrFixture.

(* ===================================================================== *)
(** * Account: key material derived from one private key *)
(* ===================================================================== *)

Module Account.
Import KeyProvider.

(** The [params] object of the constructor. *)
Record AccountParams := mkAccountParams {
  seed : option bytes;
  privateKey : option string
}.

(** A ciphertext argument: its text or the object. *)
Inductive CiphertextArg (Ciphertext : Type) :=
| CtString (s : string)
| CtObject (c : Ciphertext).
Arguments CtString {Ciphertext} s.
Arguments CtObject {Ciphertext} c.

Section Engine.
Context {W PrivateKey ViewKey Address PrivateKeyCiphertext RecordCiphertext : Type}.

(** The engine.  [None] stands for a thrown exception; [new PrivateKey()]
    and [toCiphertext] draw randomness from the world. *)
Variable PrivateKey_from_seed_unchecked : bytes -> option PrivateKey.
Variable PrivateKey_from_string : string -> option PrivateKey.
Variable new_PrivateKey : W -> PrivateKey * W.
Variable PrivateKey_to_string : PrivateKey -> string.
Variable ViewKey_from_private_key : PrivateKey -> ViewKey.
Variable Address_from_private_key : PrivateKey -> Address.
Variable toCiphertext : PrivateKey -> string -> W -> option PrivateKeyCiphertext * W.
Variable PrivateKeyCiphertext_fromString : string -> option PrivateKeyCiphertext.
Variable fromPrivateKeyCiphertext : PrivateKeyCiphertext -> string -> option PrivateKey.
Variable RecordCiphertext_fromString : string -> option RecordCiphertext.
Variable isOwner : RecordCiphertext -> ViewKey -> option bool.

Record Account := mkAccount {
  _privateKey : PrivateKey;
  _viewKey : ViewKey;
  _address : Address
}.

(** A call into the engine that uses the world's randomness; the trace
    has no event for it. *)
Definition engine {A} (op : W -> option A * W) (message : string) : M W A :=
  fun s =>
    let '(r, w') := op (world s) in
    (match r with
     | Some a => Ok a
     | None => Throw (Error message)
     end, mkSt w' (trace s)).

Definition of_engine {A} (r : option A) (message : string) : M W A :=
  match r with
  | Some a => ret a
  | None => throw (Error message)
  end.

(** [privateKeyFromParams(params)]: [params.seed] is an array, true when
    present; [params.privateKey] is a string, true when not empty. *)
Definition privateKeyFromParams (params : AccountParams) : M W PrivateKey :=
  match seed params with
  | Some s => of_engine (PrivateKey_from_seed_unchecked s) "invalid seed"
  | None =>
      match privateKey params with
      | Some (String c s) =>
          of_engine (PrivateKey_from_string (String c s)) "invalid private key"
      | _ => engine (fun w => let '(k, w') := new_PrivateKey w in (Some k, w')) ""
      end
  end.

(** [constructor(params = {})] *)
Definition new_Account (params : AccountParams) : M W Account :=
  do k <- try_ (privateKeyFromParams params)
               (fun e =>
                  do_ emit (EvLog "Wrong parameter");
                  throw (Error "Wrong Parameter"));
  ret (mkAccount k (ViewKey_from_private_key k) (Address_from_private_key k)).

(** [Account.fromCiphertext(ciphertext, password)] *)
Definition fromCiphertext (ciphertext : CiphertextArg PrivateKeyCiphertext)
           (password : string) : M W Account :=
  try_ (do ciphertext <-
          match ciphertext with
          | CtString s => of_engine (PrivateKeyCiphertext_fromString s) "invalid ciphertext"
          | CtObject c => ret c
          end;
        do k <- of_engine (fromPrivateKeyCiphertext ciphertext password)
                          "decryption failed";
        new_Account (mkAccountParams None (Some (PrivateKey_to_string k))))
       (fun _ => throw (Error "Wrong password or invalid ciphertext")).

(** [encryptAccount(password)] *)
Definition encryptAccount (this : Account) (password : string)
  : M W PrivateKeyCiphertext :=
  engine (toCiphertext (_privateKey this) password) "encryption failed".

(** [ownsRecordCiphertext(ciphertext)] *)
Definition ownsRecordCiphertext (this : Account)
           (ciphertext : CiphertextArg RecordCiphertext) : M W bool :=
  match ciphertext with
  | CtString s =>
      try_ (do ciphertextObject <- of_engine (RecordCiphertext_fromString s)
                                             "invalid record ciphertext";
            of_engine (isOwner ciphertextObject (_viewKey this)) "isOwner failed")
           (fun _ => ret false)
  | CtObject c => of_engine (isOwner c (_viewKey this)) "isOwner failed"
  end.

End Engine.
End Account.

Module AccountFixture.
Import KeyProvider Account.

(** Toy keys are non-empty names; a ciphertext is the key with the
    password. *)
Definition key_from_string (s : string) : option string :=
  match s with
  | "" => None
  | _ => Some s
  end.

Definition test_toCiphertext (k password : string) (w : nat)
  : option (string * string) * nat :=
  (Some (k, password), S w).

Definition test_decrypt (c : string * string) (password : string) : option string :=
  if String.eqb c.2 password then Some c.1 else None.

Definition test_fromCiphertext :=
  fromCiphertext (W:=nat) (fun _ : bytes => Some "seeded") key_from_string
                 (fun w => ("random", S w)) (fun k : string => k)
                 (fun k : string => "view:" ++ k) (fun k : string => "aleo1" ++ k)
                 (fun _ : string => None) test_decrypt.

Definition alice : Account (PrivateKey:=string) (ViewKey:=string) (Address:=string) :=
  mkAccount "alice-key" "view:alice-key" "aleo1alice-key".
End AccountFixture.

(* ===================================================================== *)
(** * The record scan: proofs *)
(* ===================================================================== *)

(** Evaluate the membership tests on literal strings. *)
Ltac eval_has :=
  repeat match goal with
         | |- context [KeyProvider.has ?s ?t] =>
             let b := eval vm_compute in (KeyProvider.has s t) in
             replace (KeyProvider.has s t) with b by (vm_compute; reflexivity)
         end.

(** Membership of a listed element. *)
Ltac in_list :=
  rewrite ?elem_of_cons; solve [repeat (first [left; reflexivity | right])].

Module ScanProofs.
Import NetworkClient ScanSpec.

Example scan_all :
  (Fixture.test_find 0 None None None None (Fixture.test_world 0)).1
  = Ok [Fixture.rec150; Fixture.rec200].
Proof. vm_compute. reflexivity. Qed.

Example scan_amounts :
  (Fixture.test_find 0 None (Some [100; 1000]) None None (Fixture.test_world 0)).1
  = Ok [Fixture.rec150; Fixture.rec200].
Proof. vm_compute. reflexivity. Qed.

Example scan_failures :
  (Fixture.test_find 0 None None None None (Fixture.test_world 11)).1 = Ok [].
Proof. vm_compute. reflexivity. Qed.

Example scan_failures_10 :
  (Fixture.test_find 0 None None None None (Fixture.test_world 10)).1
  = Ok [Fixture.rec150; Fixture.rec200].
Proof. vm_compute. reflexivity. Qed.

Example scan_budget :
  (Fixture.test_find 0 None None (Some 100) None (Fixture.test_world 0)).1
  = Ok [Fixture.rec150].
Proof. vm_compute. reflexivity. Qed.

Section ForEach.
Context {W S R A : Type}.
Variable I : S -> St W -> Prop.
Variable Q : R -> St W -> Prop.

Lemma for_each_holds (body : A -> S -> M W (Ctl S R)) (l : list A) :
  (forall x s σ, I s σ -> holds I Q (body x s σ)) ->
  forall s σ, I s σ -> holds I Q (for_each l body s σ).
Proof.
  intros Hbody. induction l as [|x l IH]; intros s σ HI; simpl.
  - exact HI.
  - unfold bind. specialize (Hbody x s σ HI).
    destruct (body x s σ) as [[[s'|r]|e] σ']; simpl in *; auto.
Qed.
End ForEach.

Lemma sum_microcredits_snoc recs r :
  sum_microcredits (recs ++ [r]) = sum_microcredits recs + microcredits r.
Proof.
  induction recs as [|x recs IH]; simpl.
  - unfold sum_microcredits. simpl. lia.
  - unfold sum_microcredits in *. simpl. rewrite IH. lia.
Qed.

Lemma below_budget_weaken m n n' recs :
  (n' <= n)%nat -> below_budget m n recs -> below_budget m n' recs.
Proof. intros Hle H k Hk. apply H. lia. Qed.

Lemma below_budget_snoc m recs r :
  below_budget m (length recs) recs ->
  below_budget m (length recs) (recs ++ [r]).
Proof.
  intros H k Hk. rewrite take_app_le by lia. apply H. lia.
Qed.

Lemma below_budget_snoc_full m recs r :
  below_budget m (length recs) recs ->
  sum_microcredits (recs ++ [r]) < m ->
  below_budget m (length (recs ++ [r])) (recs ++ [r]).
Proof.
  intros H Hsum k Hk. rewrite length_app in Hk. simpl in Hk.
  destruct (decide (k <= length recs)%nat) as [Hle|Hgt].
  - rewrite take_app_le by lia. apply H. lia.
  - rewrite take_ge by (rewrite length_app; simpl; lia). exact Hsum.
Qed.

Section Scan.
Context {W PrivateKey ViewKey RecordCiphertext : Type}.
Variable gateway : Request -> W -> option Json * W.
Variable PrivateKey_from_string : string -> option PrivateKey.
Variable to_view_key : PrivateKey -> ViewKey.
Variable RecordCiphertext_fromString : string -> option RecordCiphertext.
Variable isOwner : RecordCiphertext -> ViewKey -> bool.
Variable decrypt : RecordCiphertext -> ViewKey -> option RecordPlaintext.
Variable serialNumberString :
  RecordPlaintext -> PrivateKey -> string -> string -> option string.

Section Loop.
Variable resolvedPrivateKey : PrivateKey.
Variable amounts : option (list Z).
Variable maxMicrocredits : option Z.
Variable nonces : list string.
Variable t0 : list Event.

Abbreviation ok := (accepted_ok gateway serialNumberString resolvedPrivateKey nonces t0).
Abbreviation inv :=
  (scan_inv gateway serialNumberString resolvedPrivateKey maxMicrocredits nonces t0).
Abbreviation post :=
  (scan_post gateway serialNumberString resolvedPrivateKey maxMicrocredits nonces t0).

Lemma accepted_ok_mono recs (σ σ' : St W) evs :
  trace σ' = (trace σ ++ evs)%list -> ok recs σ -> ok recs σ'.
Proof.
  intros Ht [Hn [evs0 [Ht0 Hl]]]. split; [exact Hn|].
  exists (evs0 ++ evs)%list. split.
  - rewrite Ht, Ht0. by rewrite <- app_assoc.
  - intros r Hr. destruct (Hl r Hr) as [sn [Hsn [Hin Hw]]].
    exists sn. split; [exact Hsn|]. split; [|exact Hw]. apply elem_of_app. by left.
Qed.

Lemma scan_inv_mono st (σ σ' : St W) evs :
  trace σ' = (trace σ ++ evs)%list -> inv st σ -> inv st σ'.
Proof. intros Ht [Hok Hb]. split; [by eapply accepted_ok_mono|exact Hb]. Qed.

Lemma scan_inv_post st (σ : St W) : inv st σ -> post (records st) σ.
Proof.
  intros [Hok Hb]. split; [exact Hok|].
  intros m Hm. destruct (Hb m Hm) as [_ H].
  eapply below_budget_weaken; [|exact H]. lia.
Qed.

Lemma check_budget_holds r st (σ : St W) :
  ok (records st ++ [r]) σ ->
  (forall m, maxMicrocredits = Some m ->
     totalRecordValue st = sum_microcredits (records st)
     /\ below_budget m (length (records st)) (records st)) ->
  match check_budget maxMicrocredits r (push r st) with
  | Next st' => inv st' σ /\ records st' = (records st ++ [r])%list
  | Return recs => post recs σ
  end.
Proof.
  intros Hok Hb. unfold check_budget, push. simpl.
  destruct maxMicrocredits as [m|] eqn:Hmax; simpl.
  - destruct (Hb m eq_refl) as [Htot Hbelow].
    destruct (Z.geb_spec (totalRecordValue st + microcredits r) m) as [Hge|Hlt].
    + split; [exact Hok|]. intros m' Hm'. injection Hm' as <-.
      rewrite length_app. simpl.
      replace (length (records st) + 1 - 1)%nat with (length (records st)) by lia.
      by apply below_budget_snoc.
    + split; [|reflexivity]. split; [exact Hok|]. simpl.
      intros m' Hm'. injection Hm' as <-. split.
      * rewrite sum_microcredits_snoc. lia.
      * apply below_budget_snoc_full; [exact Hbelow|].
        rewrite sum_microcredits_snoc. lia.
  - split; [|reflexivity]. split; [exact Hok|]. intros m' Hm'. discriminate.
Qed.

Lemma on_unspent_holds r st (σ : St W) :
  inv st σ -> ok (records st ++ [r]) σ ->
  match on_unspent amounts maxMicrocredits r st with
  | Next st' => inv st' σ
  | Return recs => post recs σ
  end.
Proof.
  intros Hinv Hok. pose proof Hinv as [_ Hb].
  pose proof (check_budget_holds r st σ Hok Hb) as Hcb.
  unfold on_unspent, accept_any, accept_matching.
  destruct amounts as [l|].
  - destruct (0 <? length l)%nat; [|exact Hinv].
    destruct (l !! 0%nat) as [a|]; [|exact Hinv].
    destruct (microcredits r >? a); [|exact Hinv].
    destruct (check_budget maxMicrocredits r (push r st)) as [st'|recs]; [|exact Hcb].
    destruct Hcb as [Hinv' _].
    destruct (length l <=? length (records st'))%nat; [|exact Hinv'].
    by apply scan_inv_post.
  - destruct (check_budget maxMicrocredits r (push r st)) as [st'|recs]; [|exact Hcb].
    by destruct Hcb.
Qed.

Abbreviation check_output' :=
  (check_output gateway to_view_key RecordCiphertext_fromString isOwner decrypt
                serialNumberString resolvedPrivateKey amounts maxMicrocredits nonces).
Abbreviation check_block' :=
  (check_block gateway to_view_key RecordCiphertext_fromString isOwner decrypt
               serialNumberString resolvedPrivateKey amounts maxMicrocredits nonces).

Lemma check_output_holds output st (σ : St W) :
  inv st σ -> holds inv post (check_output' output st σ).
Proof.
  intros Hinv. unfold check_output.
  destruct (String.eqb _ _); [|exact Hinv].
  destruct (RecordCiphertext_fromString _) as [record|]; [|exact Hinv].
  destruct (isOwner _ _); [|exact Hinv].
  destruct (decrypt _ _) as [r|]; [|exact Hinv].
  case_bool_decide as Hnonce; [exact Hinv|].
  destruct (serialNumberString _ _ _ _) as [sn|] eqn:Hsn; [|exact Hinv].
  unfold try_, bind, getTransitionId, try_, fetchData, call, ret, throw.
  destruct (gateway (ReqTransitionId sn) (world σ)) as [[j|] w'] eqn:Hg; simpl.
  - eapply scan_inv_mono; [|exact Hinv]. reflexivity.
  - set (σ' := mkSt w' (trace σ ++ [EvFetch (ReqTransitionId sn) false])).
    assert (Hinv' : inv st σ') by (eapply scan_inv_mono; [|exact Hinv]; reflexivity).
    assert (Hok : ok (records st ++ [r]) σ').
    { destruct Hinv as [[Hn [evs [Ht Hl]]] _]. split.
      - intros r' [Hr'|Hr']%elem_of_app; [by apply Hn|].
        apply list_elem_of_singleton in Hr'. by subst.
      - exists (evs ++ [EvFetch (ReqTransitionId sn) false])%list. split.
        + simpl. rewrite Ht. by rewrite <- app_assoc.
        + intros r' [Hr'|Hr']%elem_of_app.
          * destruct (Hl r' Hr') as [sn' [Hsn' [Hin Hw]]]. exists sn'.
            split; [exact Hsn'|]. split; [|exact Hw]. apply elem_of_app. by left.
          * apply list_elem_of_singleton in Hr'. subst r'. exists sn.
            split; [exact Hsn|]. split.
            -- apply elem_of_app. right. by apply list_elem_of_singleton.
            -- exists (world σ). by rewrite Hg. }
    pose proof (on_unspent_holds r st σ' Hinv' Hok) as H.
    destruct (on_unspent amounts maxMicrocredits r st); exact H.
Qed.

Lemma check_block_holds block st (σ : St W) :
  inv st σ -> holds inv post (check_block' block st σ).
Proof.
  intros Hinv. unfold check_block.
  destruct (block_transactions block) as [transactions|]; [|exact Hinv].
  apply for_each_holds; [|exact Hinv]. clear. intros tx st σ Hinv.
  unfold check_transaction.
  destruct (String.eqb _ _); [|exact Hinv].
  destruct (transaction_execution _) as [execution|]; [|exact Hinv].
  destruct (execution_transitions execution) as [transitions|]; [|exact Hinv].
  apply for_each_holds; [|exact Hinv]. clear. intros transition st σ Hinv.
  unfold check_transition.
  destruct (negb _); [exact Hinv|].
  destruct (transition_outputs transition) as [outputs|]; [|exact Hinv].
  apply for_each_holds; [|exact Hinv]. clear. intros output st σ Hinv.
  by apply check_output_holds.
Qed.

Abbreviation scan_chunk' :=
  (scan_chunk gateway to_view_key RecordCiphertext_fromString isOwner decrypt
              serialNumberString resolvedPrivateKey amounts maxMicrocredits nonces).
Abbreviation scan_loop' :=
  (scan_loop gateway to_view_key RecordCiphertext_fromString isOwner decrypt
             serialNumberString resolvedPrivateKey amounts maxMicrocredits nonces).

Lemma scan_chunk_holds start end_ st (σ : St W) :
  inv st σ ->
  match scan_chunk' start end_ st σ with
  | (Ok (inl c), σ') => holds inv post (Ok c, σ')
  | (Ok (inr _), σ') =>
      inv st σ' /\ (gateway (ReqBlockRange start end_) (world σ)).1 = None
  | (Throw _, _) => False
  end.
Proof.
  intros Hinv. unfold scan_chunk, try_, bind, getBlockRange, try_, fetchData, call.
  destruct (gateway (ReqBlockRange start end_) (world σ)) as [[j|] w']; simpl.
  - set (σ1 := mkSt w' (trace σ ++ [EvFetch (ReqBlockRange start end_) true])).
    assert (Hinv1 : inv st σ1) by (eapply scan_inv_mono; [|exact Hinv]; reflexivity).
    pose proof (for_each_holds inv post check_block' (blocks_of j)
                  (fun b s σ H => check_block_holds b s σ H) st σ1 Hinv1) as H.
    destruct (for_each (blocks_of j) check_block' st σ1) as [[c|e] σ2]; simpl in *.
    + exact H.
    + destruct H.
  - split; [|reflexivity]. eapply scan_inv_mono; [|exact Hinv]. reflexivity.
Qed.

Lemma scan_loop_holds fuel : forall startHeight end_ failures st (σ : St W),
  inv st σ -> 0 <= failures <= 10 ->
  (Z.to_nat (end_ - startHeight) + Z.to_nat (11 - failures) <= fuel)%nat ->
  exists recs σ',
    scan_loop' fuel startHeight end_ failures st σ = (Ok (Some recs), σ')
    /\ post recs σ'.
Proof.
  induction fuel as [|fuel IH]; intros startHeight end_ failures st σ Hinv Hf Hfuel.
  - lia.
  - simpl. destruct (Z.gtb_spec end_ startHeight) as [Hgt|Hle].
    + set (start := if end_ - 50 <? startHeight then startHeight else end_ - 50).
      assert (Hstart : startHeight <= start < end_).
      { unfold start. destruct (Z.ltb_spec (end_ - 50) startHeight); lia. }
      unfold bind at 1.
      pose proof (scan_chunk_holds start end_ st σ Hinv) as Hc.
      destruct (scan_chunk' start end_ st σ) as [[[[st'|recs]|e]|e] σ1]; simpl in Hc.
      * apply IH; [exact Hc|exact Hf|lia].
      * exists recs, σ1. by split.
      * destruct Hc as [Hinv1 _].
        unfold bind at 1, emit at 1. unfold bind at 1, emit at 1. cbn [world trace].
        set (σ2 := mkSt (world σ1) _).
        assert (Hinv2 : inv st σ2).
        { eapply (scan_inv_mono st σ1 σ2 [_; _]); [|exact Hinv1].
          subst σ2. cbn [trace]. by rewrite <- app_assoc. }
        destruct (Z.gtb_spec (failures + 1) 10) as [Hmany|Hfew].
        -- eexists (records st), _. split; [reflexivity|].
           apply scan_inv_post. eapply scan_inv_mono; [|exact Hinv2]. reflexivity.
        -- apply IH; [exact Hinv2|lia|lia].
      * destruct Hc.
    + exists (records st), σ. split; [reflexivity|]. by apply scan_inv_post.
Qed.



End Loop.
Abbreviation findUnspentRecords' :=
  (findUnspentRecords gateway PrivateKey_from_string to_view_key
     RecordCiphertext_fromString isOwner decrypt serialNumberString).

(** A call that returns a list returns one the scan accepted record by
    record; in particular the loop never ran out of fuel. *)
Lemma findUnspentRecords_post account startHeight endHeight privateKey amounts
      maxMicrocredits nonces (σ σ' : St W) recs :
  findUnspentRecords' account startHeight endHeight privateKey amounts
                      maxMicrocredits nonces σ = (Ok recs, σ') ->
  exists pk,
    resolved_key PrivateKey_from_string account privateKey = Some pk
    /\ scan_post gateway serialNumberString pk maxMicrocredits (default [] nonces)
                 (trace σ) recs σ'.
Proof.
  unfold findUnspentRecords.
  destruct (startHeight <? 0); [discriminate|].
  unfold bind at 1.
  set (resolve := match privateKey with
                  | PKUndefined => _ | PKObject k => _ | PKString s => _ end).
  assert (Hres : (exists pk, resolved_key PrivateKey_from_string account privateKey = Some pk
                             /\ resolve σ = (Ok pk, σ))
                 \/ exists e, resolve σ = (Throw e, σ)).
  { unfold resolve, resolved_key, ret, throw.
    destruct privateKey as [|k|s].
    - destruct account; eauto.
    - eauto.
    - destruct (PrivateKey_from_string s); eauto. }
  destruct Hres as [[pk [Hpk ->]]|[e ->]]; [|discriminate].
  unfold bind at 1, try_ at 1, bind at 1, getLatestHeight, try_, fetchData, call.
  destruct (gateway ReqLatestHeight (world σ)) as [[j|] w1]; simpl; [|discriminate].
  destruct j as [latestHeight| | |]; simpl; try discriminate.
  set (end_ := match endHeight with
               | Some e => if e <=? latestHeight then e else latestHeight
               | None => latestHeight
               end).
  destruct (Z.gtb_spec startHeight end_) as [|Hle]; [discriminate|].
  set (σ1 := mkSt w1 (trace σ ++ [EvFetch ReqLatestHeight true])).
  assert (Hinv : scan_inv gateway serialNumberString pk maxMicrocredits
                          (default [] nonces) (trace σ) (mkScan [] 0) σ1).
  { split; [split|].
    - intros r Hr. by apply elem_of_nil in Hr.
    - exists [EvFetch ReqLatestHeight true]. split; [reflexivity|].
      intros r Hr. by apply elem_of_nil in Hr.
    - intros m _. split; [reflexivity|]. intros k Hk. simpl in Hk. lia. }
  destruct (scan_loop_holds pk amounts maxMicrocredits (default [] nonces) (trace σ)
              (scan_fuel startHeight end_) startHeight end_ 0 (mkScan [] 0) σ1 Hinv)
    as [recs' [σ2 [Hrun Hpost]]]; [lia|unfold scan_fuel; lia|].
  unfold bind. rewrite Hrun. unfold ret. intros [= <- <-].
  exists pk. by split.
Qed.

(** The lookup made by [getTransitionId] is recorded with its outcome: the
    call throws exactly when the event says "not found". *)
Lemma getTransitionId_event id (σ : St W) :
  let res := getTransitionId gateway id σ in
  trace res.2 = (trace σ ++ [EvFetch (ReqTransitionId id) (is_ok res.1)])%list
  /\ (is_ok res.1 = false <-> (gateway (ReqTransitionId id) (world σ)).1 = None).
Proof.
  unfold getTransitionId, try_, fetchData, call, throw.
  destruct (gateway (ReqTransitionId id) (world σ)) as [[j|] w']; simpl;
    split; try reflexivity; split; congruence.
Qed.

(** C1 (findUnspentRecords returns unspent records only).  When a call to
    [findUnspentRecords] returns a list, every record of the list had its
    serial number looked up through [getTransitionId] during the call and
    the lookup failed ("not found"); a record whose serial number was never
    reported not-found during the call, in particular one whose lookup
    succeeded, is not in the list.  So when the node's answer depends on
    the serial number alone, no returned record is one it reports spent. *)
Theorem findUnspentRecords_only_unspent account startHeight endHeight privateKey
        amounts maxMicrocredits nonces (σ σ' : St W) recs :
  findUnspentRecords' account startHeight endHeight privateKey amounts
                      maxMicrocredits nonces σ = (Ok recs, σ') ->
  exists pk evs,
    resolved_key PrivateKey_from_string account privateKey = Some pk
    /\ trace σ' = (trace σ ++ evs)%list
    /\ (forall r, r ∈ recs -> lookup_failed gateway serialNumberString pk evs r)
    /\ (forall r sn,
          serialNumberString r pk "credits.aleo" "credits" = Some sn ->
          EvFetch (ReqTransitionId sn) false ∉ evs -> r ∉ recs)
    /\ (forall spent : string -> bool,
          (forall sn w, (gateway (ReqTransitionId sn) w).1 = None <-> spent sn = false) ->
          forall r sn,
            serialNumberString r pk "credits.aleo" "credits" = Some sn ->
            spent sn = true -> r ∉ recs).
Proof.
  intros Hcall.
  destruct (findUnspentRecords_post _ _ _ _ _ _ _ _ _ _ Hcall)
    as [pk [Hpk [[_ [evs [Ht Hl]]] _]]].
  exists pk, evs. repeat split; try assumption.
  - intros r sn Hsn Hnot Hin.
    destruct (Hl r Hin) as [sn' [Hsn' [Hev _]]]. congruence.
  - intros spent Hspent r sn Hsn Htrue Hin.
    destruct (Hl r Hin) as [sn' [Hsn' [_ [w Hw]]]].
    assert (sn' = sn) by congruence. subst sn'.
    apply Hspent in Hw. congruence.
Qed.


(** C6 (exclusion list).  No returned record has a nonce of the exclusion
    list; hence a second call whose exclusion list holds the first list's
    entries and every nonce the first call returned shares no nonce with
    the first call's result, from whatever state it is made. *)
Theorem findUnspentRecords_excludes_nonces account startHeight endHeight privateKey
        amounts maxMicrocredits nonces (σ σ' : St W) recs :
  findUnspentRecords' account startHeight endHeight privateKey amounts
                      maxMicrocredits nonces σ = (Ok recs, σ') ->
  (forall r, r ∈ recs -> nonce r ∉ default [] nonces)
  /\ (forall nonces2 (σ2 σ2' : St W) recs2,
        (forall r, r ∈ recs -> nonce r ∈ nonces2) ->
        findUnspentRecords' account startHeight endHeight privateKey amounts
                            maxMicrocredits (Some nonces2) σ2 = (Ok recs2, σ2') ->
        forall r1 r2, r1 ∈ recs -> r2 ∈ recs2 -> nonce r1 <> nonce r2).
Proof.
  intros Hcall.
  destruct (findUnspentRecords_post _ _ _ _ _ _ _ _ _ _ Hcall)
    as [pk [_ [[Hn _] _]]].
  split; [exact Hn|].
  intros nonces2 σ2 σ2' recs2 Hsub Hcall2 r1 r2 Hr1 Hr2 Heq.
  destruct (findUnspentRecords_post _ _ _ _ _ _ _ _ _ _ Hcall2)
    as [pk2 [_ [[Hn2 _] _]]].
  apply (Hn2 r2 Hr2). simpl. rewrite <- Heq. by apply Hsub.
Qed.




End Scan.

Lemma findUnspentRecords_only_unspent_witness :
  exists pk evs,
    resolved_key Fixture.test_key_from_string None (PKString "alice") = Some pk
    /\ trace (Fixture.test_find 0 None None None None (Fixture.test_world 0)).2
       = (trace (Fixture.test_world 0) ++ evs)%list
    /\ (forall r, r ∈ [Fixture.rec150; Fixture.rec200] ->
                  lookup_failed Fixture.test_gateway Fixture.test_serial pk evs r)
    /\ (forall r sn,
          Fixture.test_serial r pk "credits.aleo" "credits" = Some sn ->
          EvFetch (ReqTransitionId sn) false ∉ evs ->
          r ∉ [Fixture.rec150; Fixture.rec200])
    /\ (forall spent : string -> bool,
          (forall sn w, (Fixture.test_gateway (ReqTransitionId sn) w).1 = None
                        <-> spent sn = false) ->
          forall r sn,
            Fixture.test_serial r pk "credits.aleo" "credits" = Some sn ->
            spent sn = true -> r ∉ [Fixture.rec150; Fixture.rec200]).
Proof.
  apply (findUnspentRecords_only_unspent Fixture.test_gateway
           Fixture.test_key_from_string Fixture.test_to_view_key
           Fixture.test_fromString Fixture.test_isOwner Fixture.test_decrypt
           Fixture.test_serial None 0 None (PKString "alice") None None None
           (Fixture.test_world 0)).
  vm_compute. reflexivity.
Defined.


Lemma findUnspentRecords_excludes_nonces_witness :
  (forall r, r ∈ [Fixture.rec200] -> nonce r ∉ ["n150"])
  /\ (forall r1 r2, r1 ∈ [Fixture.rec200] -> r2 ∈ [Fixture.rec150] ->
                    nonce r1 <> nonce r2).
Proof.
  destruct (findUnspentRecords_excludes_nonces Fixture.test_gateway
              Fixture.test_key_from_string Fixture.test_to_view_key
              Fixture.test_fromString Fixture.test_isOwner Fixture.test_decrypt
              Fixture.test_serial None 0 None (PKString "alice") None None
              (Some ["n150"]) (Fixture.test_world 0)
              (Fixture.test_find 0 None None None (Some ["n150"]) (Fixture.test_world 0)).2
              [Fixture.rec200])
    as [Hex Htwo].
  - vm_compute. reflexivity.
  - split; [exact Hex|].
    apply (Htwo ["n200"] (Fixture.test_world 0)
             (Fixture.test_find 0 None None None (Some ["n200"]) (Fixture.test_world 0)).2
             [Fixture.rec150]).
    + intros r Hr. apply list_elem_of_singleton in Hr. subst r.
      apply list_elem_of_singleton. reflexivity.
    + vm_compute. reflexivity.
Defined.


(** With targets, the accepting step reads the first target and the number
    of targets, and nothing else of the list. *)
Lemma on_unspent_reads_first_target a l l' maxMicrocredits r st :
  length l = length l' ->
  on_unspent (Some (a :: l)) maxMicrocredits r st
  = on_unspent (Some (a :: l')) maxMicrocredits r st.
Proof.
  intros Hlen. unfold on_unspent, accept_any, accept_matching. simpl.
  rewrite Hlen. reflexivity.
Qed.

(** C2 (target amounts), on the code: with targets [100; 1000] the scan of
    the test ledger accepts the 150 record against the first target and
    then the 200 record, which does not exceed the next unmatched target
    1000: every candidate is compared with the first target. *)
Theorem findUnspentRecords_compares_first_target_only :
  (Fixture.test_find 0 None (Some [100; 1000]) None None (Fixture.test_world 0)).1
  = Ok [Fixture.rec150; Fixture.rec200]
  /\ microcredits Fixture.rec200 <= 1000
  /\ microcredits Fixture.rec200 > 100.
Proof. vm_compute. repeat split; discriminate. Qed.

End ScanProofs.

(* ===================================================================== *)
(** * NetworkRecordProvider: proofs *)
(* ===================================================================== *)

Module RecordProviderProofs.
Import NetworkClient RecordProvider.

Example search_default :
  (Fixture.test_findCreditsRecords [100] [] None (Fixture.test_world 0)).1
  = Ok [Fixture.rec150].
Proof. vm_compute. reflexivity. Qed.

Example search_range :
  (Fixture.test_findCreditsRecords [100] [] (Some (BlockHeightSearch 2 3))
     (Fixture.test_world 0)).1
  = Ok [Fixture.rec200].
Proof. vm_compute. reflexivity. Qed.

Section Provider.
Context {W PrivateKey ViewKey RecordCiphertext : Type}.
Variable gateway : Request -> W -> option Json * W.
Variable PrivateKey_from_string : string -> option PrivateKey.
Variable to_view_key : PrivateKey -> ViewKey.
Variable RecordCiphertext_fromString : string -> option RecordCiphertext.
Variable isOwner : RecordCiphertext -> ViewKey -> bool.
Variable decrypt : RecordCiphertext -> ViewKey -> option RecordPlaintext.
Variable serialNumberString :
  RecordPlaintext -> PrivateKey -> string -> string -> option string.
Variable account_privateKey : PrivateKey.
Variable client_account : option PrivateKey.

Abbreviation findCreditsRecords' :=
  (findCreditsRecords gateway PrivateKey_from_string to_view_key
     RecordCiphertext_fromString isOwner decrypt serialNumberString
     account_privateKey client_account).
Abbreviation scan' :=
  (findUnspentRecords gateway PrivateKey_from_string to_view_key
     RecordCiphertext_fromString isOwner decrypt serialNumberString
     client_account).

End Provider.

End RecordProviderProofs.

(* ===================================================================== *)
(** * AleoKeyProvider: proofs *)
(* ===================================================================== *)

Module KeyProofs.
Import KeyProvider.

Example fetch_and_store :
  (KeyFixture.test_functionKeys (useCache new_AleoKeyProvider true)
     (KeyFixture.search_params
        [("proverUri", VString "https://keys.example/hello.prover");
         ("verifierUri", VString "https://keys.example/hello.verifier")])
     KeyFixture.test_server).1
  = Ok (Val (KeyFixture.hello_prover, Val KeyFixture.hello_verifier),
        mkProvider {[ "https://keys.example/hello.prover"
                      := (KeyFixture.hello_prover, KeyFixture.hello_verifier) ]} true).
Proof. vm_compute. reflexivity. Qed.

Example cached_join :
  (KeyFixture.test_functionKeys KeyFixture.provider_with_join
     (KeyFixture.search_params [("cacheKey", VString "credits.aleo/join")])
     KeyFixture.test_server).1
  = Ok (Val (KeyFixture.join_prover, Val (KeyFixture.builtin_verifier join)),
        KeyFixture.provider_with_join).
Proof. vm_compute. reflexivity. Qed.

Example no_params :
  (KeyFixture.test_functionKeys KeyFixture.provider_with_join
     (KeyFixture.search_params []) KeyFixture.test_server).1
  = Throw (Error "Invalid parameters provided, must provide either a cacheKey and/or a proverUrl and a verifierUrl").
Proof. vm_compute. reflexivity. Qed.


Section Provider.
Context {W ProvingKey VerifyingKey : Type}.
Variable http_get : string -> W -> option bytes * W.
Variable ProvingKey_fromBytes : bytes -> option ProvingKey.
Variable ProvingKey_toBytes : ProvingKey -> bytes.
Variable VerifyingKey_fromBytes : bytes -> option VerifyingKey.
Variable VerifyingKey_fromString : string -> option VerifyingKey.
Variable VerifyingKey_toBytes : VerifyingKey -> bytes.
Variable verifyingKey : CreditsFunction -> VerifyingKey.

Abbreviation functionKeys' :=
  (functionKeys http_get ProvingKey_fromBytes ProvingKey_toBytes
                VerifyingKey_fromBytes VerifyingKey_fromString
                VerifyingKey_toBytes verifyingKey).
Abbreviation fetchKeys' :=
  (fetchKeys http_get ProvingKey_fromBytes ProvingKey_toBytes
             VerifyingKey_fromBytes VerifyingKey_fromString
             VerifyingKey_toBytes verifyingKey).
Abbreviation getKeys' :=
  (getKeys (W:=W) ProvingKey_fromBytes VerifyingKey_fromBytes).
Abbreviation getVerifyingKey' :=
  (getVerifyingKey http_get VerifyingKey_fromBytes VerifyingKey_fromString
                   verifyingKey).
Abbreviation cacheKeys' := (cacheKeys ProvingKey_toBytes VerifyingKey_toBytes).


(** Caching on and the key cached: the cached pair, without any fetch. *)
Lemma fetchKeys_cache_hit this pu vu ck pb vb pk vk (σ : St W) :
  cacheOption this = true ->
  cache this !! (if truthy ck then default "" ck else pu) = Some (pb, vb) ->
  ProvingKey_fromBytes pb = Some pk -> VerifyingKey_fromBytes vb = Some vk ->
  fetchKeys' this pu vu ck σ = (Ok ((pk, Val vk), this), σ).
Proof.
  intros Hopt Hhit Hpk Hvk. unfold fetchKeys, try_. rewrite Hopt, Hhit. simpl.
  unfold bind, provingKey_of, verifyingKey_of. rewrite Hpk, Hvk. reflexivity.
Qed.






End Provider.
End KeyProofs.

(* ===================================================================== *)
(** * ProgramManager: proofs *)
(* ===================================================================== *)

Module ManagerProofs.
Import ProgramManager ManagerSpec.

Example run_without_keys :
  (ManagerFixture.test_run ManagerFixture.throwing_keyProvider ManagerFixture.start).1
  = Ok "execution-response".
Proof. vm_compute. reflexivity. Qed.

Example execute_without_keys :
  ManagerFixture.test_execute ManagerFixture.missing_keyProvider ManagerFixture.start
  = (Ok "execute-transaction",
     mkSt 4%nat
       [ EvGetProgram "hello_hello.aleo"; EvFeeKeys false; EvFunctionKeys;
         EvLog (keys_not_found_message (TypeError "keys is not iterable"));
         EvEngine (EngineExecute false false) ]).
Proof. vm_compute. reflexivity. Qed.

Example transfer_private_trace :
  trace (ManagerFixture.test_transfer 1000 "private" 7 true RecUndefined RecUndefined
           ManagerFixture.start).2
  = [ EvFeeKeys true; EvTransferKeys "private";
      EvFindCreditsRecord 7 []; EvFindCreditsRecord 7 ["n150"];
      EvEngine (EngineTransfer "private" (Some (Val Fixture.rec150))
                               (Some (Val Fixture.rec200))) ].
Proof. vm_compute. reflexivity. Qed.

Example transfer_public_trace :
  trace (ManagerFixture.test_transfer 1000 "public" 7 true RecUndefined RecUndefined
           ManagerFixture.start).2
  = [ EvFeeKeys true; EvTransferKeys "public"; EvFindCreditsRecord 7 [];
      EvEngine (EngineTransfer "public" None (Some (Val Fixture.rec150))) ].
Proof. vm_compute. reflexivity. Qed.

Section Steps.
Context {W A B : Type}.

Lemma bind_ok (m : M W A) (f : A -> M W B) σ a σ' :
  m σ = (Ok a, σ') -> bind m f σ = f a σ'.
Proof. intros H. unfold bind. by rewrite H. Qed.

Lemma bind_throw (m : M W A) (f : A -> M W B) σ e σ' :
  m σ = (Throw e, σ') -> bind m f σ = (Throw e, σ').
Proof. intros H. unfold bind. by rewrite H. Qed.

Lemma try_ok (m : M W A) (h : exn -> M W A) σ a σ' :
  m σ = (Ok a, σ') -> try_ m h σ = (Ok a, σ').
Proof. intros H. unfold try_. by rewrite H. Qed.

Lemma try_throw (m : M W A) (h : exn -> M W A) σ e σ' :
  m σ = (Throw e, σ') -> try_ m h σ = h e σ'.
Proof. intros H. unfold try_. by rewrite H. Qed.
End Steps.

Lemma validateTransferType_ok {W} transferType (σ : St W) :
  KeyProvider.has VALID_TRANSFER_TYPES transferType = true ->
  validateTransferType transferType σ = (Ok transferType, σ).
Proof. intros H. unfold validateTransferType. by rewrite H. Qed.

Section Manager.
Context {W ProvingKey VerifyingKey PrivateKey Imports OfflineQuery Tx Response : Type}.
Context {keyProvider : FunctionKeyProvider W ProvingKey VerifyingKey}.
Variable recordProvider : option (RecordProvider W).
Variable account : option PrivateKey.
Variable host : string.
Variable getProgram : string -> W -> Res string * W.
Variable getProgramImports : string -> W -> Res Imports * W.
Variable RecordPlaintext_fromString : string -> option RecordPlaintext.
Variable Program_imports_length : string -> option nat.
Variable engine_buildExecutionTransaction :
  ExecuteArgs (ProvingKey:=ProvingKey) (VerifyingKey:=VerifyingKey)
              (PrivateKey:=PrivateKey) (Imports:=Imports)
              (OfflineQuery:=OfflineQuery) -> W -> Res Tx * W.
Variable engine_executeFunctionOffline :
  RunArgs (ProvingKey:=ProvingKey) (VerifyingKey:=VerifyingKey)
          (PrivateKey:=PrivateKey) (Imports:=Imports)
          (OfflineQuery:=OfflineQuery) -> W -> Res Response * W.
Variable engine_buildTransferTransaction :
  TransferArgs (ProvingKey:=ProvingKey) (VerifyingKey:=VerifyingKey)
               (PrivateKey:=PrivateKey) (OfflineQuery:=OfflineQuery) -> W -> Res Tx * W.

Abbreviation run' := (run account host engine_executeFunctionOffline).
Abbreviation buildExecutionTransaction' :=
  (buildExecutionTransaction recordProvider account host getProgram getProgramImports
     RecordPlaintext_fromString Program_imports_length
     engine_buildExecutionTransaction).
Abbreviation buildTransferTransaction' :=
  (buildTransferTransaction recordProvider account host RecordPlaintext_fromString
     engine_buildTransferTransaction).

Lemma resolve_private_key_ok privateKey k (σ : St W) :
  resolved_private_key account privateKey = Some k ->
  resolve_private_key account privateKey σ = (Ok k, σ).
Proof.
  unfold resolved_private_key, resolve_private_key.
  destruct privateKey; [by intros [= ->]|]. by intros ->.
Qed.




(** The record provider is consulted when there is no usable explicit
    record; the call is recorded with its target and exclusion list. *)
Lemma getCreditsRecord_lookup rp amount nonces record params x w' (σ : St W) :
  recordProvider = Some rp ->
  no_explicit_record RecordPlaintext_fromString record ->
  rp_findCreditsRecord amount true nonces params (world σ) = (Ok x, w') ->
  getCreditsRecord recordProvider RecordPlaintext_fromString amount nonces record params σ
  = (Ok x, mkSt w' (trace σ ++ [EvFindCreditsRecord amount nonces])).
Proof.
  intros Hrp Hno Hfind. unfold getCreditsRecord. rewrite Hrp.
  assert (Hparse : exists e,
             match record with
             | RecObject r => ret (Val r)
             | RecString s =>
                 match RecordPlaintext_fromString s with
                 | Some r => ret (Val r)
                 | None => throw (Error "invalid record string")
                 end
             | RecUndefined => throw (Error "invalid record string")
             end σ = (Throw e, σ)).
  { destruct record as [|r|s]; simpl in Hno.
    - by eexists.
    - destruct Hno.
    - rewrite Hno. by eexists. }
  destruct Hparse as [e He].
  unfold try_ at 1. rewrite He.
  apply try_ok. unfold call. by rewrite Hfind.
Qed.

Lemma transfer_keys_ok transferType (privateFee : bool) fk tk w1 w2 h (σ : St W) :
  (if privateFee then kp_feePrivateKeys (world σ) else kp_feePublicKeys (world σ))
  = (Ok fk, w1) ->
  kp_transferKeys transferType w1 = (Ok tk, w2) ->
  try_ (do feeKeys <- feeKeys_of privateFee;
        do transferKeys <- call (kp_transferKeys transferType)
                                (fun _ => EvTransferKeys transferType);
        ret (feeKeys, transferKeys)) h σ
  = (Ok (fk, tk),
     mkSt w2 (trace σ ++ [EvFeeKeys privateFee; EvTransferKeys transferType])).
Proof.
  intros Hfee Htk. apply try_ok.
  unfold bind, feeKeys_of, call, ret.
  destruct privateFee; rewrite Hfee; simpl; rewrite Htk; simpl;
    by rewrite <- app_assoc.
Qed.

(** C9 (the amount record is searched by the fee).  For a transfer kind
    that consumes a private input, with no usable explicit amount record,
    the record provider is asked for a record of [fee] microcredits (the
    [amount] argument plays no part in the lookup) with an empty exclusion
    list; the record found is the engine's amount record, and when the fee
    is private and no usable fee record is given, the next lookup, again
    for [fee], excludes exactly that record's nonce. *)
Theorem buildTransferTransaction_amount_lookup rp amount recipient transferType fee
        (privateFee : bool) params amountRecord feeRecord privateKey offlineQuery
        k fk tk w1 w2 r w3 (σ : St W) :
  recordProvider = Some rp ->
  KeyProvider.has VALID_TRANSFER_TYPES transferType = true ->
  requiresAmountRecord transferType = true ->
  resolved_private_key account privateKey = Some k ->
  no_explicit_record RecordPlaintext_fromString amountRecord ->
  (if privateFee then kp_feePrivateKeys (world σ) else kp_feePublicKeys (world σ))
  = (Ok (Val fk), w1) ->
  kp_transferKeys transferType w1 = (Ok (Val tk), w2) ->
  rp_findCreditsRecord fee true [] params w2 = (Ok (Val r), w3) ->
  (privateFee = false ->
   buildTransferTransaction' amount recipient transferType fee privateFee params
                             amountRecord feeRecord privateKey offlineQuery σ
   = call (engine_buildTransferTransaction
             (mkTransferArgs k amount recipient transferType (Some (Val r)) fee None
                host tk.1 tk.2 fk.1 fk.2 offlineQuery))
          (fun _ => EvEngine (EngineTransfer transferType (Some (Val r)) None))
          (mkSt w3 (trace σ ++ [EvFeeKeys false; EvTransferKeys transferType;
                                EvFindCreditsRecord fee []])))
  /\ (privateFee = true ->
      no_explicit_record RecordPlaintext_fromString feeRecord ->
      forall fr w4,
        rp_findCreditsRecord fee true [nonce r] params w3 = (Ok fr, w4) ->
        buildTransferTransaction' amount recipient transferType fee privateFee params
                                  amountRecord feeRecord privateKey offlineQuery σ
        = call (engine_buildTransferTransaction
                  (mkTransferArgs k amount recipient transferType (Some (Val r)) fee
                     (Some fr) host tk.1 tk.2 fk.1 fk.2 offlineQuery))
               (fun _ => EvEngine (EngineTransfer transferType (Some (Val r)) (Some fr)))
               (mkSt w4 (trace σ ++ [EvFeeKeys true; EvTransferKeys transferType;
                                     EvFindCreditsRecord fee [];
                                     EvFindCreditsRecord fee [nonce r]]))).
Proof.
  intros Hrp Hvalid Hreq Hk Hno Hfee Htk Hfind.
  set (σ2 := mkSt w2 (trace σ ++ [EvFeeKeys privateFee; EvTransferKeys transferType])).
  assert (Hamount :
            getCreditsRecord recordProvider RecordPlaintext_fromString fee [] amountRecord
                             params σ2
            = (Ok (Val r), mkSt w3 (trace σ2 ++ [EvFindCreditsRecord fee []])))
    by (by eapply getCreditsRecord_lookup).
  assert (Hstart : forall rest : string -> M W Tx,
             (do t <- validateTransferType transferType; rest t) σ = rest transferType σ).
  { intros rest. by erewrite bind_ok by (by apply validateTransferType_ok). }
  destruct fk as [feeProvingKey feeVerifyingKey].
  destruct tk as [transferProvingKey transferVerifyingKey].
  split.
  - intros ->. unfold buildTransferTransaction. rewrite Hstart.
    erewrite bind_ok by (by apply resolve_private_key_ok).
    erewrite bind_ok by (by eapply transfer_keys_ok).
    cbn [fst snd destructure]. unfold bind at 1, ret at 1. unfold bind at 1, ret at 1.
    erewrite bind_ok.
    2:{ apply try_ok. rewrite Hreq. fold σ2.
        erewrite bind_ok.
        2:{ erewrite bind_ok by exact Hamount. reflexivity. }
        cbn beta iota. unfold bind, ret. reflexivity. }
    unfold call. cbn [world trace].
    destruct (engine_buildTransferTransaction _ _) as [res w']. subst σ2. cbn [trace].
    by rewrite <- !app_assoc.
  - intros -> Hnofee fr w4 Hfeefind. unfold buildTransferTransaction. rewrite Hstart.
    erewrite bind_ok by (by apply resolve_private_key_ok).
    erewrite bind_ok by (by eapply transfer_keys_ok).
    cbn [fst snd destructure]. unfold bind at 1, ret at 1. unfold bind at 1, ret at 1.
    erewrite bind_ok.
    2:{ apply try_ok. rewrite Hreq. fold σ2.
        erewrite bind_ok.
        2:{ erewrite bind_ok by exact Hamount. reflexivity. }
        cbn beta iota.
        erewrite bind_ok.
        2:{ erewrite bind_ok by (by eapply getCreditsRecord_lookup). reflexivity. }
        reflexivity. }
    unfold call. cbn [world trace].
    destruct (engine_buildTransferTransaction _ _) as [res w']. subst σ2. cbn [trace].
    by rewrite <- !app_assoc.
Qed.

(** For a kind that consumes no private input, whatever the providers and
    the engine answer: at most one record lookup is made, and only for a
    private fee; a lookup asks for [fee] with nothing excluded; and the
    engine is handed no amount record. *)
Lemma public_transfer_quiet amount recipient transferType fee (privateFee : bool)
      params amountRecord feeRecord privateKey offlineQuery (σ : St W) :
  KeyProvider.has VALID_TRANSFER_TYPES transferType = true ->
  requiresAmountRecord transferType = false ->
  exists evs,
    trace (buildTransferTransaction' amount recipient transferType fee privateFee params
             amountRecord feeRecord privateKey offlineQuery σ).2
    = (trace σ ++ evs)%list
    /\ (lookups evs <= if privateFee then 1 else 0)%nat
    /\ Forall (amount_side_quiet fee) evs.
Proof.
  intros Hvalid Hreq. unfold buildTransferTransaction.
  rewrite (bind_ok _ _ σ transferType σ (validateTransferType_ok _ _ Hvalid)).
  rewrite Hreq.
  unfold bind, try_, resolve_private_key, feeKeys_of, getCreditsRecord, destructure,
    logAndThrow, call, emit, ret, throw, bind, try_.
  repeat (match goal with
          | |- context [match ?x with _ => _ end] =>
              lazymatch x with
              | context [match _ with _ => _ end] => fail
              | _ => destruct x
              end
          end; simpl).
  all: eexists; split;
    [rewrite <- ?app_assoc; first [reflexivity | symmetry; apply app_nil_r]
    |split; [simpl; lia | simpl; repeat constructor]].
Qed.

(** For such a kind the explicit amount record is not even looked at. *)
Lemma public_transfer_ignores_amount_record amount recipient transferType fee privateFee
      params amountRecord feeRecord privateKey offlineQuery (σ : St W) :
  KeyProvider.has VALID_TRANSFER_TYPES transferType = true ->
  requiresAmountRecord transferType = false ->
  buildTransferTransaction' amount recipient transferType fee privateFee params
                            amountRecord feeRecord privateKey offlineQuery σ
  = buildTransferTransaction' amount recipient transferType fee privateFee params
                              RecUndefined feeRecord privateKey offlineQuery σ.
Proof.
  intros Hvalid Hreq. unfold buildTransferTransaction.
  assert (Hstart : forall rest : string -> M W Tx,
             (do t <- validateTransferType transferType; rest t) σ = rest transferType σ).
  { intros rest. by erewrite bind_ok by (by apply validateTransferType_ok). }
  etransitivity; [apply Hstart|]. symmetry.
  etransitivity; [apply Hstart|]. symmetry.
  cbv beta. rewrite Hreq. reflexivity.
Qed.

Lemma valid_transfer_types transferType :
  KeyProvider.has VALID_TRANSFER_TYPES transferType = true
  <-> transferType ∈ [ "transfer_private"; "private"; "transferPrivate";
                       "transfer_private_to_public"; "privateToPublic";
                       "transferPrivateToPublic";
                       "transfer_public"; "public"; "transferPublic";
                       "transfer_public_to_private"; "publicToPrivate";
                       "transferPublicToPrivate" ].
Proof.
  unfold KeyProvider.has, VALID_TRANSFER_TYPES. rewrite bool_decide_eq_true.
  rewrite !elem_of_union, !elem_of_singleton, !elem_of_cons, elem_of_nil. tauto.
Qed.

Lemma private_transfer_types transferType :
  requiresAmountRecord transferType = true
  <-> transferType ∈ [ "transfer_private"; "private"; "transferPrivate";
                       "transfer_private_to_public"; "privateToPublic";
                       "transferPrivateToPublic" ].
Proof.
  unfold requiresAmountRecord, KeyProvider.has, PRIVATE_TRANSFER_TYPES.
  rewrite bool_decide_eq_true.
  rewrite !elem_of_union, !elem_of_singleton, !elem_of_cons, elem_of_nil. tauto.
Qed.

Lemma validateTransferType_rejects transferType (σ : St W) :
  KeyProvider.has VALID_TRANSFER_TYPES transferType = false ->
  exists msg,
    validateTransferType transferType σ
    = (Throw (ThrownString msg), mkSt (world σ) (trace σ ++ [EvLog msg])).
Proof.
  intros H. unfold validateTransferType. rewrite H. by eexists.
Qed.

Section TransferKinds.
Context {KW KProvingKey KVerifyingKey : Type}.
Variable http_get : string -> KW -> option KeyProvider.bytes * KW.
Variable ProvingKey_fromBytes : KeyProvider.bytes -> option KProvingKey.
Variable ProvingKey_toBytes : KProvingKey -> KeyProvider.bytes.
Variable VerifyingKey_fromBytes : KeyProvider.bytes -> option KVerifyingKey.
Variable VerifyingKey_fromString : string -> option KVerifyingKey.
Variable VerifyingKey_toBytes : KVerifyingKey -> KeyProvider.bytes.
Variable verifyingKey : KeyProvider.CreditsFunction -> KVerifyingKey.

Abbreviation transferKeys' :=
  (KeyProvider.transferKeys http_get ProvingKey_fromBytes ProvingKey_toBytes
     VerifyingKey_fromBytes VerifyingKey_fromString VerifyingKey_toBytes verifyingKey).
Abbreviation creditsKeys' :=
  (fun this f =>
     KeyProvider.fetchKeys http_get ProvingKey_fromBytes ProvingKey_toBytes
       VerifyingKey_fromBytes VerifyingKey_fromString VerifyingKey_toBytes verifyingKey
       this
       (KeyProvider.prover (KeyProvider.CREDITS_PROGRAM_KEYS f))
       (KeyProvider.verifier (KeyProvider.CREDITS_PROGRAM_KEYS f))
       (Some (KeyProvider.locator (KeyProvider.CREDITS_PROGRAM_KEYS f)))).

(** Every accepted string belongs to one of the four kinds: the key
    provider selects that kind's keys for it, and an amount record is
    required exactly for the two kinds that consume a private input. *)
Lemma transferKeys_kind this transferType :
  KeyProvider.has VALID_TRANSFER_TYPES transferType = true ->
  exists f,
    f ∈ [ KeyProvider.transfer_private; KeyProvider.transfer_private_to_public;
          KeyProvider.transfer_public; KeyProvider.transfer_public_to_private ]
    /\ transferKeys' this transferType = creditsKeys' this f
    /\ (requiresAmountRecord transferType = true
        <-> f = KeyProvider.transfer_private
            \/ f = KeyProvider.transfer_private_to_public).
Proof.
  intros H. apply valid_transfer_types in H.
  rewrite !elem_of_cons, elem_of_nil in H.
  repeat (destruct H as [H|H]); try contradiction; subst transferType.
  1-3: exists KeyProvider.transfer_private.
  4-6: exists KeyProvider.transfer_private_to_public.
  7-9: exists KeyProvider.transfer_public.
  10-12: exists KeyProvider.transfer_public_to_private.
  all: split; [in_list|]; split;
    [unfold KeyProvider.transferKeys; eval_has; reflexivity|];
    unfold requiresAmountRecord; eval_has;
    split; [intros Hr|intros [Hr|Hr]]; try discriminate; auto.
Qed.

(** C7 (transfer kinds), as the code has it.  [validateTransferType] hands
    an accepted string back unchanged and rejects every string outside the
    vocabulary of twelve.  The aliases of a kind are treated alike by what
    follows: each accepted string selects the keys of exactly one of the
    four kinds, and an amount record is required exactly for the kinds
    private and private-to-public; "privateToPublic" and
    "transfer_private_to_public" select the same keys and both require an
    amount record, "public" requires none.  For a kind that requires none,
    [buildTransferTransaction] ignores the amount record argument, hands
    the engine no amount record, and consults the record provider at most
    once, for the fee record of a private fee. *)
Theorem transfer_kinds_and_amount_record :
  (forall transferType (σ : St W),
      KeyProvider.has VALID_TRANSFER_TYPES transferType = true ->
      validateTransferType transferType σ = (Ok transferType, σ))
  /\ (forall transferType (σ : St W),
        KeyProvider.has VALID_TRANSFER_TYPES transferType = false ->
        exists msg,
          validateTransferType transferType σ
          = (Throw (ThrownString msg), mkSt (world σ) (trace σ ++ [EvLog msg])))
  /\ (forall transferType,
        KeyProvider.has VALID_TRANSFER_TYPES transferType = true
        <-> transferType ∈ [ "transfer_private"; "private"; "transferPrivate";
                             "transfer_private_to_public"; "privateToPublic";
                             "transferPrivateToPublic";
                             "transfer_public"; "public"; "transferPublic";
                             "transfer_public_to_private"; "publicToPrivate";
                             "transferPublicToPrivate" ])
  /\ (forall this transferType,
        KeyProvider.has VALID_TRANSFER_TYPES transferType = true ->
        exists f,
          f ∈ [ KeyProvider.transfer_private; KeyProvider.transfer_private_to_public;
                KeyProvider.transfer_public; KeyProvider.transfer_public_to_private ]
          /\ transferKeys' this transferType = creditsKeys' this f
          /\ (requiresAmountRecord transferType = true
              <-> f = KeyProvider.transfer_private
                  \/ f = KeyProvider.transfer_private_to_public))
  /\ (forall this,
        transferKeys' this "privateToPublic"
        = transferKeys' this "transfer_private_to_public")
  /\ requiresAmountRecord "privateToPublic" = true
  /\ requiresAmountRecord "transfer_private_to_public" = true
  /\ requiresAmountRecord "public" = false
  /\ (forall amount recipient transferType fee (privateFee : bool) params amountRecord
             feeRecord privateKey offlineQuery (σ : St W),
        KeyProvider.has VALID_TRANSFER_TYPES transferType = true ->
        requiresAmountRecord transferType = false ->
        buildTransferTransaction' amount recipient transferType fee privateFee params
                                  amountRecord feeRecord privateKey offlineQuery σ
        = buildTransferTransaction' amount recipient transferType fee privateFee params
                                    RecUndefined feeRecord privateKey offlineQuery σ
        /\ exists evs,
            trace (buildTransferTransaction' amount recipient transferType fee
                     privateFee params amountRecord feeRecord privateKey
                     offlineQuery σ).2
            = (trace σ ++ evs)%list
            /\ (lookups evs <= if privateFee then 1 else 0)%nat
            /\ Forall (amount_side_quiet fee) evs).
Proof.
  split; [intros; by apply validateTransferType_ok|].
  split; [intros; by apply validateTransferType_rejects|].
  split; [apply valid_transfer_types|].
  split; [intros; by apply transferKeys_kind|].
  split; [intros; unfold KeyProvider.transferKeys; eval_has; reflexivity|].
  split; [vm_compute; reflexivity|]. split; [vm_compute; reflexivity|].
  split; [vm_compute; reflexivity|].
  intros. split.
  - by apply public_transfer_ignores_amount_record.
  - by apply public_transfer_quiet.
Qed.
End TransferKinds.

End Manager.

(** The claim C7 asks [validateTransferType] to send the aliases of a kind
    to one canonical value; it returns each alias as it is. *)
Lemma validateTransferType_keeps_alias :
  (validateTransferType "privateToPublic" ManagerFixture.start).1
  = Ok "privateToPublic"
  /\ (validateTransferType "transfer_private_to_public" ManagerFixture.start).1
     = Ok "transfer_private_to_public"
  /\ (validateTransferType "privateToPublic" ManagerFixture.start).1
     <> (validateTransferType "transfer_private_to_public" ManagerFixture.start).1.
Proof.
  split; [vm_compute; reflexivity|]. split; [vm_compute; reflexivity|].
  vm_compute. discriminate.
Qed.

Lemma transfer_kinds_and_amount_record_witness :
  validateTransferType "transferPublic" ManagerFixture.start
  = (Ok "transferPublic", ManagerFixture.start)
  /\ (exists msg,
        validateTransferType "private_to_public" ManagerFixture.start
        = (Throw (ThrownString msg), mkSt 0%nat [EvLog msg]))
  /\ (exists f,
        f ∈ [ KeyProvider.transfer_private; KeyProvider.transfer_private_to_public;
              KeyProvider.transfer_public; KeyProvider.transfer_public_to_private ]
        /\ KeyFixture.test_transferKeys KeyFixture.provider_with_join "publicToPrivate"
           = KeyFixture.test_fetchKeys KeyFixture.provider_with_join
               (KeyProvider.prover (KeyProvider.CREDITS_PROGRAM_KEYS f))
               (KeyProvider.verifier (KeyProvider.CREDITS_PROGRAM_KEYS f))
               (Some (KeyProvider.locator (KeyProvider.CREDITS_PROGRAM_KEYS f)))
        /\ (requiresAmountRecord "publicToPrivate" = true
            <-> f = KeyProvider.transfer_private
                \/ f = KeyProvider.transfer_private_to_public))
  /\ (ManagerFixture.test_transfer 1000 "public" 7 true (RecString "ct200") RecUndefined
        ManagerFixture.start
      = ManagerFixture.test_transfer 1000 "public" 7 true RecUndefined RecUndefined
          ManagerFixture.start
      /\ exists evs,
          trace (ManagerFixture.test_transfer 1000 "public" 7 true (RecString "ct200")
                   RecUndefined ManagerFixture.start).2
          = (trace ManagerFixture.start ++ evs)%list
          /\ (lookups evs <= 1)%nat
          /\ Forall (amount_side_quiet 7) evs).
Proof.
  pose proof (transfer_kinds_and_amount_record
                (keyProvider:=ManagerFixture.throwing_keyProvider)
                (Some ManagerFixture.test_recordProvider) (Some "alice-key")
                "https://api.example" ManagerFixture.test_getProgram
                ManagerFixture.test_getProgramImports Fixture.test_fromString
                ManagerFixture.test_imports_length ManagerFixture.test_engine_transfer
                KeyFixture.key_http_get KeyFixture.key_fromBytes KeyFixture.key_toBytes
                KeyFixture.key_fromBytes KeyFixture.key_fromString KeyFixture.key_toBytes
                KeyFixture.builtin_verifier)
    as [Hok [Hreject [_ [Hkind [_ [_ [_ [_ Hpublic]]]]]]]].
  split; [apply Hok; vm_compute; reflexivity|].
  split; [apply Hreject; vm_compute; reflexivity|].
  split; [apply (Hkind KeyFixture.provider_with_join); vm_compute; reflexivity|].
  apply (Hpublic 1000 "aleo1recipient" "public" 7 true None (RecString "ct200")
                 RecUndefined None None ManagerFixture.start);
    vm_compute; reflexivity.
Defined.


Lemma buildTransferTransaction_amount_lookup_witness :
  ManagerFixture.test_transfer 1000 "private" 7 false RecUndefined RecUndefined
    ManagerFixture.start
  = (Ok "transfer-transaction",
     mkSt 4%nat [EvFeeKeys false; EvTransferKeys "private"; EvFindCreditsRecord 7 [];
                 EvEngine (EngineTransfer "private" (Some (Val Fixture.rec150)) None)])
  /\ ManagerFixture.test_transfer 1000 "private" 7 true RecUndefined RecUndefined
       ManagerFixture.start
     = (Ok "transfer-transaction",
        mkSt 5%nat [EvFeeKeys true; EvTransferKeys "private"; EvFindCreditsRecord 7 [];
                    EvFindCreditsRecord 7 ["n150"];
                    EvEngine (EngineTransfer "private" (Some (Val Fixture.rec150))
                                             (Some (Val Fixture.rec200)))]).
Proof.
  split.
  - apply (proj1 (buildTransferTransaction_amount_lookup
             (keyProvider:=ManagerFixture.throwing_keyProvider)
             (Some ManagerFixture.test_recordProvider) (Some "alice-key")
             "https://api.example" Fixture.test_fromString
             ManagerFixture.test_engine_transfer ManagerFixture.test_recordProvider
             1000 "aleo1recipient" "private" 7 false None RecUndefined RecUndefined
             None None "alice-key" ("fee_public.prover", "fee_public.verifier")
             ("private.prover", "private.verifier") 1%nat 2%nat Fixture.rec150 3%nat
             ManagerFixture.start
             eq_refl ltac:(vm_compute; reflexivity) ltac:(vm_compute; reflexivity)
             eq_refl I eq_refl eq_refl eq_refl)).
    reflexivity.
  - apply (proj2 (buildTransferTransaction_amount_lookup
             (keyProvider:=ManagerFixture.throwing_keyProvider)
             (Some ManagerFixture.test_recordProvider) (Some "alice-key")
             "https://api.example" Fixture.test_fromString
             ManagerFixture.test_engine_transfer ManagerFixture.test_recordProvider
             1000 "aleo1recipient" "private" 7 true None RecUndefined RecUndefined
             None None "alice-key" ("fee_private.prover", "fee_private.verifier")
             ("private.prover", "private.verifier") 1%nat 2%nat Fixture.rec150 3%nat
             ManagerFixture.start
             eq_refl ltac:(vm_compute; reflexivity) ltac:(vm_compute; reflexivity)
             eq_refl I eq_refl eq_refl eq_refl)
             eq_refl I (Val Fixture.rec200) 4%nat).
    vm_compute. reflexivity.
Defined.
End ManagerProofs.

(* ===================================================================== *)
(** * The record scan: further invariants *)
(* ===================================================================== *)

Module ScanInvariants.
Import NetworkClient ScanSpec.

Section Scan.
Context {W PrivateKey ViewKey RecordCiphertext : Type}.
Variable gateway : Request -> W -> option Json * W.
Variable PrivateKey_from_string : string -> option PrivateKey.
Variable to_view_key : PrivateKey -> ViewKey.
Variable RecordCiphertext_fromString : string -> option RecordCiphertext.
Variable isOwner : RecordCiphertext -> ViewKey -> bool.
Variable decrypt : RecordCiphertext -> ViewKey -> option RecordPlaintext.
Variable serialNumberString :
  RecordPlaintext -> PrivateKey -> string -> string -> option string.

Section Invariant.
Variable amounts : option (list Z).
Variable maxMicrocredits : option Z.
(** [Inv] holds of the scan variables between two steps, [Q] of a returned
    list. *)
Variable Inv : ScanState -> Prop.
Variable Q : list RecordPlaintext -> Prop.
Hypothesis I_Q : forall st, Inv st -> Q (records st).
Hypothesis step : forall r st,
  Inv st ->
  match on_unspent amounts maxMicrocredits r st with
  | Next st' => Inv st'
  | Return recs => Q recs
  end.

Abbreviation keeps := (holds (W:=W) (fun st _ => Inv st) (fun recs _ => Q recs)).

Lemma check_block_keeps pk nonces block st (σ : St W) :
  Inv st ->
  keeps (check_block gateway to_view_key RecordCiphertext_fromString isOwner decrypt
                     serialNumberString pk amounts maxMicrocredits nonces block st σ).
Proof.
  intros HI. unfold check_block.
  destruct (block_transactions block) as [transactions|]; [|exact HI].
  apply ScanProofs.for_each_holds; [|exact HI]. clear st σ HI. intros tx st σ HI.
  unfold check_transaction.
  destruct (String.eqb _ _); [|exact HI].
  destruct (transaction_execution _) as [execution|]; [|exact HI].
  destruct (execution_transitions execution) as [transitions|]; [|exact HI].
  apply ScanProofs.for_each_holds; [|exact HI]. clear st σ HI.
  intros transition st σ HI.
  unfold check_transition.
  destruct (negb _); [exact HI|].
  destruct (transition_outputs transition) as [outputs|]; [|exact HI].
  apply ScanProofs.for_each_holds; [|exact HI]. clear st σ HI. intros output st σ HI.
  unfold check_output.
  destruct (String.eqb _ _); [|exact HI].
  destruct (RecordCiphertext_fromString _) as [record|]; [|exact HI].
  destruct (isOwner _ _); [|exact HI].
  destruct (decrypt _ _) as [r|]; [|exact HI].
  case_bool_decide; [exact HI|].
  destruct (serialNumberString _ _ _ _) as [sn|]; [|exact HI].
  unfold try_, bind, getTransitionId, try_, fetchData, call, ret, throw.
  destruct (gateway (ReqTransitionId sn) (world σ)) as [[j|] w']; simpl; [exact HI|].
  pose proof (step r st HI) as Hstep.
  destruct (on_unspent amounts maxMicrocredits r st); exact Hstep.
Qed.

Lemma scan_loop_keeps pk nonces fuel :
  forall startHeight end_ failures st (σ : St W),
    Inv st ->
    match scan_loop gateway to_view_key RecordCiphertext_fromString isOwner decrypt
                    serialNumberString pk amounts maxMicrocredits nonces
                    fuel startHeight end_ failures st σ with
    | (Ok (Some recs), _) => Q recs
    | (Ok None, _) => True
    | (Throw _, _) => False
    end.
Proof.
  induction fuel as [|fuel IH]; intros startHeight end_ failures st σ HI; simpl;
    [exact Logic.I|].
  destruct (end_ >? startHeight); [|by apply I_Q].
  set (start := if end_ - 50 <? startHeight then startHeight else end_ - 50).
  unfold bind at 1, scan_chunk, try_ at 1, bind at 1, getBlockRange, try_, fetchData, call.
  destruct (gateway (ReqBlockRange start end_) (world σ)) as [[j|] w']; cbn [fst snd].
  - unfold bind at 1.
    match goal with
    | |- context [for_each ?l ?body st ?σ1] =>
        pose proof (ScanProofs.for_each_holds (fun st _ => Inv st) (fun recs _ => Q recs)
                      body l (check_block_keeps pk nonces) st σ1 HI) as H;
        destruct (for_each l body st σ1) as [[[st'|recs]|e] σ2]
    end; simpl in H; cbn [ret].
    + by apply IH.
    + exact H.
    + destruct H.
  - cbn [throw ret]. unfold bind at 1, emit at 1. unfold bind at 1, emit at 1.
    destruct (failures + 1 >? 10).
    + unfold bind, emit, ret. simpl. by apply I_Q.
    + by apply IH.
Qed.

Lemma findUnspentRecords_keeps account startHeight endHeight privateKey nonces
      (σ σ' : St W) recs :
  Inv (mkScan [] 0) ->
  findUnspentRecords gateway PrivateKey_from_string to_view_key
    RecordCiphertext_fromString isOwner decrypt serialNumberString
    account startHeight endHeight privateKey amounts maxMicrocredits nonces σ
  = (Ok recs, σ') ->
  Q recs.
Proof.
  intros Hinit. unfold findUnspentRecords.
  destruct (startHeight <? 0); [discriminate|].
  unfold bind at 1.
  match goal with
  | |- context [match privateKey with
                | PKUndefined => ?a | PKObject k => @?b k | PKString s => @?c s
                end σ] =>
      destruct (match privateKey with
                | PKUndefined => a | PKObject k => b k | PKString s => c s
                end σ) as [[pk|e] σ0]
  end; [|discriminate].
  unfold bind at 1.
  match goal with
  | |- context [try_ ?m ?h σ0] => destruct (try_ m h σ0) as [[latestHeight|e] σ1]
  end; [|discriminate].
  destruct (startHeight >? _); [discriminate|].
  unfold bind.
  match goal with
  | |- context [scan_loop _ _ _ _ _ _ ?k ?am ?mx ?n ?fuel ?s0 ?e0 ?f0 ?st0 σ1] =>
      pose proof (scan_loop_keeps k n fuel s0 e0 f0 st0 σ1 Hinit) as H;
      destruct (scan_loop gateway to_view_key RecordCiphertext_fromString isOwner decrypt
                          serialNumberString k am mx n fuel s0 e0 f0 st0 σ1)
        as [[[recs'|]|e'] σ2]
  end; try discriminate.
  unfold ret. by intros [= <- _].
Qed.

End Invariant.

Abbreviation findUnspentRecords' :=
  (findUnspentRecords gateway PrivateKey_from_string to_view_key
     RecordCiphertext_fromString isOwner decrypt serialNumberString).


(** X2 (scan with an empty list of targets).  An empty array of targets is
    neither "no targets" nor a target to compare with: no record is ever
    accepted, and a call that returns a list returns the empty one. *)
Theorem findUnspentRecords_no_targets account startHeight endHeight privateKey
        maxMicrocredits nonces (σ σ' : St W) recs :
  findUnspentRecords' account startHeight endHeight privateKey (Some [])
                      maxMicrocredits nonces σ = (Ok recs, σ') ->
  recs = [].
Proof.
  intros Hcall.
  apply (findUnspentRecords_keeps (Some []) maxMicrocredits
           (fun st => records st = []) (fun recs => recs = []))
    with (4 := Hcall).
  - by intros st.
  - by intros r st.
  - reflexivity.
Qed.

End Scan.


Lemma findUnspentRecords_no_targets_witness :
  (Fixture.test_find 0 None (Some []) None None (Fixture.test_world 0)).1 = Ok [].
Proof.
  destruct (Fixture.test_find 0 None (Some []) None None (Fixture.test_world 0))
    as [[recs|e] σ'] eqn:Hrun.
  - cbn [fst]. f_equal.
    exact (findUnspentRecords_no_targets Fixture.test_gateway
             Fixture.test_key_from_string Fixture.test_to_view_key
             Fixture.test_fromString Fixture.test_isOwner Fixture.test_decrypt
             Fixture.test_serial None 0 None (PKString "alice") None None
             (Fixture.test_world 0) σ' recs Hrun).
  - vm_compute in Hrun. discriminate.
Defined.
End ScanInvariants.

(* ===================================================================== *)
(** * The record scan: its requests *)
(* ===================================================================== *)

Module ScanRequests.
Import NetworkClient ScanSpec ScanRequestsSpec.




Section ForEach.
Context {W S R A : Type}.
Variable P : Event -> Prop.

End ForEach.

Section Scan.
Context {W PrivateKey ViewKey RecordCiphertext : Type}.
Variable gateway : Request -> W -> option Json * W.
Variable PrivateKey_from_string : string -> option PrivateKey.
Variable to_view_key : PrivateKey -> ViewKey.
Variable RecordCiphertext_fromString : string -> option RecordCiphertext.
Variable isOwner : RecordCiphertext -> ViewKey -> bool.
Variable decrypt : RecordCiphertext -> ViewKey -> option RecordPlaintext.
Variable serialNumberString :
  RecordPlaintext -> PrivateKey -> string -> string -> option string.

Section Loop.
Variable resolvedPrivateKey : PrivateKey.
Variable amounts : option (list Z).
Variable maxMicrocredits : option Z.
Variable nonces : list string.

Abbreviation check_block' :=
  (check_block gateway to_view_key RecordCiphertext_fromString isOwner decrypt
               serialNumberString resolvedPrivateKey amounts maxMicrocredits nonces).
Abbreviation scan_loop' :=
  (scan_loop gateway to_view_key RecordCiphertext_fromString isOwner decrypt
             serialNumberString resolvedPrivateKey amounts maxMicrocredits nonces).


End Loop.

Abbreviation findUnspentRecords' :=
  (findUnspentRecords gateway PrivateKey_from_string to_view_key
     RecordCiphertext_fromString isOwner decrypt serialNumberString).


End Scan.
End ScanRequests.

(* ===================================================================== *)
(** * NetworkRecordProvider: the record handed back *)
(* ===================================================================== *)

Module RecordSearchProofs.
Import NetworkClient RecordProvider ScanSpec.

Section Provider.
Context {W PrivateKey ViewKey RecordCiphertext : Type}.
Variable gateway : Request -> W -> option Json * W.
Variable PrivateKey_from_string : string -> option PrivateKey.
Variable to_view_key : PrivateKey -> ViewKey.
Variable RecordCiphertext_fromString : string -> option RecordCiphertext.
Variable isOwner : RecordCiphertext -> ViewKey -> bool.
Variable decrypt : RecordCiphertext -> ViewKey -> option RecordPlaintext.
Variable serialNumberString :
  RecordPlaintext -> PrivateKey -> string -> string -> option string.
Variable account_privateKey : PrivateKey.
Variable client_account : option PrivateKey.

Abbreviation findCreditsRecords' :=
  (findCreditsRecords gateway PrivateKey_from_string to_view_key
     RecordCiphertext_fromString isOwner decrypt serialNumberString
     account_privateKey client_account).
Abbreviation findCreditsRecord' :=
  (findCreditsRecord gateway PrivateKey_from_string to_view_key
     RecordCiphertext_fromString isOwner decrypt serialNumberString
     account_privateKey client_account).
Abbreviation scan' :=
  (findUnspentRecords gateway PrivateKey_from_string to_view_key
     RecordCiphertext_fromString isOwner decrypt serialNumberString
     client_account).

(** A list that [findCreditsRecords] returns is the list of one scan, for
    the account's key, the targets and the exclusion list given, and no
    budget. *)
Lemma findCreditsRecords_scan microcredits unspent nonces sp (σ σ' : St W) recs :
  findCreditsRecords' microcredits unspent nonces sp σ = (Ok recs, σ') ->
  exists startHeight endHeight (σ1 : St W) evs,
    trace σ1 = (trace σ ++ evs)%list
    /\ scan' startHeight endHeight (PKObject account_privateKey) (Some microcredits)
             None (Some nonces) σ1 = (Ok recs, σ').
Proof.
  unfold findCreditsRecords. cbv zeta. unfold bind at 1.
  match goal with
  | |- context [if ?x =? 0 then _ else _] => destruct (x =? 0)
  end.
  - unfold bind at 1, getLatestHeight, try_, fetchData, call.
    destruct (gateway ReqLatestHeight (world σ)) as [[j|] w1]; cbn [fst snd throw ret];
      [|discriminate].
    match goal with
    | |- context [if ?c then _ else _] => destruct c
    end; [unfold logAndThrow, bind, emit, throw; discriminate|].
    intros Hscan. eexists _, _, _, [_]. split; [|exact Hscan]. reflexivity.
  - cbn [ret].
    match goal with
    | |- context [if ?c then _ else _] => destruct c
    end; [unfold logAndThrow, bind, emit, throw; discriminate|].
    intros Hscan. eexists _, _, σ, []. split; [|exact Hscan]. by rewrite app_nil_r.
Qed.

(** X4 (the record provider's answer).  A record that [findCreditsRecord]
    hands back holds strictly more microcredits than the amount asked
    for, its nonce is not in the exclusion list, and its serial number was
    looked up during the call and not found; when no such record is
    found the answer is the [Error] object "Record not found", as a
    result.  The [unspent] argument plays no part. *)
Theorem findCreditsRecord_answer amount unspent nonces sp (σ σ' : St W) x :
  findCreditsRecord' amount unspent nonces sp σ = (Ok x, σ') ->
  match x with
  | Val r =>
      microcredits r > amount
      /\ (nonce r ∉ nonces)
      /\ (exists evs,
             trace σ' = (trace σ ++ evs)%list
             /\ lookup_failed gateway serialNumberString account_privateKey evs r)
  | ErrVal e => e = Error "Record not found"
  end
  /\ forall unspent',
      findCreditsRecord' amount unspent' nonces sp σ
      = findCreditsRecord' amount unspent nonces sp σ.
Proof.
  intros Hcall. split; [|reflexivity].
  unfold findCreditsRecord in Hcall. unfold bind at 1 in Hcall.
  destruct (findCreditsRecords' [amount] unspent nonces sp σ)
    as [[recs|e] σ1] eqn:Hrecs; [|discriminate].
  destruct recs as [|r recs].
  { unfold bind, emit, ret in Hcall. by injection Hcall as <- _. }
  unfold ret in Hcall. injection Hcall as <- <-.
  destruct (findCreditsRecords_scan _ _ _ _ _ _ _ Hrecs)
    as [startHeight [endHeight [σ0 [evs0 [Ht0 Hscan]]]]].
  assert (Hin : r ∈ r :: recs) by (apply elem_of_cons; by left).
  split; [|split].
  - refine (ScanInvariants.findUnspentRecords_keeps gateway PrivateKey_from_string
              to_view_key RecordCiphertext_fromString isOwner decrypt serialNumberString
              (Some [amount]) None
              (fun st => forall r, r ∈ records st ->
                                   microcredits r > amount)
              (fun recs => forall r, r ∈ recs ->
                                     microcredits r > amount)
              _ _ _ _ _ _ _ _ _ _ _ Hscan r Hin).
    + by intros st.
    + intros r' st Hst.
      unfold on_unspent, accept_any, accept_matching, check_budget, push.
      change (0 <? length [amount])%nat with true. cbn [lookup list_lookup records].
      destruct (Z.gtb_spec (microcredits r') amount) as [Hgt|];
        [|exact Hst].
      assert (Hall : forall r0, r0 ∈ (records st ++ [r'])%list ->
                                microcredits r0 > amount).
      { intros r0 [Hr0|Hr0]%elem_of_app; [by apply Hst|].
        apply list_elem_of_singleton in Hr0. subst r0. lia. }
      destruct (Nat.leb _ _); exact Hall.
    + intros r0 Hr0. by apply elem_of_nil in Hr0.
  - destruct (ScanProofs.findUnspentRecords_post _ _ _ _ _ _ _ _ _ _ _ _ _ _ _ _ _ Hscan)
      as [pk [_ [[Hn _] _]]].
    by apply Hn.
  - destruct (ScanProofs.findUnspentRecords_post _ _ _ _ _ _ _ _ _ _ _ _ _ _ _ _ _ Hscan)
      as [pk [Hpk [[_ [evs [Ht Hl]]] _]]].
    simpl in Hpk. injection Hpk as <-.
    exists (evs0 ++ evs)%list. split.
    + rewrite Ht, Ht0. by rewrite <- app_assoc.
    + destruct (Hl r Hin) as [sn [Hsn [Hev Hw]]]. exists sn.
      split; [exact Hsn|]. split; [|exact Hw]. apply elem_of_app. by right.
Qed.
End Provider.

Lemma findCreditsRecord_answer_witness :
  exists σ',
    RecordSearchFixture.test_findCreditsRecord 100 [] None (Fixture.test_world 0)
    = (Ok (Val Fixture.rec150), σ')
    /\ microcredits Fixture.rec150 > 100
    /\ (nonce Fixture.rec150 ∉ ([] : list string))
    /\ (exists evs,
           trace σ' = (trace (Fixture.test_world 0) ++ evs)%list
           /\ lookup_failed Fixture.test_gateway Fixture.test_serial "alice" evs
                            Fixture.rec150).
Proof.
  eexists. split; [vm_compute; reflexivity|].
  apply (proj1 (findCreditsRecord_answer Fixture.test_gateway
                  Fixture.test_key_from_string Fixture.test_to_view_key
                  Fixture.test_fromString Fixture.test_isOwner Fixture.test_decrypt
                  Fixture.test_serial "alice" None 100 true [] None
                  (Fixture.test_world 0) _ (Val Fixture.rec150)
                  ltac:(vm_compute; reflexivity))).
Defined.
End RecordSearchProofs.

(* ===================================================================== *)
(** * AleoKeyProvider: cache and getters, proofs *)
(* ===================================================================== *)

Module CreditsKeysProofs.
Import KeyProvider CreditsKeys CreditsKeysSpec.

(** The verifier names of [CREDITS_PROGRAM_KEYS] are pairwise distinct,
    so the [switch] of [getVerifyingKey] reaches the case of the function
    whose verifier name it is given. *)
Lemma verifier_case f :
  find (fun g => String.eqb (verifier (CREDITS_PROGRAM_KEYS f))
                            (verifier (CREDITS_PROGRAM_KEYS g))) verifier_cases
  = Some f.
Proof. destruct f; vm_compute; reflexivity. Qed.

Lemma http_urls_app evs1 evs2 :
  http_urls (evs1 ++ evs2) = (http_urls evs1 ++ http_urls evs2)%list.
Proof. unfold http_urls. apply omap_app. Qed.

Section Provider.
Context {W ProvingKey VerifyingKey : Type}.
Variable http_get : string -> W -> option bytes * W.
Variable ProvingKey_fromBytes : bytes -> option ProvingKey.
Variable ProvingKey_toBytes : ProvingKey -> bytes.
Variable VerifyingKey_fromBytes : bytes -> option VerifyingKey.
Variable VerifyingKey_fromString : string -> option VerifyingKey.
Variable VerifyingKey_toBytes : VerifyingKey -> bytes.
Variable verifyingKey : CreditsFunction -> VerifyingKey.

Abbreviation fetchKeys' :=
  (fetchKeys http_get ProvingKey_fromBytes ProvingKey_toBytes
             VerifyingKey_fromBytes VerifyingKey_fromString
             VerifyingKey_toBytes verifyingKey).
Abbreviation getKeys' :=
  (getKeys (W:=W) ProvingKey_fromBytes VerifyingKey_fromBytes).
Abbreviation getVerifyingKey' :=
  (getVerifyingKey http_get VerifyingKey_fromBytes VerifyingKey_fromString
                   verifyingKey).
Abbreviation cacheKeys' := (cacheKeys ProvingKey_toBytes VerifyingKey_toBytes).

(** A compiled-in verifier name is answered without any request. *)
Lemma getVerifyingKey_builtin f (σ : St W) :
  getVerifyingKey' (verifier (CREDITS_PROGRAM_KEYS f)) σ = (Ok (Val (verifyingKey f)), σ).
Proof. unfold getVerifyingKey. by rewrite verifier_case. Qed.

(** [getVerifyingKey] hands back a key or an [Error] object; on the way it
    requests the URI at most twice. *)
Lemma getVerifyingKey_result verifierUri (σ : St W) :
  exists r σ' evs,
    getVerifyingKey' verifierUri σ = (Ok r, σ')
    /\ trace σ' = (trace σ ++ evs)%list
    /\ (http_urls evs = [] \/ http_urls evs = [verifierUri]
        \/ http_urls evs = [verifierUri; verifierUri])
    /\ (find (fun g => String.eqb verifierUri (verifier (CREDITS_PROGRAM_KEYS g)))
             verifier_cases = None ->
        (forall w, (http_get verifierUri w).1 = None) ->
        exists e, r = ErrVal e).
Proof.
  unfold getVerifyingKey.
  destruct (find _ verifier_cases) as [f|].
  { exists (Val (verifyingKey f)), σ, []. rewrite app_nil_r.
    repeat split; [by left|discriminate]. }
  unfold try_ at 1, bind at 1, get at 1, call.
  destruct (http_get verifierUri (world σ)) as [[response|] w1] eqn:Hg1; cbn [fst snd].
  - destruct (VerifyingKey_fromString _) as [k|]; cbn [ret throw].
    + eexists _, _, [_]. repeat split; [by right; left|].
      intros _ Hnone. specialize (Hnone (world σ)). rewrite Hg1 in Hnone. discriminate.
    + unfold try_, bind at 1, fetchBytes, try_, get, call. cbn [world trace].
      destruct (http_get verifierUri w1) as [[b|] w2] eqn:Hg2; cbn [fst snd].
      * unfold bind, verifyingKey_of, ret, throw.
        destruct (VerifyingKey_fromBytes b);
          (eexists _, _, [_; _]; repeat split;
           [by rewrite <- app_assoc|by right; right|
            intros _ Hnone; specialize (Hnone w1); rewrite Hg2 in Hnone; discriminate]).
      * eexists _, _, [_; _]. repeat split;
          [by rewrite <- app_assoc|by right; right|by eexists].
  - cbn [throw]. unfold try_, bind at 1, fetchBytes, try_, get, call. cbn [world trace].
    destruct (http_get verifierUri w1) as [[b|] w2] eqn:Hg2; cbn [fst snd].
    + unfold bind, verifyingKey_of, ret, throw.
      destruct (VerifyingKey_fromBytes b);
        (eexists _, _, [_; _]; repeat split;
         [by rewrite <- app_assoc|by right; right|
          intros _ Hnone; specialize (Hnone w1); rewrite Hg2 in Hnone; discriminate]).
    + eexists _, _, [_; _]. repeat split;
        [by rewrite <- app_assoc|by right; right|by eexists].
Qed.

(** What a successful [try] block of [fetchKeys] leaves behind: the
    [catch] clause always throws. *)
Lemma fetchKeys_ok_inv this pu vu ck r (σ σ' : St W) :
  fetchKeys' this pu vu ck σ = (Ok r, σ') ->
  let key := if truthy ck then default "" ck else pu in
  (cacheOption this = true ->
   (exists pb vb pk vk,
       cache this !! key = Some (pb, vb)
       /\ ProvingKey_fromBytes pb = Some pk /\ VerifyingKey_fromBytes vb = Some vk
       /\ r = ((pk, Val vk), this) /\ σ' = σ)
   \/ (exists pk vk,
         cache this !! key = None
         /\ r = ((pk, Val vk),
                 mkProvider (<[key := (ProvingKey_toBytes pk, VerifyingKey_toBytes vk)]>
                               (cache this)) (cacheOption this))))
  /\ (cacheOption this = false -> r.2 = this).
Proof.
  intros Hcall key. unfold fetchKeys in Hcall. fold key in Hcall. split; intros Hopt;
    rewrite Hopt in Hcall.
  - destruct (cache this !! key) as [[pb vb]|] eqn:Hc.
    + left. unfold try_, bind, provingKey_of, verifyingKey_of, ret, throw in Hcall.
      cbn [fst snd] in Hcall.
      destruct (ProvingKey_fromBytes pb) as [pk|] eqn:Hpk; [|discriminate].
      destruct (VerifyingKey_fromBytes vb) as [vk|] eqn:Hvk; [|discriminate].
      injection Hcall as <- <-. by exists pb, vb, pk, vk.
    + right. unfold try_ at 1, bind at 1, emit in Hcall. cbn [world trace] in Hcall.
      unfold bind at 1, fetchBytes, try_, get, call in Hcall. cbn [world trace] in Hcall.
      destruct (http_get pu (world σ)) as [[b|] w1]; cbn [fst snd throw] in Hcall;
        [|discriminate].
      unfold bind at 1, provingKey_of in Hcall.
      destruct (ProvingKey_fromBytes b) as [pk|]; cbn [ret throw] in Hcall; [|discriminate].
      unfold bind at 1, emit in Hcall. cbn [world trace] in Hcall.
      unfold bind at 1 in Hcall.
      destruct (getVerifyingKey' vu _) as [[[vk|e]|e] σ2]; [| |discriminate].
      * unfold bind, toBytes_of, ret in Hcall. injection Hcall as <- _.
        exists pk, vk. split; [reflexivity|]. by rewrite Hopt.
      * unfold bind, toBytes_of, throw in Hcall. discriminate.
  - unfold try_ at 1, bind at 1, fetchBytes, try_, get, call in Hcall.
    destruct (http_get pu (world σ)) as [[b|] w1]; cbn [fst snd throw] in Hcall;
      [|discriminate].
    unfold bind at 1, provingKey_of in Hcall.
    destruct (ProvingKey_fromBytes b) as [pk|]; cbn [ret throw] in Hcall; [|discriminate].
    unfold bind at 1 in Hcall.
    destruct (getVerifyingKey' vu _) as [[vk|e] σ2]; [|discriminate].
    unfold ret in Hcall. by injection Hcall as <- _.
Qed.

(** X5 (key cache: fetch once).  With caching on, once [fetchKeys] has
    answered with a key pair, the same call on the provider it left
    behind is answered from the cache, in whatever state it is made: the
    same pair, no request and no other event, the provider unchanged
    (keys survive the round trip through their bytes). *)
Theorem fetched_keys_are_cached this pu vu ck pk vk this' (σ σ' : St W) :
  cacheOption this = true ->
  ProvingKey_fromBytes (ProvingKey_toBytes pk) = Some pk ->
  VerifyingKey_fromBytes (VerifyingKey_toBytes vk) = Some vk ->
  fetchKeys' this pu vu ck σ = (Ok ((pk, Val vk), this'), σ') ->
  forall σ2 : St W, fetchKeys' this' pu vu ck σ2 = (Ok ((pk, Val vk), this'), σ2).
Proof.
  intros Hopt Hpk Hvk Hcall σ2.
  destruct (fetchKeys_ok_inv _ _ _ _ _ _ _ Hcall) as [Hon _].
  destruct (Hon Hopt) as [[pb [vb [pk' [vk' [Hc [Hpb [Hvb [Hr _]]]]]]]]
                         |[pk' [vk' [Hc Hr]]]];
    injection Hr as -> -> ->.
  - by eapply KeyProofs.fetchKeys_cache_hit.
  - eapply KeyProofs.fetchKeys_cache_hit; [exact Hopt| |exact Hpk|exact Hvk].
    simpl. apply lookup_insert_eq.
Qed.

(** X6 (a verifying key that cannot be loaded).  The verifier URI is no
    compiled-in name and the server does not serve it, while the proving
    key loads.  With caching off, [fetchKeys] answers normally with a
    pair whose second component is the [Error] object of
    [getVerifyingKey]; with caching on (and the key not cached) the same
    call throws, since storing the pair calls [toBytes] on that object. *)
Theorem unloadable_verifying_key this pu vu ck b w1 pk (σ : St W) :
  find (fun g => String.eqb vu (verifier (CREDITS_PROGRAM_KEYS g))) verifier_cases = None ->
  (forall w, (http_get vu w).1 = None) ->
  http_get pu (world σ) = (Some b, w1) ->
  ProvingKey_fromBytes b = Some pk ->
  (cacheOption this = false ->
   exists e σ', fetchKeys' this pu vu ck σ = (Ok ((pk, ErrVal e), this), σ'))
  /\ (cacheOption this = true ->
      cache this !! (if truthy ck then default "" ck else pu) = None ->
      exists msg σ', fetchKeys' this pu vu ck σ = (Throw (Error msg), σ')).
Proof.
  intros Hcase Hnone Hget Hpk. split.
  - intros Hopt. unfold fetchKeys. rewrite Hopt.
    unfold try_ at 1, bind at 1, fetchBytes, try_, get, call. rewrite Hget.
    cbn [fst snd]. unfold bind at 1, provingKey_of. rewrite Hpk. cbn [ret].
    unfold bind at 1.
    match goal with
    | |- context [getVerifyingKey' vu ?s] =>
        destruct (getVerifyingKey_result vu s) as [r [σ' [evs [Hrun [_ [_ Herr]]]]]]
    end.
    destruct (Herr Hcase Hnone) as [e ->]. rewrite Hrun.
    by exists e, σ'.
  - intros Hopt Hmiss. unfold fetchKeys. rewrite Hopt, Hmiss.
    unfold try_ at 1, bind at 1, emit. cbn [world trace].
    unfold bind at 1, fetchBytes, try_, get, call. cbn [world trace]. rewrite Hget.
    cbn [fst snd]. unfold bind at 1, provingKey_of. rewrite Hpk. cbn [ret].
    unfold bind at 1, emit. cbn [world trace]. unfold bind at 1.
    match goal with
    | |- context [getVerifyingKey' vu ?s] =>
        destruct (getVerifyingKey_result vu s) as [r [σ' [evs [Hrun [_ [_ Herr]]]]]]
    end.
    destruct (Herr Hcase Hnone) as [e ->]. rewrite Hrun.
    unfold bind, toBytes_of, throw. by eexists _, _.
Qed.

(** X7 ([getVerifyingKey] does not throw).  Every call answers with a key
    or with an [Error] object as its result, after at most two requests,
    both for the URI given; a compiled-in verifier name is answered with
    the compiled-in key and without any request or other event. *)
Theorem getVerifyingKey_never_throws verifierUri (σ : St W) :
  (exists r σ' evs,
      getVerifyingKey' verifierUri σ = (Ok r, σ')
      /\ trace σ' = (trace σ ++ evs)%list
      /\ (http_urls evs = [] \/ http_urls evs = [verifierUri]
          \/ http_urls evs = [verifierUri; verifierUri]))
  /\ (forall f,
        getVerifyingKey' (verifier (CREDITS_PROGRAM_KEYS f)) σ
        = (Ok (Val (verifyingKey f)), σ)).
Proof.
  split; [|intros; apply getVerifyingKey_builtin].
  destruct (getVerifyingKey_result verifierUri σ) as [r [σ' [evs [H1 [H2 [H3 _]]]]]].
  by exists r, σ', evs.
Qed.

Abbreviation getters' :=
  (getters http_get ProvingKey_fromBytes ProvingKey_toBytes VerifyingKey_fromBytes
           VerifyingKey_fromString VerifyingKey_toBytes verifyingKey).

Lemma getters_spec f get :
  (f, get) ∈ getters' ->
  get = fun this =>
          fetchKeys' this (prover (CREDITS_PROGRAM_KEYS f))
                     (verifier (CREDITS_PROGRAM_KEYS f))
                     (Some (locator (CREDITS_PROGRAM_KEYS f))).
Proof.
  unfold getters. rewrite !elem_of_cons, elem_of_nil.
  intros H. repeat (destruct H as [H|H]); try contradiction;
    injection H as -> ->; reflexivity.
Qed.

(** With a compiled-in verifier name, [fetchKeys] requests nothing but
    the prover URL, and that at most once. *)
Lemma fetchKeys_builtin_trace this f pu ck (σ : St W) :
  exists evs,
    trace (fetchKeys' this pu (verifier (CREDITS_PROGRAM_KEYS f)) ck σ).2
    = (trace σ ++ evs)%list
    /\ (http_urls evs = [] \/ http_urls evs = [pu]).
Proof.
  unfold fetchKeys.
  destruct (cacheOption this).
  - destruct (cache this !! _) as [[pb vb]|].
    + exists []. rewrite app_nil_r. split; [|by left].
      unfold try_, bind, provingKey_of, verifyingKey_of, ret, throw. simpl.
      destruct (ProvingKey_fromBytes pb); [|reflexivity].
      destruct (VerifyingKey_fromBytes vb); reflexivity.
    + unfold try_ at 1, bind at 1, emit. cbn [world trace].
      unfold bind at 1, fetchBytes, try_, get, call. cbn [world trace].
      destruct (http_get pu (world σ)) as [[b|] w1]; cbn [fst snd throw is_ok].
      * unfold bind at 1, provingKey_of.
        destruct (ProvingKey_fromBytes b) as [pk|]; cbn [ret throw].
        -- unfold bind at 1, emit. cbn [world trace]. unfold bind at 1.
           rewrite getVerifyingKey_builtin. unfold bind, toBytes_of, ret. cbn [snd trace].
           eexists [_; _; _]. split; [by rewrite <- !app_assoc|by right].
        -- eexists [_; _]. split; [by rewrite <- !app_assoc|by right].
      * eexists [_; _]. split; [by rewrite <- !app_assoc|by right].
  - unfold try_ at 1, bind at 1, fetchBytes, try_, get, call.
    destruct (http_get pu (world σ)) as [[b|] w1]; cbn [fst snd throw is_ok].
    + unfold bind at 1, provingKey_of.
      destruct (ProvingKey_fromBytes b) as [pk|]; cbn [ret throw].
      * unfold bind at 1. rewrite getVerifyingKey_builtin. unfold ret. cbn [snd trace].
        eexists [_]. split; [reflexivity|by right].
      * eexists [_]. split; [reflexivity|by right].
    + eexists [_]. split; [reflexivity|by right].
Qed.

(** ... and a pair that is not served from the cache carries the
    compiled-in verifying key. *)
Lemma fetchKeys_builtin_key this f pu ck r (σ σ' : St W) :
  fetchKeys' this pu (verifier (CREDITS_PROGRAM_KEYS f)) ck σ = (Ok r, σ') ->
  cacheOption this = false
  \/ cache this !! (if truthy ck then default "" ck else pu) = None ->
  r.1.2 = Val (verifyingKey f).
Proof.
  unfold fetchKeys. intros Hcall Hfresh.
  destruct (cacheOption this).
  - destruct Hfresh as [|Hmiss]; [discriminate|]. rewrite Hmiss in Hcall.
    unfold try_ at 1, bind at 1, emit in Hcall. cbn [world trace] in Hcall.
    unfold bind at 1, fetchBytes, try_, get, call in Hcall. cbn [world trace] in Hcall.
    destruct (http_get pu (world σ)) as [[b|] w1]; cbn [fst snd throw] in Hcall;
      [|discriminate].
    unfold bind at 1, provingKey_of in Hcall.
    destruct (ProvingKey_fromBytes b) as [pk|]; cbn [ret throw] in Hcall; [|discriminate].
    unfold bind at 1, emit in Hcall. cbn [world trace] in Hcall.
    unfold bind at 1 in Hcall. rewrite getVerifyingKey_builtin in Hcall.
    unfold bind, toBytes_of, ret in Hcall. by injection Hcall as <- _.
  - unfold try_ at 1, bind at 1, fetchBytes, try_, get, call in Hcall.
    destruct (http_get pu (world σ)) as [[b|] w1]; cbn [fst snd throw] in Hcall;
      [|discriminate].
    unfold bind at 1, provingKey_of in Hcall.
    destruct (ProvingKey_fromBytes b) as [pk|]; cbn [ret throw] in Hcall; [|discriminate].
    unfold bind at 1 in Hcall. rewrite getVerifyingKey_builtin in Hcall.
    unfold ret in Hcall. by injection Hcall as <- _.
Qed.

(** X8 (credits key getters download the prover only).  Each getter of
    the class requests at most one URL, the function's prover file under
    [KEY_STORE], and never a verifying key: a pair that is not served
    from the cache carries the verifying key compiled into the engine. *)
Theorem credits_getters_request_prover_only f get this (σ : St W) :
  (f, get) ∈ getters' ->
  (exists evs,
      trace (get this σ).2 = (trace σ ++ evs)%list
      /\ (http_urls evs = [] \/ http_urls evs = [prover (CREDITS_PROGRAM_KEYS f)]))
  /\ (exists file, prover (CREDITS_PROGRAM_KEYS f) = KEY_STORE ++ file)
  /\ (forall keys this' σ',
        get this σ = (Ok (keys, this'), σ') ->
        cacheOption this = false
        \/ cache this !! locator (CREDITS_PROGRAM_KEYS f) = None ->
        keys.2 = Val (verifyingKey f)).
Proof.
  intros Hin. rewrite (getters_spec f get Hin). split; [|split].
  - apply fetchKeys_builtin_trace.
  - destruct f; eexists; reflexivity.
  - intros keys this' σ' Hcall Hfresh.
    apply (fetchKeys_builtin_key _ _ _ _ _ _ _ Hcall).
    destruct Hfresh as [Hoff|Hmiss]; [by left|right].
    replace (truthy (Some (locator (CREDITS_PROGRAM_KEYS f)))) with true
      by (destruct f; reflexivity).
    exact Hmiss.
Qed.

(** X9 (key cache: delete).  [deleteKeys] answers whether the id was
    cached; afterwards the id is not cached, [getKeys] answers it with
    the [Error] object "Key not found in cache." and a second delete
    answers false; the other ids and the caching option are untouched.
    An id just stored with [cacheKeys] is there to delete, and
    [clearCache] leaves no id cached. *)
Theorem deleteKeys_forgets this keyId (σ : St W) :
  let this' := (deleteKeys this keyId).2 in
  (deleteKeys this keyId).1 = containsKeys this keyId
  /\ containsKeys this' keyId = false
  /\ (getKeys' this' keyId σ).1 = Ok (ErrVal (Error "Key not found in cache."))
  /\ (deleteKeys this' keyId).1 = false
  /\ (forall k, k <> keyId -> containsKeys this' k = containsKeys this k
                              /\ cache this' !! k = cache this !! k)
  /\ cacheOption this' = cacheOption this
  /\ (forall keys, (deleteKeys (cacheKeys' this keyId keys) keyId).1 = true)
  /\ (forall k, containsKeys (clearCache this) k = false).
Proof.
  intros this'. unfold this', deleteKeys, containsKeys. cbn [fst snd cache cacheOption].
  split; [reflexivity|]. rewrite lookup_delete_eq.
  split; [by apply bool_decide_eq_false, is_Some_None|].
  split.
  { unfold getKeys, bind, emit. cbn [cache]. by rewrite lookup_delete_eq. }
  split; [by apply bool_decide_eq_false, is_Some_None|].
  split; [intros k Hk; by rewrite lookup_delete_ne|].
  split; [reflexivity|]. split.
  - intros [pk vk]. unfold cacheKeys. cbn [cache]. rewrite lookup_insert_eq.
    by apply bool_decide_eq_true.
  - intros k. unfold clearCache. cbn [cache]. rewrite lookup_empty.
    by apply bool_decide_eq_false, is_Some_None.
Qed.

End Provider.

Lemma fetched_keys_are_cached_witness :
  KeyFixture.test_fetchKeys CreditsKeysFixture.provider_with_hello
    "https://keys.example/hello.prover" "https://keys.example/hello.verifier" None
    (mkSt [] [])
  = (Ok ((KeyFixture.hello_prover, Val KeyFixture.hello_verifier),
         CreditsKeysFixture.provider_with_hello), mkSt [] []).
Proof.
  eapply (fetched_keys_are_cached KeyFixture.key_http_get KeyFixture.key_fromBytes
            KeyFixture.key_toBytes KeyFixture.key_fromBytes KeyFixture.key_fromString
            KeyFixture.key_toBytes KeyFixture.builtin_verifier
            (useCache new_AleoKeyProvider true)
            "https://keys.example/hello.prover" "https://keys.example/hello.verifier" None
            KeyFixture.hello_prover KeyFixture.hello_verifier
            CreditsKeysFixture.provider_with_hello KeyFixture.test_server _
            eq_refl eq_refl eq_refl).
  vm_compute. reflexivity.
Defined.

Lemma unloadable_verifying_key_witness :
  (exists e σ',
      CreditsKeysFixture.static_fetchKeys new_AleoKeyProvider
        "https://keys.example/hello.prover" "https://keys.example/hello.verifier" None
        (mkSt 0%nat [])
      = (Ok ((KeyFixture.hello_prover, ErrVal e), new_AleoKeyProvider), σ'))
  /\ (exists msg σ',
         CreditsKeysFixture.static_fetchKeys (useCache new_AleoKeyProvider true)
           "https://keys.example/hello.prover" "https://keys.example/hello.verifier" None
           (mkSt 0%nat [])
         = (Throw (Error msg), σ')).
Proof.
  pose proof (fun this =>
                unloadable_verifying_key CreditsKeysFixture.static_http_get
                  KeyFixture.key_fromBytes KeyFixture.key_toBytes KeyFixture.key_fromBytes
                  KeyFixture.key_fromString KeyFixture.key_toBytes
                  KeyFixture.builtin_verifier this
                  "https://keys.example/hello.prover"
                  "https://keys.example/hello.verifier" None
                  KeyFixture.hello_prover 1%nat KeyFixture.hello_prover (mkSt 0%nat [])
                  ltac:(vm_compute; reflexivity) (fun w => eq_refl) eq_refl eq_refl)
    as Hcases.
  split.
  - exact (proj1 (Hcases new_AleoKeyProvider) eq_refl).
  - exact (proj2 (Hcases (useCache new_AleoKeyProvider true)) eq_refl eq_refl).
Defined.

Lemma credits_getters_request_prover_only_witness :
  exists evs,
    trace (CreditsKeysFixture.test_joinKeys new_AleoKeyProvider KeyFixture.test_server).2
    = (trace KeyFixture.test_server ++ evs)%list
    /\ (http_urls evs = [] \/ http_urls evs = [prover (CREDITS_PROGRAM_KEYS join)]).
Proof.
  apply (proj1 (credits_getters_request_prover_only KeyFixture.key_http_get
                  KeyFixture.key_fromBytes KeyFixture.key_toBytes KeyFixture.key_fromBytes
                  KeyFixture.key_fromString KeyFixture.key_toBytes
                  KeyFixture.builtin_verifier join CreditsKeysFixture.test_joinKeys
                  new_AleoKeyProvider KeyFixture.test_server ltac:(in_list))).
Defined.
End CreditsKeysProofs.

(* ===================================================================== *)
(** * OfflineKeyProvider: proofs *)
(* ===================================================================== *)

Module OfflineProofs.
Import KeyProvider OfflineKeys OfflineSpec.

Example offline_poisoned :
  OfflineFixture.test_functionKeys OfflineFixture.poisoned (Some joinKeyParams)
  = Some (Throw (Error "Cached keys do not match expected keys for credits.aleo/join"))
  /\ OfflineFixture.test_functionKeys OfflineFixture.poisoned
       (Some (new_OfflineSearchParams "credits.aleo/join" None))
     = Some (Ok (KeyFixture.hello_prover, KeyFixture.hello_verifier)).
Proof. split; vm_compute; reflexivity. Qed.

(** The locators of [CREDITS_PROGRAM_KEYS] are pairwise distinct, so the
    [switch] of [verifyCreditsKeys] reaches the case of the function whose
    locator it is given. *)
Lemma locator_case f :
  find (fun g => String.eqb (locator (CREDITS_PROGRAM_KEYS f))
                            (locator (CREDITS_PROGRAM_KEYS g))) locator_cases
  = Some f.
Proof. destruct f; vm_compute; reflexivity. Qed.

Lemma locator_case_inv keyId f :
  find (fun g => String.eqb keyId (locator (CREDITS_PROGRAM_KEYS g))) locator_cases
  = Some f ->
  keyId = locator (CREDITS_PROGRAM_KEYS f).
Proof.
  intros H. apply find_some in H as [_ H]. by apply String.eqb_eq in H.
Qed.

Lemma keyParams_spec f :
  keyParams f = mkOfflineSearchParams (locator (CREDITS_PROGRAM_KEYS f)) true.
Proof. destruct f; reflexivity. Qed.

Section Provider.
Context {ProvingKey VerifyingKey : Type}.
Variable ProvingKey_fromBytes : bytes -> option ProvingKey.
Variable ProvingKey_toBytes : ProvingKey -> bytes.
Variable VerifyingKey_fromBytes : bytes -> option VerifyingKey.
Variable VerifyingKey_toBytes : VerifyingKey -> bytes.
Variable isProver : CreditsFunction -> ProvingKey -> bool.
Variable isVerifier : CreditsFunction -> VerifyingKey -> bool.
Variable verifyingKey : CreditsFunction -> VerifyingKey.

Abbreviation functionKeys' :=
  (functionKeys ProvingKey_fromBytes VerifyingKey_fromBytes isProver isVerifier).
Abbreviation verifyCreditsKeys' := (verifyCreditsKeys isProver isVerifier).
Abbreviation insert' :=
  (insert_credits_keys ProvingKey_toBytes VerifyingKey_toBytes isProver verifyingKey).

Abbreviation insert_methods' :=
  (insert_methods ProvingKey_toBytes VerifyingKey_toBytes isProver verifyingKey).

Lemma insert_methods_spec f ins :
  (f, ins) ∈ insert_methods' -> exists name, ins = insert' f name.
Proof.
  unfold insert_methods. rewrite !elem_of_cons, elem_of_nil.
  intros H. repeat (destruct H as [H|H]); try contradiction;
    injection H as -> ->; eexists; reflexivity.
Qed.

(** When a lookup is fulfilled: the id is cached, both byte arrays parse,
    and the check, if asked for, passed.  A failed check rejects the
    promise before [resolve] is reached, and the rejection stands. *)
Lemma functionKeys_fulfilled this params pk vk :
  functionKeys' this (Some params) = Some (Ok (pk, vk)) <->
  exists pb vb,
    cache this !! os_cacheKey params = Some (pb, vb)
    /\ ProvingKey_fromBytes pb = Some pk /\ VerifyingKey_fromBytes vb = Some vk
    /\ (os_verifyCreditsKeys params = true ->
        verifyCreditsKeys' (os_cacheKey params) pk vk = true).
Proof.
  unfold functionKeys, new_Promise. split.
  - destruct (cache this !! os_cacheKey params) as [[pb vb]|]; [|discriminate].
    destruct (ProvingKey_fromBytes pb) as [pk'|] eqn:Hpk; [|discriminate].
    destruct (VerifyingKey_fromBytes vb) as [vk'|] eqn:Hvk; [|discriminate].
    destruct (os_verifyCreditsKeys params).
    + destruct (verifyCreditsKeys' _ pk' vk') eqn:Hv; simpl; [|discriminate].
      intros [= <- <-]. by exists pb, vb.
    + simpl. intros [= <- <-]. by exists pb, vb.
  - intros [pb [vb [-> [-> [-> Hv]]]]].
    destruct (os_verifyCreditsKeys params); [|reflexivity].
    by rewrite Hv.
Qed.

Lemma functionKeys_settles this params : is_Some (functionKeys' this params).
Proof.
  unfold functionKeys, new_Promise. destruct params as [params|]; [|by eexists].
  destruct (cache this !! os_cacheKey params) as [[pb vb]|]; [|by eexists].
  destruct (ProvingKey_fromBytes pb); [|by eexists].
  destruct (VerifyingKey_fromBytes vb); [|by eexists].
  destruct (os_verifyCreditsKeys params); [|by eexists].
  destruct (verifyCreditsKeys' _ _ _); by eexists.
Qed.

(** X10 (offline keys: insert, then get).  Each of the thirteen insert
    methods, given a proving key that passes the function's checksum
    test, stores it so that a lookup with the function's own search
    parameters is fulfilled with that proving key and the compiled-in
    verifying key, and leaves the entries of all other ids as they were;
    given a proving key that fails the test, it throws. *)
Theorem inserted_keys_are_served f ins this provingKey :
  (f, ins) ∈ insert_methods' ->
  ProvingKey_fromBytes (ProvingKey_toBytes provingKey) = Some provingKey ->
  VerifyingKey_fromBytes (VerifyingKey_toBytes (verifyingKey f)) = Some (verifyingKey f) ->
  isVerifier f (verifyingKey f) = true ->
  (isProver f provingKey = true ->
   exists this',
     ins this provingKey = Ok this'
     /\ functionKeys' this' (Some (keyParams f)) = Some (Ok (provingKey, verifyingKey f))
     /\ forall keyId, keyId <> locator (CREDITS_PROGRAM_KEYS f) ->
                      cache this' !! keyId = cache this !! keyId)
  /\ (isProver f provingKey = false -> exists msg, ins this provingKey = Throw (Error msg)).
Proof.
  intros Hin Hpk Hvk Hver. destruct (insert_methods_spec f ins Hin) as [name ->].
  unfold insert_credits_keys. split; intros Hprover; rewrite Hprover; [|by eexists].
  eexists. split; [reflexivity|]. split.
  - apply functionKeys_fulfilled. rewrite keyParams_spec. simpl.
    eexists _, _. split; [apply lookup_insert_eq|].
    split; [exact Hpk|]. split; [exact Hvk|]. intros _.
    unfold verifyCreditsKeys. rewrite locator_case. by rewrite Hprover, Hver.
  - intros keyId Hne. simpl. by rewrite lookup_insert_ne.
Qed.

(** X11 (offline keys: what the credits getters hand out was checked).
    Whatever the cache holds, a lookup that asks for verification is
    fulfilled only with a pair that passed the checksum tests of the
    credits function whose locator the id is; so it is never fulfilled
    for an id that is no credits locator.  The promise always settles.
    A lookup that does not ask for verification is fulfilled with the
    cached pair unchecked. *)
Theorem verified_lookup_is_checked this :
  (forall keyId pk vk,
      functionKeys' this (Some (mkOfflineSearchParams keyId true)) = Some (Ok (pk, vk)) ->
      exists f, keyId = locator (CREDITS_PROGRAM_KEYS f)
                /\ isProver f pk = true /\ isVerifier f vk = true)
  /\ (forall f pk vk,
        functionKeys' this (Some (keyParams f)) = Some (Ok (pk, vk)) ->
        isProver f pk = true /\ isVerifier f vk = true)
  /\ (forall params, is_Some (functionKeys' this params))
  /\ (forall keyId pb vb pk vk,
        cache this !! keyId = Some (pb, vb) ->
        ProvingKey_fromBytes pb = Some pk -> VerifyingKey_fromBytes vb = Some vk ->
        functionKeys' this (Some (new_OfflineSearchParams keyId None))
        = Some (Ok (pk, vk))).
Proof.
  assert (Hchecked : forall keyId pk vk,
             functionKeys' this (Some (mkOfflineSearchParams keyId true))
             = Some (Ok (pk, vk)) ->
             exists f, keyId = locator (CREDITS_PROGRAM_KEYS f)
                       /\ isProver f pk = true /\ isVerifier f vk = true).
  { intros keyId pk vk H. apply functionKeys_fulfilled in H as [pb [vb [_ [_ [_ Hv]]]]].
    specialize (Hv eq_refl). simpl in Hv. unfold verifyCreditsKeys in Hv.
    destruct (find _ locator_cases) as [f|] eqn:Hf; [|discriminate].
    apply andb_true_iff in Hv as [Hp Hv].
    exists f. split; [by apply locator_case_inv|]. by split. }
  split; [exact Hchecked|]. split; [|split; [apply functionKeys_settles|]].
  - intros f pk vk H. rewrite keyParams_spec in H.
    apply functionKeys_fulfilled in H as [pb [vb [_ [_ [_ Hv]]]]].
    specialize (Hv eq_refl). simpl in Hv. unfold verifyCreditsKeys in Hv.
    rewrite locator_case in Hv. by apply andb_true_iff in Hv.
  - intros keyId pb vb pk vk Hc Hpk Hvk. apply functionKeys_fulfilled.
    exists pb, vb. simpl. repeat split; try assumption. discriminate.
Qed.

End Provider.

Section BothProviders.
Context {W ProvingKey VerifyingKey : Type}.
Variable http_get : string -> W -> option bytes * W.
Variable ProvingKey_fromBytes : bytes -> option ProvingKey.
Variable ProvingKey_toBytes : ProvingKey -> bytes.
Variable VerifyingKey_fromBytes : bytes -> option VerifyingKey.
Variable VerifyingKey_fromString : string -> option VerifyingKey.
Variable VerifyingKey_toBytes : VerifyingKey -> bytes.
Variable verifyingKey : CreditsFunction -> VerifyingKey.
Variable isProver : CreditsFunction -> ProvingKey -> bool.
Variable isVerifier : CreditsFunction -> VerifyingKey -> bool.

Abbreviation aleo_transferKeys :=
  (KeyProvider.transferKeys http_get ProvingKey_fromBytes ProvingKey_toBytes
     VerifyingKey_fromBytes VerifyingKey_fromString VerifyingKey_toBytes verifyingKey).
Abbreviation aleo_fetchKeys :=
  (KeyProvider.fetchKeys http_get ProvingKey_fromBytes ProvingKey_toBytes
     VerifyingKey_fromBytes VerifyingKey_fromString VerifyingKey_toBytes verifyingKey).
Abbreviation offline_transferKeys :=
  (transferKeys ProvingKey_fromBytes VerifyingKey_fromBytes isProver isVerifier).
Abbreviation offline_functionKeys :=
  (functionKeys ProvingKey_fromBytes VerifyingKey_fromBytes isProver isVerifier).

(** X12 (transfer keys: the two providers agree).  For every visibility
    string, [AleoKeyProvider.transferKeys] and
    [OfflineKeyProvider.transferKeys] either both serve the keys of the
    same one of the four transfer functions (the first fetching them by
    the function's URLs, the second looking them up, verified, under the
    function's locator), or both fail with "Invalid visibility type"; and
    a string they refuse is also refused by [validateTransferType]. *)
Theorem transferKeys_agree (aleo : AleoKeyProvider) (offline : OfflineKeyProvider)
        (visibility : string) :
  (exists f,
      f ∈ [ transfer_private; transfer_private_to_public;
            transfer_public; transfer_public_to_private ]
      /\ aleo_transferKeys aleo visibility
         = aleo_fetchKeys aleo (prover (CREDITS_PROGRAM_KEYS f))
                          (verifier (CREDITS_PROGRAM_KEYS f))
                          (Some (locator (CREDITS_PROGRAM_KEYS f)))
      /\ offline_transferKeys offline visibility
         = offline_functionKeys offline (Some (keyParams f)))
  \/ (aleo_transferKeys aleo visibility = throw (Error "Invalid visibility type")
      /\ offline_transferKeys offline visibility
         = Some (Throw (Error "Invalid visibility type"))
      /\ has ProgramManager.VALID_TRANSFER_TYPES visibility = false).
Proof.
  unfold KeyProvider.transferKeys, transferKeys.
  destruct (has PRIVATE_TRANSFER visibility) eqn:H1;
    [left; exists transfer_private; split; [in_list|by split]|].
  destruct (has PRIVATE_TO_PUBLIC_TRANSFER visibility) eqn:H2;
    [left; exists transfer_private_to_public; split; [in_list|by split]|].
  destruct (has PUBLIC_TRANSFER visibility) eqn:H3;
    [left; exists transfer_public; split; [in_list|by split]|].
  destruct (has PUBLIC_TO_PRIVATE_TRANSFER visibility) eqn:H4;
    [left; exists transfer_public_to_private; split; [in_list|by split]|].
  right. split; [reflexivity|]. split; [reflexivity|].
  destruct (has ProgramManager.VALID_TRANSFER_TYPES visibility) eqn:Hv; [|reflexivity].
  exfalso. unfold has in Hv. rewrite bool_decide_eq_true in Hv.
  unfold ProgramManager.VALID_TRANSFER_TYPES in Hv.
  rewrite !elem_of_union, !elem_of_singleton in Hv.
  repeat (destruct Hv as [Hv|Hv]); try contradiction; subst visibility;
    vm_compute in H1, H2, H3, H4; discriminate.
Qed.
End BothProviders.

Lemma inserted_keys_are_served_witness :
  (exists this',
      OfflineFixture.test_insert join "join" new_OfflineKeyProvider
        (OfflineFixture.toy_prover join) = Ok this'
      /\ OfflineFixture.test_functionKeys this' (Some joinKeyParams)
         = Some (Ok (OfflineFixture.toy_prover join, KeyFixture.builtin_verifier join)))
  /\ (exists msg,
         OfflineFixture.test_insert join "join" new_OfflineKeyProvider
           KeyFixture.hello_prover = Throw (Error msg)).
Proof.
  pose proof (fun provingKey Hpk =>
                inserted_keys_are_served KeyFixture.key_fromBytes KeyFixture.key_toBytes
                  KeyFixture.key_fromBytes KeyFixture.key_toBytes
                  OfflineFixture.toy_isProver OfflineFixture.toy_isVerifier
                  KeyFixture.builtin_verifier join (OfflineFixture.test_insert join "join")
                  new_OfflineKeyProvider provingKey ltac:(in_list) Hpk eq_refl
                  ltac:(vm_compute; reflexivity)) as Hcases.
  split.
  - destruct (proj1 (Hcases (OfflineFixture.toy_prover join) eq_refl)
                    ltac:(vm_compute; reflexivity)) as (this' & Hins & Hget & _).
    exists this'. by split.
  - exact (proj2 (Hcases KeyFixture.hello_prover eq_refl) ltac:(vm_compute; reflexivity)).
Defined.
End OfflineProofs.

(* ===================================================================== *)
(** * AleoNetworkClient: program and transaction queries, proofs *)
(* ===================================================================== *)

Module NetworkQueriesProofs.
Import NetworkQueries ImportsSpec.

Section Client.
Context {W Program Transaction : Type}.
Variable node_get : string -> W -> option Json * W.
Variable node_post : string -> string -> W -> PostAnswer * W.
Variable Program_fromString : string -> option Program.
Variable getImports : Program -> list string.
Variable Program_toString : Program -> string.
Variable Transaction_toString : Transaction -> string.
Variable host : string.

Abbreviation fetchData' := (fetchData node_get host).
Abbreviation getProgram' := (getProgram node_get host).
Abbreviation getTransaction' := (getTransaction node_get host).
Abbreviation getProgramObject' := (getProgramObject node_get Program_fromString host).
Abbreviation resolve_program' := (resolve_program node_get Program_fromString host).
Abbreviation getProgramImports' :=
  (getProgramImports node_get Program_fromString getImports host).
Abbreviation import_step' := (import_step (Program:=Program) node_get host).
Abbreviation submitTransaction' := (submitTransaction node_post Transaction_toString host).

Abbreviation after_get' := (after_get node_get host).

Lemma fetchData_run url (σ : St W) :
  fetchData' url σ
  = (match (node_get (host ++ url) (world σ)).1 with
     | Some j => Ok j
     | None => Throw (Error "Error fetching data.")
     end, after_get' url σ).
Proof.
  unfold fetchData, try_, call, after_get.
  destruct (node_get (host ++ url) (world σ)) as [[j|] w']; reflexivity.
Qed.

(** One of the plain getters: the path is fetched once, and whatever goes
    wrong surfaces as the getter's own message. *)
Lemma getter_run url msg (σ : St W) :
  try_ (fetchData' url) (fun _ => throw (Error msg)) σ
  = (match (node_get (host ++ url) (world σ)).1 with
     | Some j => Ok j
     | None => Throw (Error msg)
     end, after_get' url σ).
Proof.
  unfold try_ at 1. rewrite fetchData_run.
  destruct (node_get (host ++ url) (world σ)).1; reflexivity.
Qed.

Lemma getProgram_run id (σ : St W) :
  getProgram' id σ
  = (match (node_get (host ++ "/program/" ++ id) (world σ)).1 with
     | Some j => Ok j
     | None => Throw (Error "Error fetching program")
     end, after_get' ("/program/" ++ id) σ).
Proof. apply getter_run. Qed.

(** X13 (submitting a transaction).  [submitTransaction] answers with the
    JSON body of the node's response.  Every failure is thrown as an
    [Error] whose message starts with "Error posting transaction: No
    response received: ": also when a response did arrive and only its
    body could not be read, in which case the message of the inner
    [catch] is wrapped once more. *)
Theorem submitTransaction_answer transaction (σ : St W) :
  let body := match transaction with
              | TxObject t => Transaction_toString t
              | TxString s => s
              end in
  let answer := node_post (host ++ "/transaction/broadcast") body (world σ) in
  submitTransaction' transaction σ
  = (match answer.1 with
     | PostOk j => Ok j
     | PostBadBody message =>
         Throw (Error ("Error posting transaction: No response received: "
                       ++ "Error posting transaction. Aleo network response: "
                       ++ message))
     | PostFailed message =>
         Throw (Error ("Error posting transaction: No response received: " ++ message))
     end, mkSt answer.2 (trace σ)).
Proof.
  intros body answer. unfold submitTransaction. fold body.
  unfold try_ at 1, bind at 1. fold answer.
  destruct answer as [[m|m|j] w']; reflexivity.
Qed.

(** X14 (program objects: local first).  An input that parses as a program
    is answered without any request.  Any other input is requested once,
    as a program id, and the answer of the node is parsed; whatever goes
    wrong, the one error is "<input> is neither a program name or a valid
    program". *)
Theorem getProgramObject_local_first inputProgram (σ : St W) :
  (forall p, Program_fromString inputProgram = Some p ->
             getProgramObject' inputProgram σ = (Ok p, σ))
  /\ (Program_fromString inputProgram = None ->
      getProgramObject' inputProgram σ
      = (match (node_get (host ++ "/program/" ++ inputProgram) (world σ)).1
               ≫= program_of_json Program_fromString with
         | Some p => Ok p
         | None => Throw (Error (inputProgram
                                 ++ " is neither a program name or a valid program"))
         end, after_get' ("/program/" ++ inputProgram) σ)).
Proof.
  unfold getProgramObject. split.
  - by intros p ->.
  - intros ->. unfold try_ at 1, bind at 1. rewrite getProgram_run.
    destruct (node_get (host ++ "/program/" ++ inputProgram) (world σ)).1 as [j|];
      [|reflexivity].
    simpl. destruct (program_of_json Program_fromString j); reflexivity.
Qed.

Abbreviation getDeploymentTransactionForProgram' :=
  (getDeploymentTransactionForProgram node_get Program_toString host).

(** X15 (the deployment transaction of a program).  The id of the
    deployment transaction is looked up under the program's text, and the
    transaction under that id with its first double quote removed (a
    second one stays).  A lookup that fails, an id that is no string and
    a transaction that cannot be fetched all end in the one error "Error
    fetching deployment transaction for program.". *)
Theorem getDeploymentTransactionForProgram_lookups program (σ : St W) :
  let name := match program with
              | ProgObject p => Program_toString p
              | ProgString s => s
              end in
  let failed := Throw (Error "Error fetching deployment transaction for program.") in
  let σ1 := after_get' ("/find/transactionID/deployment/" ++ name) σ in
  getDeploymentTransactionForProgram' program σ
  = match (node_get (host ++ "/find/transactionID/deployment/" ++ name) (world σ)).1 with
    | Some (JString id) =>
        let path := "/transaction/" ++ remove_first double_quote id in
        (match (node_get (host ++ path) (world σ1)).1 with
         | Some j => Ok j
         | None => failed
         end, after_get' path σ1)
    | _ => (failed, σ1)
    end
  /\ (forall id, remove_first double_quote (String double_quote id) = id)
  /\ (forall id, (forall c, c ∈ String.list_ascii_of_string id -> c <> double_quote) ->
                 remove_first double_quote id = id).
Proof.
  intros name failed σ1. split; [|split].
  - unfold getDeploymentTransactionForProgram, getDeploymentTransactionIDForProgram.
    fold name. unfold try_ at 1, bind at 1, try_ at 1, bind at 1.
    rewrite fetchData_run. fold σ1.
    destruct (node_get (host ++ "/find/transactionID/deployment/" ++ name) (world σ)).1
      as [[n|id|bs|]|]; try reflexivity.
    cbn [ret]. unfold getTransaction. rewrite getter_run.
    cbv zeta. destruct (node_get _ (world σ1)).1; reflexivity.
  - reflexivity.
  - induction id as [|c id IH]; intros Hno; [reflexivity|].
    cbn [remove_first]. destruct (Ascii.eqb_spec double_quote c) as [<-|Hne].
    + exfalso. apply (Hno double_quote); [|reflexivity].
      cbn [String.list_ascii_of_string]. apply elem_of_cons. by left.
    + f_equal. apply IH. intros c' Hc'. apply Hno.
      cbn [String.list_ascii_of_string]. apply elem_of_cons. by right.
Qed.

Lemma getProgramImports_S fuel inputProgram :
  getProgramImports' (S fuel) inputProgram
  = try_
      (do program <- resolve_program' inputProgram;
       do r <- for_each (getImports program) (import_step' (getProgramImports' fuel)) ∅;
       match r with
       | Next imports => ret (Some imports)
       | Return unfinished => ret unfinished
       end)
      (fun error =>
         logAndThrow ("Error fetching program imports: " ++ exn_to_string error)).
Proof. reflexivity. Qed.

(** The loop never leaves the method with a map: its only [return] is
    the one that gives up. *)
Lemma import_step_return recur id imports r (σ σ' : St W) :
  import_step' recur id imports σ = (Ok (Return r), σ') -> r = None.
Proof.
  unfold import_step. case_bool_decide; [discriminate|].
  unfold bind at 1.
  destruct (getProgram' id σ) as [[src|e] σ2]; [|discriminate].
  unfold bind.
  destruct (recur (ProgString id) σ2) as [[[nested|]|e] σ3]; try discriminate.
  unfold ret. by intros [= <- _].
Qed.

Lemma import_loop_return recur l imports r (σ σ' : St W) :
  for_each l (import_step' recur) imports σ = (Ok (Return r), σ') -> r = None.
Proof.
  revert imports σ. induction l as [|id l IH]; intros imports σ; simpl.
  - discriminate.
  - unfold bind at 1.
    destruct (import_step' recur id imports σ) as [[[imports1|r1]|e] σ1] eqn:Hstep;
      [by apply IH| |discriminate].
    unfold ret. intros [= <- _]. by eapply import_step_return.
Qed.

(** More levels of calls do not change an answer that was reached. *)
Lemma getProgramImports_fuel fuel : forall fuel' inputProgram r (σ σ' : St W),
  (fuel <= fuel')%nat ->
  getProgramImports' fuel inputProgram σ = (r, σ') -> r <> Ok None ->
  getProgramImports' fuel' inputProgram σ = (r, σ').
Proof.
  induction fuel as [|fuel IH]; intros fuel' inputProgram r σ σ' Hle Hrun Hr.
  { simpl in Hrun. unfold ret in Hrun. injection Hrun as <- _. by destruct Hr. }
  destruct fuel' as [|fuel']; [lia|].
  rewrite getProgramImports_S in *.
  assert (Hstep : forall id imports c (σ1 σ3 : St W),
             import_step' (getProgramImports' fuel) id imports σ1 = (c, σ3) ->
             c <> Ok (Return None) ->
             import_step' (getProgramImports' fuel') id imports σ1 = (c, σ3)).
  { intros id imports c σ1 σ3. unfold import_step. case_bool_decide; [done|].
    intros Hc Hne. unfold bind at 1 in Hc. unfold bind at 1.
    destruct (getProgram' id σ1) as [[src|e] σ3']; [|exact Hc].
    unfold bind in *.
    destruct (getProgramImports' fuel (ProgString id) σ3') as [[[nested|]|e] σ4] eqn:Hn.
    - by rewrite (IH fuel' (ProgString id) _ σ3' σ4 ltac:(lia) Hn).
    - unfold ret in Hc. injection Hc as <- _. by destruct Hne.
    - by rewrite (IH fuel' (ProgString id) _ σ3' σ4 ltac:(lia) Hn). }
  assert (Hloop : forall l imports res (σ1 σ2 : St W),
             for_each l (import_step' (getProgramImports' fuel)) imports σ1 = (res, σ2) ->
             res <> Ok (Return None) ->
             for_each l (import_step' (getProgramImports' fuel')) imports σ1 = (res, σ2)).
  { induction l as [|id l IHl]; intros imports res σ1 σ2; simpl; [done|].
    intros Hfor Hres. unfold bind at 1 in Hfor. unfold bind at 1.
    destruct (import_step' (getProgramImports' fuel) id imports σ1)
      as [[[imports1|r1]|e] σ3] eqn:Hc.
    - rewrite (Hstep _ _ _ _ _ Hc) by discriminate. by apply IHl.
    - rewrite (import_step_return _ _ _ _ _ _ Hc) in Hfor.
      unfold ret in Hfor. injection Hfor as <- _. by destruct Hres.
    - by rewrite (Hstep _ _ _ _ _ Hc). }
  unfold try_ in *. unfold bind at 1 in Hrun. unfold bind at 1.
  destruct (resolve_program' inputProgram σ) as [[p|e] σ1]; [|exact Hrun].
  unfold bind at 1 in Hrun. unfold bind at 1.
  destruct (for_each (getImports p) (import_step' (getProgramImports' fuel)) ∅ σ1)
    as [[[imports|r1]|e] σ2] eqn:Hfor.
  - by rewrite (Hloop _ _ _ _ _ Hfor).
  - rewrite (import_loop_return _ _ _ _ _ _ Hfor) in Hrun.
    unfold ret in Hrun. injection Hrun as <- _. by destruct Hr.
  - by rewrite (Hloop _ _ _ _ _ Hfor).
Qed.

Section Stateless.
Variable answer : string -> option Json.
Hypothesis node_answer : forall url w, (node_get url w).1 = answer url.

Abbreviation source_of' := (ImportsSpec.source_of host answer).
Abbreviation program_at' := (ImportsSpec.program_at Program_fromString host answer).
Abbreviation resolved' := (ImportsSpec.resolved Program_fromString host answer).
Abbreviation closed' := (ImportsSpec.closed Program_fromString getImports host answer).
Abbreviation depth_le' := (ImportsSpec.depth_le Program_fromString getImports host answer).

Lemma getProgram_source id (σ : St W) :
  (getProgram' id σ).1 = match source_of' id with
                         | Some j => Ok j
                         | None => Throw (Error "Error fetching program")
                         end.
Proof.
  rewrite getProgram_run. cbn [fst]. by rewrite node_answer.
Qed.

Lemma resolve_program_resolved inputProgram (σ : St W) :
  match (resolve_program' inputProgram σ).1 with
  | Ok p => resolved' inputProgram p
  | Throw _ => forall p, ~ resolved' inputProgram p
  end.
Proof.
  destruct inputProgram as [q|s]; simpl; [reflexivity|].
  unfold getProgramObject, ImportsSpec.program_at.
  destruct (Program_fromString s) as [p|]; [reflexivity|].
  unfold try_ at 1, bind at 1. rewrite getProgram_run. cbn [fst snd].
  rewrite node_answer. unfold ImportsSpec.source_of.
  destruct (answer (host ++ "/program/" ++ s)) as [j|]; simpl; [|by intros p].
  destruct (program_of_json Program_fromString j); simpl; [reflexivity|by intros p].
Qed.

Lemma closed_empty : closed' ∅.
Proof. intros id j H. by rewrite lookup_empty in H. Qed.

Lemma closed_step imports nested id src p :
  closed' imports -> closed' nested ->
  source_of' id = Some src -> program_at' id = Some p ->
  (forall id', id' ∈ getImports p -> is_Some (nested !! id')) ->
  closed' (<[id := src]> (imports ∪ nested)).
Proof.
  intros Himports Hnested Hsrc Hp Hdirect.
  assert (Hgrow : forall k, is_Some ((imports ∪ nested) !! k) ->
                            is_Some (<[id := src]> (imports ∪ nested) !! k)).
  { intros k Hk. destruct (decide (id = k)) as [->|Hne].
    - rewrite lookup_insert_eq. by eexists.
    - by rewrite lookup_insert_ne. }
  intros k j Hk. destruct (decide (id = k)) as [<-|Hne].
  - rewrite lookup_insert_eq in Hk. injection Hk as <-.
    split; [exact Hsrc|]. exists p. split; [exact Hp|].
    intros id' Hid'. apply Hgrow. destruct (Hdirect id' Hid') as [j' Hj'].
    destruct (imports !! id') as [j0|] eqn:H0.
    + exists j0. by apply lookup_union_Some_l.
    + exists j'. rewrite lookup_union_r by exact H0. exact Hj'.
  - rewrite lookup_insert_ne in Hk by exact Hne.
    apply lookup_union_Some_raw in Hk as [Hk|[Hnone Hk]].
    + destruct (Himports k j Hk) as [Hs [pk [Hpk Hin]]].
      split; [exact Hs|]. exists pk. split; [exact Hpk|].
      intros id' Hid'. apply Hgrow. destruct (Hin id' Hid') as [j' Hj'].
      exists j'. by apply lookup_union_Some_l.
    + destruct (Hnested k j Hk) as [Hs [pk [Hpk Hin]]].
      split; [exact Hs|]. exists pk. split; [exact Hpk|].
      intros id' Hid'. apply Hgrow. destruct (Hin id' Hid') as [j' Hj'].
      destruct (imports !! id') as [j0|] eqn:H0.
      * exists j0. by apply lookup_union_Some_l.
      * exists j'. rewrite lookup_union_r by exact H0. exact Hj'.
Qed.

(** What a returned map holds, by induction on the levels of calls. *)
Lemma getProgramImports_closed fuel : forall inputProgram imports (σ σ' : St W),
  getProgramImports' fuel inputProgram σ = (Ok (Some imports), σ') ->
  exists p,
    resolved' inputProgram p
    /\ (forall id, id ∈ getImports p -> is_Some (imports !! id))
    /\ closed' imports.
Proof.
  induction fuel as [|fuel IH]; intros inputProgram imports σ σ'; [discriminate|].
  rewrite getProgramImports_S.
  assert (Hloop : forall l imports0 imports1 (σ1 σ2 : St W),
             for_each l (import_step' (getProgramImports' fuel)) imports0 σ1
             = (Ok (Next imports1), σ2) ->
             closed' imports0 ->
             closed' imports1
             /\ (forall id, is_Some (imports0 !! id) -> is_Some (imports1 !! id))
             /\ forall id, id ∈ l -> is_Some (imports1 !! id)).
  { induction l as [|id l IHl]; intros imports0 imports1 σ1 σ2; simpl.
    - unfold ret. intros [= <- _] Hc. split; [exact Hc|]. split; [done|].
      intros id Hid. by apply elem_of_nil in Hid.
    - unfold bind at 1.
      destruct (import_step' (getProgramImports' fuel) id imports0 σ1)
        as [[[imports2|r]|e] σ3] eqn:Hstep; [|discriminate..].
      intros Hfor Hc.
      assert (Hstep_ok : closed' imports2
                         /\ (forall k, is_Some (imports0 !! k) -> is_Some (imports2 !! k))
                         /\ is_Some (imports2 !! id)).
      { unfold import_step in Hstep. case_bool_decide as Hhas.
        - unfold ret in Hstep. injection Hstep as <- _.
          split; [exact Hc|]. split; [done|exact Hhas].
        - unfold bind at 1 in Hstep. pose proof (getProgram_source id σ1) as Hsrc.
          destruct (getProgram' id σ1) as [[src|e] σ4]; [|discriminate].
          cbn [fst] in Hsrc. unfold bind in Hstep.
          destruct (getProgramImports' fuel (ProgString id) σ4)
            as [[[nested|]|e] σ5] eqn:Hn; try discriminate.
          unfold ret in Hstep. injection Hstep as <- _.
          destruct (IH _ _ _ _ Hn) as [p [Hp [Hdirect Hnested]]].
          destruct (source_of' id) as [j|] eqn:Hj; [|discriminate].
          injection Hsrc as ->.
          split; [by eapply closed_step|]. split.
          + intros k [j0 Hk]. destruct (decide (id = k)) as [->|Hne].
            * rewrite lookup_insert_eq. by eexists.
            * rewrite lookup_insert_ne by exact Hne. exists j0.
              by apply lookup_union_Some_l.
          + rewrite lookup_insert_eq. by eexists. }
      destruct Hstep_ok as [Hc2 [Hgrow2 Hid2]].
      destruct (IHl _ _ _ _ Hfor Hc2) as [Hc1 [Hgrow1 Hl1]].
      split; [exact Hc1|]. split; [intros k Hk; by apply Hgrow1, Hgrow2|].
      intros k [->|Hk]%elem_of_cons; [by apply Hgrow1|by apply Hl1]. }
  unfold try_, bind at 1.
  pose proof (resolve_program_resolved inputProgram σ) as Hres.
  destruct (resolve_program' inputProgram σ) as [[p|e] σ1];
    [|unfold logAndThrow, bind, emit, throw; discriminate].
  cbn [fst] in Hres. unfold bind at 1.
  destruct (for_each (getImports p) (import_step' (getProgramImports' fuel)) ∅ σ1)
    as [[[imports1|r]|e] σ2] eqn:Hfor.
  - unfold ret. intros [= <- _].
    destruct (Hloop _ _ _ _ _ Hfor closed_empty) as [Hc [_ Hl]].
    exists p. split; [exact Hres|]. split; [exact Hl|exact Hc].
  - rewrite (import_loop_return _ _ _ _ _ _ Hfor). discriminate.
  - unfold logAndThrow, bind, emit, throw. discriminate.
Qed.

Lemma resolved_functional inputProgram p q :
  resolved' inputProgram p -> resolved' inputProgram q -> p = q.
Proof. destruct inputProgram; simpl; congruence. Qed.

(** The loop gives up only when a nested call has not returned. *)
Lemma import_loop_finishes recur l :
  (forall id (σ : St W), id ∈ l -> (recur (ProgString id) σ).1 <> Ok None) ->
  forall imports (σ : St W) r,
    (for_each l (import_step' recur) imports σ).1 <> Ok (Return r).
Proof.
  intros Hrecur. induction l as [|id l IHl]; intros imports σ r; simpl; [discriminate|].
  unfold bind at 1.
  destruct (import_step' recur id imports σ) as [[[imports1|r1]|e] σ1] eqn:Hstep.
  - apply IHl. intros id' σ' Hid'. apply Hrecur. apply elem_of_cons. by right.
  - exfalso. unfold import_step in Hstep. case_bool_decide; [discriminate|].
    unfold bind at 1 in Hstep.
    destruct (getProgram' id σ) as [[src|e] σ2]; [|discriminate].
    unfold bind in Hstep.
    destruct (recur (ProgString id) σ2) as [[[nested|]|e] σ3] eqn:Hn; try discriminate.
    apply (Hrecur id σ2); [apply elem_of_cons; by left|]. by rewrite Hn.
  - discriminate.
Qed.

(** Enough levels of calls for a program whose imports nest [n] deep. *)
Lemma getProgramImports_returns n : forall fuel inputProgram p (σ : St W),
  (n + 2 <= fuel)%nat -> resolved' inputProgram p -> depth_le' n p ->
  (getProgramImports' fuel inputProgram σ).1 <> Ok None.
Proof.
  assert (Hthrow : forall (e : exn) (σ : St W),
             (logAndThrow (A:=option (gmap string Json))
                          ("Error fetching program imports: " ++ exn_to_string e) σ).1
             <> Ok None).
  { intros e σ. unfold logAndThrow, bind, emit, throw. discriminate. }
  assert (Hbody : forall f p (σ : St W) inputProgram,
             resolved' inputProgram p ->
             (forall id (σ' : St W), id ∈ getImports p ->
                (getProgramImports' f (ProgString id) σ').1 <> Ok None) ->
             (getProgramImports' (S f) inputProgram σ).1 <> Ok None).
  { intros f p σ inputProgram Hp Hnested. rewrite getProgramImports_S.
    unfold try_, bind at 1.
    pose proof (resolve_program_resolved inputProgram σ) as Hres.
    destruct (resolve_program' inputProgram σ) as [[q|e] σ1]; [|apply Hthrow].
    cbn [fst] in Hres. rewrite <- (resolved_functional _ _ _ Hp Hres).
    unfold bind at 1.
    pose proof (import_loop_finishes (getProgramImports' f) (getImports p) Hnested ∅ σ1)
      as Hfinish.
    destruct (for_each (getImports p) (import_step' (getProgramImports' f)) ∅ σ1)
      as [[[imports|r]|e] σ2]; [discriminate| |apply Hthrow].
    by destruct (Hfinish r). }
  assert (Hunresolved : forall f s (σ : St W),
             program_at' s = None ->
             (getProgramImports' (S f) (ProgString s) σ).1 <> Ok None).
  { intros f s σ Hnone. rewrite getProgramImports_S. unfold try_, bind at 1.
    pose proof (resolve_program_resolved (ProgString s) σ) as Hres.
    destruct (resolve_program' (ProgString s) σ) as [[q|e] σ1]; [|apply Hthrow].
    cbn [fst] in Hres. simpl in Hres. congruence. }
  induction n as [|n IH]; intros fuel inputProgram p σ Hfuel Hp Hdepth;
    (destruct fuel as [|[|f]]; [lia|lia|]);
    apply (Hbody (S f) p σ inputProgram Hp); intros id σ' Hid.
  - apply Hunresolved. by apply Hdepth.
  - destruct (program_at' id) as [p'|] eqn:Hid'; [|by apply Hunresolved].
    apply (IH (S f) (ProgString id) p'); [lia|exact Hid'|by eapply Hdepth].
Qed.

(** X16 (program imports: what the map holds).  The node's answers do not
    change during the call.  When [getProgramImports] answers with a map,
    the input stands for a program; the map has an entry for each of its
    imports; each entry holds the source the node serves for its id; and
    with the entry of a program the map holds the entries of that
    program's own imports.  More levels of calls give the same answer. *)
Theorem getProgramImports_closure fuel inputProgram imports (σ σ' : St W) :
  getProgramImports' fuel inputProgram σ = (Ok (Some imports), σ') ->
  (exists p,
      resolved' inputProgram p
      /\ (forall id, id ∈ getImports p -> is_Some (imports !! id)))
  /\ closed' imports
  /\ forall fuel', (fuel <= fuel')%nat ->
                   getProgramImports' fuel' inputProgram σ = (Ok (Some imports), σ').
Proof.
  intros Hrun. destruct (getProgramImports_closed _ _ _ _ _ Hrun) as [p [Hp [Hd Hc]]].
  split; [by exists p|]. split; [exact Hc|].
  intros fuel' Hle. by apply (getProgramImports_fuel fuel).
Qed.

(** X17 (program imports: the call returns).  The node's answers do not
    change during the call, and the imports of the program nest at most
    [n] levels deep.  Then [n + 2] levels of calls are enough: the call
    answers with a map or throws, and more levels give the same. *)
Theorem getProgramImports_terminates n fuel inputProgram p (σ : St W) :
  resolved' inputProgram p -> depth_le' n p -> (n + 2 <= fuel)%nat ->
  (getProgramImports' fuel inputProgram σ).1 <> Ok None
  /\ getProgramImports' fuel inputProgram σ
     = getProgramImports' (n + 2) inputProgram σ.
Proof.
  intros Hp Hdepth Hfuel.
  split; [by apply (getProgramImports_returns n _ _ p)|].
  destruct (getProgramImports' (n + 2) inputProgram σ) as [r σ'] eqn:Hrun.
  apply (getProgramImports_fuel (n + 2)); [exact Hfuel|exact Hrun|].
  pose proof (getProgramImports_returns n (n + 2) inputProgram p σ ltac:(lia) Hp Hdepth)
    as H.
  by rewrite Hrun in H.
Qed.

End Stateless.

(** X18 (program imports: a program that imports itself).  The node serves
    under the id [a] a program whose first import is [a].  Then no number
    of levels of calls is enough for [getProgramImports(a)]: each level
    fetches [a] and calls the method for [a] again. *)
Theorem getProgramImports_self_import a src p rest :
  Program_fromString a = None ->
  (forall w, (node_get (host ++ "/program/" ++ a) w).1 = Some (JString src)) ->
  Program_fromString src = Some p ->
  getImports p = a :: rest ->
  forall fuel (σ : St W), (getProgramImports' fuel (ProgString a) σ).1 = Ok None.
Proof.
  intros Hid Hnode Hsrc Himports. induction fuel as [|fuel IH]; intros σ; [reflexivity|].
  rewrite getProgramImports_S. unfold try_, bind at 1. cbn [resolve_program].
  unfold getProgramObject. rewrite Hid.
  unfold try_ at 1, bind at 1. rewrite getProgram_run, Hnode. cbn [program_of_json].
  rewrite Hsrc. cbn [ret]. rewrite Himports. cbn [for_each].
  unfold bind at 1, bind at 1, import_step. rewrite lookup_empty.
  rewrite bool_decide_eq_false_2 by apply is_Some_None.
  unfold bind at 1. rewrite getProgram_run, Hnode.
  unfold bind at 1.
  match goal with
  | |- context [getProgramImports' fuel (ProgString a) ?σ1] =>
      specialize (IH σ1);
      destruct (getProgramImports' fuel (ProgString a) σ1) as [r σ2]
  end.
  cbn [fst] in IH. by rewrite IH.
Qed.

End Client.

Lemma getProgramImports_closure_witness :
  exists imports σ',
    ImportsFixture.test_getProgramImports 3 "a.aleo" (mkSt 0%nat [])
    = (Ok (Some imports), σ')
    /\ imports !! "b.aleo" = Some (JString ImportsFixture.source_b)
    /\ closed ImportsFixture.test_Program_fromString (fun p => p)
              ImportsFixture.test_host ImportsFixture.test_answer imports
    /\ ImportsFixture.test_getProgramImports 8 "a.aleo" (mkSt 0%nat [])
       = (Ok (Some imports), σ').
Proof.
  eexists _, _. split; [vm_compute; reflexivity|].
  split; [vm_compute; reflexivity|].
  destruct (getProgramImports_closure ImportsFixture.test_node_get
              ImportsFixture.test_Program_fromString (fun p => p)
              ImportsFixture.test_host ImportsFixture.test_answer
              (fun url w => eq_refl) 3 (ProgString "a.aleo") _ (mkSt 0%nat []) _
              ltac:(vm_compute; reflexivity)) as (_ & Hclosed & Hfuel).
  split; [exact Hclosed|]. apply Hfuel. lia.
Defined.

Lemma getProgramImports_terminates_witness :
  (ImportsFixture.test_getProgramImports 8 "a.aleo" (mkSt 0%nat [])).1 <> Ok None
  /\ ImportsFixture.test_getProgramImports 8 "a.aleo" (mkSt 0%nat [])
     = ImportsFixture.test_getProgramImports 3 "a.aleo" (mkSt 0%nat []).
Proof.
  apply (getProgramImports_terminates ImportsFixture.test_node_get
           ImportsFixture.test_Program_fromString (fun p => p)
           ImportsFixture.test_host ImportsFixture.test_answer
           (fun url w => eq_refl) 1 8 (ProgString "a.aleo") ["b.aleo"] (mkSt 0%nat [])).
  - vm_compute. reflexivity.
  - intros id p' Hid Hp'. apply list_elem_of_singleton in Hid. subst id.
    vm_compute in Hp'. injection Hp' as <-.
    intros id Hid. by apply elem_of_nil in Hid.
  - lia.
Defined.

Lemma getProgramImports_self_import_witness :
  (ImportsFixture.test_getProgramImports 7 "loop.aleo" (mkSt 0%nat [])).1 = Ok None.
Proof.
  apply (getProgramImports_self_import ImportsFixture.test_node_get
           ImportsFixture.test_Program_fromString (fun p => p)
           ImportsFixture.test_host "loop.aleo" ImportsFixture.source_loop
           ["loop.aleo"] [] eq_refl (fun w => eq_refl) eq_refl eq_refl).
Defined.
End NetworkQueriesProofs.

(* ===================================================================== *)
(** * ProgramManager: deployment and contacts, proofs *)
(* ===================================================================== *)

Module ContactProofs.
Import RecordProvider ProgramManager ManagerSpec Deployment ContactSpec.

Section Emits.
Context {W : Type}.
Implicit Types P : Event -> Prop.

Lemma emits_ret {A} P (a : A) : emits (W:=W) P (ret a).
Proof. intros σ. exists []. split; [by rewrite app_nil_r|constructor]. Qed.

Lemma emits_throw {A} P e : emits (W:=W) (A:=A) P (throw e).
Proof. intros σ. exists []. split; [by rewrite app_nil_r|constructor]. Qed.

Lemma emits_emit P ev : P ev -> emits (W:=W) P (emit ev).
Proof. intros Hev σ. exists [ev]. split; [reflexivity|by constructor]. Qed.

Lemma emits_call {A} P (op : W -> Res A * W) ev :
  (forall r, P (ev r)) -> emits P (call op ev).
Proof.
  intros Hev σ. unfold call. destruct (op (world σ)) as [r w'].
  exists [ev r]. split; [reflexivity|by constructor].
Qed.

Lemma emits_bind {A B} P (m : M W A) (f : A -> M W B) :
  emits P m -> (forall a, emits P (f a)) -> emits P (bind m f).
Proof.
  intros Hm Hf σ. unfold bind. destruct (Hm σ) as (evs & Htr & Hevs).
  destruct (m σ) as [[a|e] σ1]; simpl in Htr.
  - destruct (Hf a σ1) as (evs' & Htr' & Hevs').
    exists (evs ++ evs')%list. split; [|by apply Forall_app].
    by rewrite Htr', Htr, app_assoc.
  - by exists evs.
Qed.

Lemma emits_try {A} P (m : M W A) (h : exn -> M W A) :
  emits P m -> (forall e, emits P (h e)) -> emits P (try_ m h).
Proof.
  intros Hm Hh σ. unfold try_. destruct (Hm σ) as (evs & Htr & Hevs).
  destruct (m σ) as [[a|e] σ1]; simpl in Htr.
  - by exists evs.
  - destruct (Hh e σ1) as (evs' & Htr' & Hevs').
    exists (evs ++ evs')%list. split; [|by apply Forall_app].
    by rewrite Htr', Htr, app_assoc.
Qed.

(** The handler of a [try] runs only on what the block can throw. *)
Lemma emits_try_thrown {A} P (m : M W A) (h : exn -> M W A) :
  emits P m ->
  (forall e, (exists σ σ', m σ = (Throw e, σ')) -> emits P (h e)) ->
  emits P (try_ m h).
Proof.
  intros Hm Hh σ. unfold try_. destruct (Hm σ) as (evs & Htr & Hevs).
  destruct (m σ) as [[a|e] σ1] eqn:Hrun; simpl in Htr.
  - by exists evs.
  - destruct (Hh e (ex_intro _ σ (ex_intro _ σ1 Hrun)) σ1) as (evs' & Htr' & Hevs').
    exists (evs ++ evs')%list. split; [|by apply Forall_app].
    by rewrite Htr', Htr, app_assoc.
Qed.

Lemma emits_logAndThrow {A} P message :
  (forall msg, P (EvLog msg)) -> emits (W:=W) (A:=A) P (logAndThrow message).
Proof.
  intros Hlog. unfold logAndThrow. apply emits_bind; [by apply emits_emit|].
  intros _. apply emits_throw.
Qed.
End Emits.

(** One step through the structure of a computation. *)
Ltac emits_step :=
  lazymatch goal with
  | |- emits _ (bind _ _) => apply emits_bind; [|intros ?]
  | |- emits _ (try_ _ _) => apply emits_try_thrown; [|intros ? ?]
  | |- emits _ (ret _) => apply emits_ret
  | |- emits _ (throw _) => apply emits_throw
  | |- emits _ (logAndThrow _) => apply emits_logAndThrow; intros ?
  | |- emits _ (emit _) => apply emits_emit
  | |- emits _ (call _ _) => apply emits_call; intros ?
  | |- emits _ (let '(_, _) := ?x in _) => destruct x
  | |- emits _ (match ?x with _ => _ end) => destruct x eqn:?
  end.

Section Manager.
Context {W ProvingKey VerifyingKey PrivateKey Imports OfflineQuery Tx : Type}.
Context {keyProvider : FunctionKeyProvider W ProvingKey VerifyingKey}.
Variable recordProvider : option (RecordProvider W).
Variable account : option PrivateKey.
Variable host : string.
Variable RecordPlaintext_fromString : string -> option RecordPlaintext.

Section Execution.
Variable getProgram : string -> W -> Res string * W.
Variable getProgramImports : string -> W -> Res Imports * W.
Variable Program_imports_length : string -> option nat.
Variable engine_buildExecutionTransaction :
  ExecuteArgs (ProvingKey:=ProvingKey) (VerifyingKey:=VerifyingKey)
              (PrivateKey:=PrivateKey) (Imports:=Imports)
              (OfflineQuery:=OfflineQuery) -> W -> Res Tx * W.

(** X19 (what an execution build contacts).  Whatever the collaborators
    answer and however the build ends, [buildExecutionTransaction] asks
    the node for the program only if [options.program] is absent, and for
    the imports only if [options.imports] is absent; it looks up a fee
    record only for a private fee without a usable explicit fee record
    (for [fee], excluding nothing); it asks for the fee keys of the fee's
    kind, and for the function keys only if a key is missing.  So a build
    that is given the program, its imports and both keys and pays a
    public fee contacts the key provider for the fee keys and the engine,
    nothing else. *)
Theorem buildExecutionTransaction_contacts options (σ : St W) :
  exists evs,
    trace (buildExecutionTransaction recordProvider account host getProgram
             getProgramImports RecordPlaintext_fromString Program_imports_length
             engine_buildExecutionTransaction options σ).2
    = (trace σ ++ evs)%list
    /\ Forall (execution_contact RecordPlaintext_fromString options) evs
    /\ (is_Some (program options) -> is_Some (imports options) ->
        is_Some (provingKey options) -> is_Some (verifyingKey options) ->
        privateFee options = false ->
        Forall (fun ev => match ev with
                          | EvLog _ | EvFeeKeys false | EvEngine (EngineExecute _ _) => True
                          | _ => False
                          end) evs).
Proof.
  assert (Hemits : emits (execution_contact RecordPlaintext_fromString options)
                     (buildExecutionTransaction recordProvider account host getProgram
                        getProgramImports RecordPlaintext_fromString
                        Program_imports_length engine_buildExecutionTransaction options)).
  { unfold buildExecutionTransaction. cbv zeta.
    unfold resolve_function_keys, resolve_private_key, getCreditsRecord, feeKeys_of,
      destructure.
    repeat emits_step; simpl; auto.
    - split; [assumption|]. split; [|by split].
      match goal with
      | Hthrown : exists _ _, _ = (Throw _, _) |- no_explicit_record _ ?rec =>
          destruct Hthrown as (σ1 & σ2 & Hthrown); revert Hthrown;
          destruct rec as [|r1|s1]; simpl; [done|discriminate|];
          by destruct (RecordPlaintext_fromString s1)
      end.
    - match goal with
      | Hcond : negb (bool_decide (is_Some ?pk)) || negb (bool_decide (is_Some ?vk)) = true
        |- _ =>
          destruct pk; [|by left]; destruct vk; [|by right];
          rewrite !bool_decide_eq_true_2 in Hcond by eauto; discriminate
      end.
    - match goal with
      | Hcond : _ && negb (bool_decide (is_Some ?i)) = true |- _ =>
          apply andb_true_iff in Hcond as [_ Hcond];
          destruct i; [|done];
          rewrite bool_decide_eq_true_2 in Hcond by eauto; discriminate
      end. }
  destruct (Hemits σ) as (evs & Htr & Hevs). exists evs.
  split; [exact Htr|]. split; [exact Hevs|].
  intros [p Hp] [i Hi] [pk Hpk] [vk Hvk] Hfee.
  eapply Forall_impl; [exact Hevs|].
  intros ev Hev.
  destruct ev as [| | | | |private| | | |c]; simpl in Hev;
    try exact Logic.I; try contradiction.
  - destruct Hev. congruence.
  - destruct Hev. congruence.
  - subst private. by rewrite Hfee.
  - destruct Hev; congruence.
  - destruct Hev as (Hpriv & _). congruence.
  - by destruct c.
Qed.

Abbreviation buildClaimUnbondPublicTransaction' :=
  (Staking.buildClaimUnbondPublicTransaction recordProvider account host getProgram
     getProgramImports RecordPlaintext_fromString Program_imports_length
     engine_buildExecutionTransaction).

(** X20 (claiming unbonded credits always asks the node for the program).
    [buildClaimUnbondPublicTransaction] does not hand [options.program]
    on: whatever the options are, the build starts by requesting the
    program named by [options.programName] ("credits.aleo" by default)
    from the node, and a program supplied in the options changes
    nothing. *)
Theorem claim_unbond_fetches_program options (σ : St W) :
  (exists evs,
      trace (buildClaimUnbondPublicTransaction' options σ).2
      = (trace σ ++ EvGetProgram (default "credits.aleo" (Staking.po_programName options))
                 :: evs)%list)
  /\ forall p,
      buildClaimUnbondPublicTransaction'
        (Staking.mkPartialExecuteOptions
           (Staking.po_programName options) (Staking.po_functionName options)
           (Staking.po_fee options) (Staking.po_privateFee options)
           (Staking.po_inputs options) (Staking.po_recordSearchParams options)
           (Staking.po_keySearchParams options) (Staking.po_privateKey options)
           (Staking.po_offlineQuery options) (Staking.po_feeRecord options)
           (Staking.po_provingKey options) (Staking.po_verifyingKey options)
           p (Staking.po_imports options)) σ
      = buildClaimUnbondPublicTransaction' options σ.
Proof.
  split; [|reflexivity].
  unfold Staking.buildClaimUnbondPublicTransaction, buildExecutionTransaction.
  cbv zeta. cbn [program programName].
  set (name := default "credits.aleo" (Staking.po_programName options)).
  match goal with
  | |- context [bind ?m ?rest σ] =>
      assert (Hrest : forall p, emits (fun _ => True) (rest p))
  end.
  { intros p. cbv beta.
    unfold resolve_function_keys, resolve_private_key, getCreditsRecord, feeKeys_of,
      destructure.
    repeat emits_step; exact Logic.I. }
  unfold bind at 1, try_ at 1, call at 1.
  destruct (getProgram name (world σ)) as [[p|e] w1].
  - destruct (Hrest p (mkSt w1 (trace σ ++ [EvGetProgram name])%list))
      as (evs & Htr & _).
    exists evs. rewrite Htr. cbn [trace]. by rewrite <- app_assoc.
  - unfold logAndThrow, bind, emit, throw. cbn [snd trace world].
    eexists [_]. by rewrite <- app_assoc.
Qed.

End Execution.

Section Transfers.
Variable engine_buildTransferTransaction :
  TransferArgs (ProvingKey:=ProvingKey) (VerifyingKey:=VerifyingKey)
               (PrivateKey:=PrivateKey) (OfflineQuery:=OfflineQuery) -> W -> Res Tx * W.

(** X21 (a public transfer needs no records).  Whatever the key provider
    and the engine answer and however the build ends,
    [buildTransferPublicTransaction] never asks the record provider for a
    record and never contacts the node: it asks for the public fee keys
    and the keys of the "public" transfer, and the engine, if reached, is
    handed the kind "public" with neither an amount record nor a fee
    record. *)
Theorem buildTransferPublicTransaction_contacts amount recipient fee privateKey
        offlineQuery (σ : St W) :
  exists evs,
    trace (buildTransferPublicTransaction recordProvider account host
             RecordPlaintext_fromString engine_buildTransferTransaction
             amount recipient fee privateKey offlineQuery σ).2
    = (trace σ ++ evs)%list
    /\ Forall public_transfer_contact evs
    /\ lookups evs = 0%nat.
Proof.
  assert (Hemits : emits public_transfer_contact
                     (buildTransferPublicTransaction recordProvider account host
                        RecordPlaintext_fromString engine_buildTransferTransaction
                        amount recipient fee privateKey offlineQuery)).
  { unfold buildTransferPublicTransaction, buildTransferTransaction.
    assert (Hvalid : validateTransferType (W:=W) "public" = ret "public")
      by (unfold validateTransferType; eval_has; reflexivity).
    rewrite Hvalid.
    assert (Hreq : requiresAmountRecord "public" = false)
      by (vm_compute; reflexivity).
    intros σ0. unfold bind at 1, ret at 1. revert σ0.
    rewrite Hreq.
    unfold resolve_private_key, feeKeys_of, destructure.
    apply emits_bind; [repeat emits_step|intros k].
    intros σ0. unfold bind at 1, try_ at 1, bind at 1, call at 1.
    destruct (kp_feePublicKeys (world σ0)) as [[fk|e] w1]; cbn [fst snd].
    2:{ unfold logAndThrow, bind, emit, throw. cbn.
        eexists. split; [rewrite <- app_assoc; reflexivity|].
        by repeat constructor. }
    unfold bind at 1, call at 1. cbn [world trace].
    destruct (kp_transferKeys "public" w1) as [[tk|e] w2]; cbn [fst snd].
    2:{ unfold logAndThrow, bind, emit, throw. cbn.
        eexists. split; [rewrite <- !app_assoc; reflexivity|].
        by repeat constructor. }
    unfold ret at 1. cbn [fst snd].
    destruct fk as [[fpk fvk]|e]; [|unfold bind at 1, throw at 1].
    2:{ eexists. split; [cbn; rewrite <- !app_assoc; reflexivity|].
        by repeat constructor. }
    unfold bind at 1, ret at 1.
    destruct tk as [[tpk tvk]|e]; [|unfold bind at 1, throw at 1].
    2:{ eexists. split; [cbn; rewrite <- !app_assoc; reflexivity|].
        by repeat constructor. }
    unfold bind at 1, ret at 1.
    unfold bind at 1, try_ at 1, bind at 1, ret at 1, bind at 1, ret at 1, ret at 1.
    cbn beta iota. unfold call. cbn [world trace].
    destruct (engine_buildTransferTransaction _ w2) as [r w3]. cbn.
    eexists. split; [rewrite <- !app_assoc; reflexivity|].
    by repeat constructor. }
  destruct (Hemits σ) as (evs & Htr & Hevs). exists evs.
  split; [exact Htr|]. split; [exact Hevs|].
  clear -Hevs. induction Hevs as [|ev evs Hev _ IH]; [reflexivity|].
  destruct ev; simpl in Hev; try contradiction; exact IH.
Qed.

(** X22 (no amount record found).  For a transfer kind that consumes a
    private input, when the record provider hands back an [Error] object
    for the amount record (as [NetworkRecordProvider.findCreditsRecord]
    does when it finds none), the build fails: reading the nonce of the
    answer throws, the message is logged and thrown as a string, and the
    engine is not called. *)
Theorem amount_record_not_found rp amount recipient transferType fee
        (privateFee : bool) params amountRecord feeRecord privateKey offlineQuery
        k fk tk w1 w2 e w3 (σ : St W) :
  recordProvider = Some rp ->
  KeyProvider.has VALID_TRANSFER_TYPES transferType = true ->
  requiresAmountRecord transferType = true ->
  resolved_private_key account privateKey = Some k ->
  no_explicit_record RecordPlaintext_fromString amountRecord ->
  (if privateFee then kp_feePrivateKeys (world σ) else kp_feePublicKeys (world σ))
  = (Ok (Val fk), w1) ->
  kp_transferKeys transferType w1 = (Ok (Val tk), w2) ->
  rp_findCreditsRecord fee true [] params w2 = (Ok (ErrVal e), w3) ->
  let message := fee_record_message (TypeError "amountRecord.nonce is not a function") in
  buildTransferTransaction recordProvider account host RecordPlaintext_fromString
    engine_buildTransferTransaction amount recipient transferType fee privateFee params
    amountRecord feeRecord privateKey offlineQuery σ
  = (Throw (ThrownString message),
     mkSt w3 (trace σ ++ [EvFeeKeys privateFee; EvTransferKeys transferType;
                          EvFindCreditsRecord fee []; EvLog message])).
Proof.
  intros Hrp Hvalid Hreq Hk Hno Hfee Htk Hfind message.
  set (σ2 := mkSt w2 (trace σ ++ [EvFeeKeys privateFee; EvTransferKeys transferType])).
  assert (Hamount :
            getCreditsRecord recordProvider RecordPlaintext_fromString fee [] amountRecord
                             params σ2
            = (Ok (ErrVal e), mkSt w3 (trace σ2 ++ [EvFindCreditsRecord fee []])))
    by (by eapply ManagerProofs.getCreditsRecord_lookup).
  destruct fk as [feeProvingKey feeVerifyingKey].
  destruct tk as [transferProvingKey transferVerifyingKey].
  unfold buildTransferTransaction.
  erewrite ManagerProofs.bind_ok by (by apply ManagerProofs.validateTransferType_ok).
  erewrite ManagerProofs.bind_ok by (by apply ManagerProofs.resolve_private_key_ok).
  erewrite ManagerProofs.bind_ok by (by eapply ManagerProofs.transfer_keys_ok).
  cbn [fst snd destructure]. unfold bind at 1, ret at 1. unfold bind at 1, ret at 1.
  erewrite ManagerProofs.bind_throw; [reflexivity|].
  erewrite ManagerProofs.try_throw.
  2:{ rewrite Hreq. fold σ2.
      erewrite ManagerProofs.bind_throw; [reflexivity|].
      erewrite ManagerProofs.bind_ok by exact Hamount. reflexivity. }
  subst σ2. unfold logAndThrow, bind, emit, throw. cbn [world trace].
  by rewrite <- !app_assoc.
Qed.
End Transfers.

Section Deploy.
Variable getProgram : string -> W -> Res Json * W.
Variable getProgramImports : string -> W -> Res Imports * W.
Variable submitTransaction : Tx -> W -> Res Json * W.
Variable Program_id : string -> Res string.
Variable engine_buildDeploymentTransaction :
  DeployArgs (ProvingKey:=ProvingKey) (VerifyingKey:=VerifyingKey)
             (PrivateKey:=PrivateKey) (Imports:=Imports) -> W -> Res Tx * W.

Abbreviation deploy' :=
  (deploy recordProvider account host getProgram getProgramImports submitTransaction
          RecordPlaintext_fromString Program_id engine_buildDeploymentTransaction).

(** X23 (deployment is refused before anything is spent).  [deploy] throws
    the string "Error validating program: ..." when the source does not
    parse, without contacting anyone, and when the node serves a string
    under the program's id ("... already exists on the network, please
    rename your program"), after that one lookup: no key, record or
    import is fetched, and the engine and the broadcast are not
    reached. *)
Theorem deploy_refuses program fee privateFee params feeRecord privateKey (σ : St W) :
  (forall e,
      Program_id program = Throw e ->
      let message := "Error validating program: " ++ exn_to_string e in
      deploy' program fee privateFee params feeRecord privateKey σ
      = (Throw (ThrownString message),
         mkSt (world σ) (trace σ ++ [EvLog message])))
  /\ (forall id source w',
         Program_id program = Ok id ->
         getProgram id (world σ) = (Ok (JString source), w') ->
         let message := "Error validating program: " ++ already_exists_message id in
         deploy' program fee privateFee params feeRecord privateKey σ
         = (Throw (ThrownString message),
            mkSt w' (trace σ ++ [EvGetProgram id; EvLog message]))).
Proof.
  split.
  - intros e He message. unfold deploy.
    erewrite ManagerProofs.bind_throw; [reflexivity|].
    erewrite ManagerProofs.try_throw.
    2:{ rewrite He. erewrite ManagerProofs.bind_throw; reflexivity. }
    reflexivity.
  - intros id source w' Hid Hget message. unfold deploy.
    erewrite ManagerProofs.bind_throw; [reflexivity|].
    erewrite ManagerProofs.try_throw.
    2:{ rewrite Hid. unfold bind at 1, ret at 1.
        erewrite ManagerProofs.bind_ok.
        2:{ apply ManagerProofs.try_ok. unfold bind, call, ret. rewrite Hget.
            reflexivity. }
        reflexivity. }
    unfold logAndThrow, bind, emit, throw. cbn [world trace exn_to_string].
    by rewrite <- !app_assoc.
Qed.

(** X24 (deployment of a program the node does not serve).  When the
    source parses and the lookup of its id throws or answers with
    anything but a string, a deployment with a public fee goes on: with
    the signing key, the public fee keys and the imports resolved from
    the program source, the engine builds the transaction (no fee
    record), and [deploy] ends as the broadcast of that transaction
    does. *)
Theorem deploy_new_program program fee params feeRecord privateKey
        id r w1 k feeProvingKey feeVerifyingKey w2 imports w3 tx w4 (σ : St W) :
  Program_id program = Ok id ->
  getProgram id (world σ) = (r, w1) ->
  (forall source, r <> Ok (JString source)) ->
  resolved_private_key account privateKey = Some k ->
  kp_feePublicKeys w1 = (Ok (Val (feeProvingKey, feeVerifyingKey)), w2) ->
  getProgramImports program w2 = (Ok imports, w3) ->
  engine_buildDeploymentTransaction
    (mkDeployArgs k program fee None host imports feeProvingKey feeVerifyingKey) w3
  = (Ok tx, w4) ->
  deploy' program fee false params feeRecord privateKey σ
  = ((submitTransaction tx w4).1,
     mkSt (submitTransaction tx w4).2
          (trace σ ++ validation_events id r
                   ++ [EvFeeKeys false; EvGetProgramImports program])).
Proof.
  intros Hid Hget Hnew Hk Hkeys Himports Hbuild. unfold deploy.
  set (σ1 := mkSt w1 (trace σ ++ validation_events id r)%list).
  erewrite ManagerProofs.bind_ok with (σ' := σ1) (a := tt).
  2:{ apply ManagerProofs.try_ok. rewrite Hid. unfold bind at 1, ret at 1.
      unfold bind, try_, call, emit, ret, throw. rewrite Hget. subst σ1.
      destruct r as [[n|s|blocks|]|e]; cbn; try reflexivity.
      - by destruct (Hnew s).
      - by rewrite <- app_assoc. }
  erewrite ManagerProofs.bind_ok by (by apply ManagerProofs.resolve_private_key_ok).
  unfold bind at 1, try_ at 1, ret at 1.
  unfold bind at 1, try_ at 1, feeKeys_of, call at 1. subst σ1. cbn [world trace].
  rewrite Hkeys. cbn [destructure]. unfold bind at 1, ret at 1.
  unfold bind at 1, try_ at 1, call at 1. cbn [world trace]. rewrite Himports.
  unfold bind, call_unrecorded. cbn [world trace]. rewrite Hbuild. cbn [world trace].
  destruct (submitTransaction tx w4) as [res w5]. cbn [fst snd].
  by rewrite <- !app_assoc.
Qed.
End Deploy.
End Manager.

Lemma amount_record_not_found_witness :
  DeployFixture.test_transfer_without_records "private" ManagerFixture.start
  = (Throw (ThrownString "Error finding fee record. Record finder response: 'TypeError: amountRecord.nonce is not a function'. Please ensure you're connected to a valid Aleo network and a record with enough balance exists."),
     mkSt 3%nat
          [EvFeeKeys false; EvTransferKeys "private"; EvFindCreditsRecord 500 [];
           EvLog "Error finding fee record. Record finder response: 'TypeError: amountRecord.nonce is not a function'. Please ensure you're connected to a valid Aleo network and a record with enough balance exists."]).
Proof.
  apply (amount_record_not_found
           (keyProvider:=ManagerFixture.throwing_keyProvider)
           (Some DeployFixture.empty_recordProvider) (Some "alice-key")
           "https://api.example" Fixture.test_fromString
           ManagerFixture.test_engine_transfer DeployFixture.empty_recordProvider
           1000 "aleo1recipient" "private" 500 false None RecUndefined RecUndefined
           None None "alice-key" ("fee_public.prover", "fee_public.verifier")
           ("private.prover", "private.verifier") 1%nat 2%nat
           (Error "Record not found") 3%nat ManagerFixture.start
           eq_refl ltac:(vm_compute; reflexivity) ltac:(vm_compute; reflexivity)
           eq_refl Logic.I eq_refl eq_refl eq_refl).
Defined.

Lemma deploy_refuses_witness :
  DeployFixture.test_deploy DeployFixture.node_with_program "function hello:"
    ManagerFixture.start
  = (Throw (ThrownString "Error validating program: Error: Failed to parse program"),
     mkSt 0%nat [EvLog "Error validating program: Error: Failed to parse program"])
  /\ DeployFixture.test_deploy DeployFixture.node_with_program DeployFixture.hello_source
       ManagerFixture.start
     = (Throw (ThrownString "Error validating program: Program hello_hello.aleo already exists on the network, please rename your program"),
        mkSt 1%nat
             [EvGetProgram "hello_hello.aleo";
              EvLog "Error validating program: Program hello_hello.aleo already exists on the network, please rename your program"]).
Proof.
  split.
  - apply (proj1 (deploy_refuses
             (keyProvider:=ManagerFixture.throwing_keyProvider)
             (Some ManagerFixture.test_recordProvider) (Some "alice-key")
             "https://api.example" Fixture.test_fromString
             DeployFixture.node_with_program ManagerFixture.test_getProgramImports
             DeployFixture.test_submit DeployFixture.test_Program_id
             DeployFixture.test_engine_deploy
             "function hello:" 3000000 false None RecUndefined None ManagerFixture.start)
             (Error "Failed to parse program") eq_refl).
  - apply (proj2 (deploy_refuses
             (keyProvider:=ManagerFixture.throwing_keyProvider)
             (Some ManagerFixture.test_recordProvider) (Some "alice-key")
             "https://api.example" Fixture.test_fromString
             DeployFixture.node_with_program ManagerFixture.test_getProgramImports
             DeployFixture.test_submit DeployFixture.test_Program_id
             DeployFixture.test_engine_deploy
             DeployFixture.hello_source 3000000 false None RecUndefined None
             ManagerFixture.start)
             "hello_hello.aleo" DeployFixture.hello_source 1%nat eq_refl eq_refl).
Defined.

Lemma deploy_new_program_witness :
  DeployFixture.test_deploy DeployFixture.node_without_program DeployFixture.hello_source
    ManagerFixture.start
  = (Ok (JString "at1deployment"),
     mkSt 5%nat [EvGetProgram "hello_hello.aleo";
                 EvLog "Program hello_hello.aleo does not exist on the network, deploying...";
                 EvFeeKeys false;
                 EvGetProgramImports DeployFixture.hello_source]).
Proof.
  apply (deploy_new_program
           (keyProvider:=ManagerFixture.throwing_keyProvider)
           (Some ManagerFixture.test_recordProvider) (Some "alice-key")
           "https://api.example" Fixture.test_fromString
           DeployFixture.node_without_program ManagerFixture.test_getProgramImports
           DeployFixture.test_submit DeployFixture.test_Program_id
           DeployFixture.test_engine_deploy
           DeployFixture.hello_source 3000000 None RecUndefined None
           "hello_hello.aleo" (Throw (Error "Error fetching program")) 1%nat
           "alice-key" "fee_public.prover" "fee_public.verifier" 2%nat [] 3%nat
           "deployment" 4%nat ManagerFixture.start
           eq_refl eq_refl ltac:(discriminate) eq_refl eq_refl eq_refl eq_refl).
Defined.
End ContactProofs.

(* ===================================================================== *)
(** * The XMLHttpRequest polyfill: proofs *)
(* ===================================================================== *)

Module XhrProofs.
Import KeyProvider XMLHttpRequest XhrSpec.

Section Requests.
Context {W : Type}.
Variable request : string -> string -> W -> Res bytes * W.
Variable decode : bytes -> option string.

Lemma open_ok this method url async (σ : St W) this' σ' :
  open this method url async σ = (Ok this', σ') ->
  cleared this' /\ _url this' = Some url /\ _mime this' = _mime this /\ σ' = σ
  /\ async = Some false /\ method = "GET".
Proof.
  unfold open.
  destruct async as [[|]|]; simpl; try discriminate.
  destruct (String.eqb method "GET") eqn:Hm; simpl; [|discriminate].
  apply String.eqb_eq in Hm. intros [= <- <-]. by repeat split.
Qed.

Lemma send_ok this body (σ : St W) this' σ' :
  send request decode this body σ = (Ok this', σ') ->
  holds_response this'
  /\ body = None
  /\ exists url buffer w',
       _url this = Some url /\ url <> ""
       /\ request url (_mime this) (world σ) = (Ok buffer, w')
       /\ decode buffer = Some (responseText this')
       /\ σ' = mkSt w' (trace σ ++ [EvHttpGet url true]).
Proof.
  unfold send. case_bool_decide as Hbody; [discriminate|].
  destruct (_url this) as [url|] eqn:Hurl; [|discriminate].
  destruct url as [|c url]; [discriminate|].
  unfold bind, call.
  destruct (request _ _ (world σ)) as [[buffer|e] w'] eqn:Hreq; [|discriminate].
  destruct (decode buffer) as [text|] eqn:Hdec; [|discriminate].
  unfold ret. intros [= <- <-]. split; [by repeat split|].
  split; [by destruct body; [destruct Hbody; eauto|]|].
  exists (String c url), buffer, w'. by repeat split.
Qed.

Lemma invoke_keeps c this (σ : St W) :
  cleared this \/ holds_response this ->
  exists this' σ',
    invoke request decode c this σ = (Ok this', σ')
    /\ (cleared this' \/ holds_response this').
Proof.
  intros Hthis. destruct c as [method url async|body|mime|]; simpl.
  - unfold try_. destruct (open this method url async σ) as [[this'|e] σ'] eqn:Hopen.
    + apply open_ok in Hopen as (Hc & _). eexists _, _. split; [reflexivity|by left].
    + eexists _, _. split; [reflexivity|exact Hthis].
  - unfold try_.
    destruct (send request decode this body σ) as [[this'|e] σ'] eqn:Hsend.
    + apply send_ok in Hsend as (Hr & _). eexists _, _. split; [reflexivity|by right].
    + eexists _, _. split; [reflexivity|exact Hthis].
  - eexists _, _. split; [reflexivity|]. exact Hthis.
  - eexists _, _. split; [reflexivity|]. exact Hthis.
Qed.

(** X25 (the states of the polyfill).  Whatever methods a caller invokes
    on a new [XMLHttpRequest], in any order and with any arguments, and
    whatever the requests come to, the object is either cleared
    ([readyState] UNSENT, status 0, no response) or holds a response
    ([readyState] DONE, status 200 "OK", [response] equal to
    [responseText], no pending URL): it never reports OPENED,
    HEADERS_RECEIVED or LOADING, nor a status other than 0 and 200. *)
Theorem polyfill_states calls (σ : St W) :
  exists this σ',
    session request decode calls new_XMLHttpRequest σ = (Ok this, σ')
    /\ (cleared this \/ holds_response this)
    /\ (readyState this = UNSENT \/ readyState this = DONE).
Proof.
  assert (Hgen : forall this0 σ0,
             cleared this0 \/ holds_response this0 ->
             exists this σ',
               session request decode calls this0 σ0 = (Ok this, σ')
               /\ (cleared this \/ holds_response this)).
  { induction calls as [|c calls IH]; intros this0 σ0 H0.
    - by exists this0, σ0.
    - destruct (invoke_keeps c this0 σ0 H0) as (this1 & σ1 & Hinv & H1).
      destruct (IH this1 σ1 H1) as (this2 & σ2 & Hrun & H2).
      exists this2, σ2. split; [|exact H2].
      simpl. unfold bind. by rewrite Hinv. }
  destruct (Hgen new_XMLHttpRequest σ) as (this & σ' & Hrun & Hthis).
  { left. by repeat split. }
  exists this, σ'. split; [exact Hrun|]. split; [exact Hthis|].
  destruct Hthis as [Hc|Hr]; [left; apply Hc|right; apply Hr].
Qed.

(** X26 (one request per [open]).  A [send] that returns was given no
    body, on an object holding the non-empty URL of an [open]; it made
    one GET request for that URL with the object's MIME type, the
    response text is the decoded body, and the URL is used up: any
    further [send] on the object throws, without a request, until it is
    opened again. *)
Theorem send_uses_up_the_url this body (σ : St W) this' σ' :
  send request decode this body σ = (Ok this', σ') ->
  body = None
  /\ (exists url buffer w',
         _url this = Some url /\ url <> ""
         /\ request url (_mime this) (world σ) = (Ok buffer, w')
         /\ decode buffer = Some (responseText this')
         /\ response this' = Some (responseText this')
         /\ σ' = mkSt w' (trace σ ++ [EvHttpGet url true]))
  /\ (forall body' σ0,
         exists message,
           send request decode this' body' σ0 = (Throw (Error message), σ0))
  /\ (forall url (σ0 : St W),
         exists opened,
           open this' "GET" url (Some false) σ0 = (Ok opened, σ0)
           /\ _url opened = Some url /\ _mime opened = _mime this'
           /\ _mime this' = _mime this).
Proof.
  intros Hsend. pose proof (send_ok _ _ _ _ _ Hsend) as (Hr & Hbody & Hreq).
  split; [exact Hbody|]. split.
  { destruct Hreq as (url & buffer & w' & H1 & H2 & H3 & H4 & H5).
    exists url, buffer, w'. repeat split; try assumption. apply Hr. }
  split.
  - intros body' σ0. unfold send. case_bool_decide; [by eexists|].
    destruct Hr as (_ & _ & _ & _ & ->). by eexists.
  - intros url σ0. eexists. split; [reflexivity|]. split; [reflexivity|].
    split; [reflexivity|].
    revert Hsend. unfold send. case_bool_decide; [discriminate|].
    destruct (_url this) as [[|c u]|]; try discriminate.
    unfold bind, call. destruct (request _ _ _) as [[buffer|e] w']; [|discriminate].
    destruct (decode buffer); [|discriminate]. by intros [= <- <-].
Qed.
End Requests.

Lemma send_uses_up_the_url_witness :
  exists this',
    send XhrFixture.test_request XhrFixture.test_decode XhrFixture.opened None
         (mkSt 0%nat [])
    = (Ok this', mkSt 1%nat [EvHttpGet "file:///aleo.wasm" true])
    /\ responseText this' = "wasm"
    /\ exists message,
         send XhrFixture.test_request XhrFixture.test_decode this' None
              (mkSt 1%nat [EvHttpGet "file:///aleo.wasm" true])
         = (Throw (Error message), mkSt 1%nat [EvHttpGet "file:///aleo.wasm" true]).
Proof.
  eexists. split; [vm_compute; reflexivity|]. split; [reflexivity|].
  eapply (proj1 (proj2 (proj2 (send_uses_up_the_url
            XhrFixture.test_request XhrFixture.test_decode XhrFixture.opened None
            (mkSt 0%nat []) _ _ ltac:(vm_compute; reflexivity))))).
Defined.
End XhrProofs.

(* ===================================================================== *)
(** * Account: proofs *)
(* ===================================================================== *)

Module AccountProofs.
Import KeyProvider Account.

Section Engine.
Context {W PrivateKey ViewKey Address PrivateKeyCiphertext : Type}.
Variable PrivateKey_from_seed_unchecked : bytes -> option PrivateKey.
Variable PrivateKey_from_string : string -> option PrivateKey.
Variable new_PrivateKey : W -> PrivateKey * W.
Variable PrivateKey_to_string : PrivateKey -> string.
Variable ViewKey_from_private_key : PrivateKey -> ViewKey.
Variable Address_from_private_key : PrivateKey -> Address.
Variable toCiphertext : PrivateKey -> string -> W -> option PrivateKeyCiphertext * W.
Variable PrivateKeyCiphertext_fromString : string -> option PrivateKeyCiphertext.
Variable fromPrivateKeyCiphertext : PrivateKeyCiphertext -> string -> option PrivateKey.

Abbreviation new_Account' :=
  (new_Account PrivateKey_from_seed_unchecked PrivateKey_from_string new_PrivateKey
               ViewKey_from_private_key Address_from_private_key).
Abbreviation fromCiphertext' :=
  (fromCiphertext PrivateKey_from_seed_unchecked PrivateKey_from_string new_PrivateKey
                  PrivateKey_to_string ViewKey_from_private_key Address_from_private_key
                  PrivateKeyCiphertext_fromString fromPrivateKeyCiphertext).

(** Every account the constructor returns carries the view key and the
    address of its private key. *)
Lemma new_Account_derived params (σ : St W) this σ' :
  new_Account' params σ = (Ok this, σ') ->
  this = mkAccount (_privateKey this) (ViewKey_from_private_key (_privateKey this))
                   (Address_from_private_key (_privateKey this)).
Proof.
  unfold new_Account, bind, try_.
  destruct (privateKeyFromParams _ _ _ params σ) as [[k|e] σ1]; [|discriminate].
  unfold ret. by intros [= <- <-].
Qed.

(** X27 (an encrypted account is recovered).  For an account the
    constructor returned, whose private key the engine prints as a
    non-empty string that it parses back to the same key, and an engine
    that decrypts what it encrypted under the same password:
    [Account.fromCiphertext] of the ciphertext of
    [encryptAccount(password)] and that password returns the same account
    (private key, view key and address), with nothing logged and no
    randomness drawn.  With a password under which the engine does not
    decrypt the ciphertext, it throws "Wrong password or invalid
    ciphertext". *)
Theorem fromCiphertext_recovers_account params (σ0 σ1 : St W) this password
        (σ : St W) c σ' :
  new_Account' params σ0 = (Ok this, σ1) ->
  PrivateKey_to_string (_privateKey this) <> "" ->
  PrivateKey_from_string (PrivateKey_to_string (_privateKey this))
  = Some (_privateKey this) ->
  (forall w c w',
      toCiphertext (_privateKey this) password w = (Some c, w') ->
      fromPrivateKeyCiphertext c password = Some (_privateKey this)) ->
  encryptAccount toCiphertext this password σ = (Ok c, σ') ->
  fromCiphertext' (CtObject c) password σ' = (Ok this, σ')
  /\ (forall password',
         fromPrivateKeyCiphertext c password' = None ->
         fromCiphertext' (CtObject c) password' σ'
         = (Throw (Error "Wrong password or invalid ciphertext"), σ')).
Proof.
  intros Hnew Hprint Hparse Hround Henc. apply new_Account_derived in Hnew.
  assert (Hdec : fromPrivateKeyCiphertext c password = Some (_privateKey this)).
  { revert Henc. unfold encryptAccount, engine.
    destruct (toCiphertext _ _ (world σ)) as [[c0|] w'] eqn:Hc; [|discriminate].
    intros [= <- _]. by eapply Hround. }
  split.
  - unfold fromCiphertext, try_, bind, of_engine, ret. rewrite Hdec.
    unfold new_Account, privateKeyFromParams, try_, bind, of_engine, ret.
    cbn [seed privateKey].
    destruct (PrivateKey_to_string (_privateKey this)) as [|ch s] eqn:Hs; [done|].
    rewrite Hparse. by rewrite <- Hnew.
  - intros password' Hwrong. unfold fromCiphertext, try_, bind, of_engine, ret.
    by rewrite Hwrong.
Qed.
End Engine.

Lemma fromCiphertext_recovers_account_witness :
  AccountFixture.test_fromCiphertext (CtObject ("alice-key", "secret")) "secret"
    (mkSt 1%nat [])
  = (Ok AccountFixture.alice, mkSt 1%nat [])
  /\ AccountFixture.test_fromCiphertext (CtObject ("alice-key", "secret")) "guess"
       (mkSt 1%nat [])
     = (Throw (Error "Wrong password or invalid ciphertext"), mkSt 1%nat []).
Proof.
  pose proof (fromCiphertext_recovers_account (W:=nat)
                (fun _ : bytes => Some "seeded") AccountFixture.key_from_string
                (fun w => ("random", S w)) (fun k : string => k)
                (fun k : string => "view:" ++ k) (fun k : string => "aleo1" ++ k)
                AccountFixture.test_toCiphertext (fun _ : string => None)
                AccountFixture.test_decrypt
                (mkAccountParams None (Some "alice-key")) (mkSt 0%nat []) (mkSt 0%nat [])
                AccountFixture.alice "secret" (mkSt 0%nat []) ("alice-key", "secret")
                (mkSt 1%nat [])
                eq_refl ltac:(discriminate) eq_refl
                ltac:(by intros w c w' [= <- _]) eq_refl) as [Hok Hwrong].
  split; [exact Hok|exact (Hwrong "guess" eq_refl)].
Defined.
End AccountProofs.
